(** * Herald: ranking engine and citation-authority subsystem

    A shallow embedding of [src/utils/config_loader.py],
    [src/utils/citation_fetcher.py], [src/models/article_embedding_model.py]
    (the [predict] text assembly) and [src/ranking_engine/ranker.py].

    Conventions of the embedding.
    - Python values are dynamically typed: [value], the values of JSON and
      YAML documents and the [datetime] objects that the arXiv collector
      stores in [published] and [updated].  Dictionaries nested in a
      value (configuration, JSON bodies, weight maps) are association lists in
      insertion order; an article is a [gmap string value] living in a store
      of objects, and the list handed to the ranker is a list of references.
    - Python floats that are data (weights, configuration numbers, times) are
      rationals.  The scores, which go through [exp] and [log], are embedded
      twice: in [Ranker] with their exact values, as real numbers, and in
      [Double] as the program computes them, on IEEE doubles with rounding,
      overflow, underflow and NaN.  What depends on the arithmetic of
      doubles is stated on [Double].
    - Exceptions are values of [exn]; a computation is a function from the
      state to an outcome and a new state, so that writes made before an
      exception stay visible.
    - Code outside the repository (the sentence encoder, scikit-learn's cosine
      similarity, [datetime.fromisoformat], [str.lower], the HTTP registry and
      the scheduler's sleep overrun) is a field of [Env].
    - The wall clock is a component of the state.  It moves while the process
      sleeps and while a request is in flight; computation itself takes no
      time. *)

From Stdlib Require Import ZArith QArith Qround Qabs Qpower Reals Qreals Lqa Lra Lia.
From Stdlib Require Import Ascii String Sorting.Sorted.
From stdpp Require Import base strings list gmap.

Set Warnings "-register-all".
Local Open Scope string_scope.
Local Open Scope list_scope.

(** ** Python values, exceptions, outcomes *)

Module Py.

(** A [datetime]: timezone-aware or naive, microseconds since the epoch *)
Record datetime := { aware : bool; micros : Z }.

Inductive value :=
| VNone
| VBool (b : bool)
| VInt (z : Z)
| VFloat (q : Q)
| VStr (s : string)
| VList (l : list value)
| VDict (d : list (string * value))
| VDatetime (t : datetime).

Inductive exn :=
| KeyError (k : string)
| IndexError
| ValueError
| TypeError
| AttributeError
| ZeroDivisionError
| OverflowError
| CollaboratorError (msg : string).

Inductive result (A : Type) :=
| Ok (a : A)
| Raise (e : exn).
Arguments Ok {A} a.
Arguments Raise {A} e.

(** [x is None] *)
Definition is_none (v : value) : bool :=
  match v with VNone => true | _ => false end.

(** [bool(x)] *)
Definition truthy (v : value) : bool :=
  match v with
  | VNone => false
  | VBool b => b
  | VInt z => negb (Z.eqb z 0)
  | VFloat q => negb (Qeq_bool q 0)
  | VStr s => negb (String.eqb s "")
  | VList l => match l with [] => false | _ => true end
  | VDict d => match d with [] => false | _ => true end
  | VDatetime _ => true
  end.

(** The number a value stands for in arithmetic ([bool] is a subclass of
    [int]); [None] for the values on which arithmetic raises [TypeError]. *)
Definition as_number (v : value) : option Q :=
  match v with
  | VBool b => Some (if b then 1%Q else 0%Q)
  | VInt z => Some (inject_Z z)
  | VFloat q => Some q
  | _ => None
  end.

(** [x == 0] *)
Definition py_eq_zero (v : value) : bool :=
  match as_number v with
  | Some q => Qeq_bool q 0
  | None => false
  end.

(** [d.get(k)] and [k in d] on a nested dictionary *)
Fixpoint alist_lookup (k : string) (d : list (string * value)) : option value :=
  match d with
  | [] => None
  | (k', v) :: d' => if String.eqb k k' then Some v else alist_lookup k d'
  end.

(** [d[k] = v]: overwrite in place, or append a new key *)
Fixpoint alist_set (k : string) (v : value) (d : list (string * value))
  : list (string * value) :=
  match d with
  | [] => [(k, v)]
  | (k', v') :: d' =>
      if String.eqb k k' then (k, v) :: d' else (k', v') :: alist_set k v d'
  end.

(** [d.get(k, default)] on any value: [AttributeError] unless a dict *)
Definition dict_get (data : value) (k : string) (default : value) : result value :=
  match data with
  | VDict d => Ok (match alist_lookup k d with Some v => v | None => default end)
  | _ => Raise AttributeError
  end.

(** [s.replace('Z', '+00:00')] *)
Fixpoint replace_Z (s : string) : string :=
  match s with
  | EmptyString => EmptyString
  | String c s' =>
      if Ascii.eqb c "Z"%char
      then String.append "+00:00" (replace_Z s')
      else String c (replace_Z s')
  end.

(** [key.split('.')] *)
Fixpoint split_dot (s : string) : list string :=
  match s with
  | EmptyString => [EmptyString]
  | String c s' =>
      if Ascii.eqb c "."%char then EmptyString :: split_dot s'
      else match split_dot s' with
           | [] => [String c EmptyString]
           | w :: ws => String c w :: ws
           end
  end.

(** [a / b] on floats *)
Definition float_div (a b : R) : result R :=
  if Req_dec_T b 0 then Raise ZeroDivisionError else Ok (a / b)%R.

(** [n / d] with an integer numerator and a configuration value below *)
Definition py_truediv (n : Z) (d : value) : result R :=
  match as_number d with
  | None => Raise TypeError
  | Some q => if Qeq_bool q 0 then Raise ZeroDivisionError
              else Ok (IZR n / Q2R q)%R
  end.

(** [math.log(1 + x)] *)
Definition log1p_value (x : value) : result R :=
  match as_number x with
  | None => Raise TypeError
  | Some q => if Qlt_le_dec 0 (1 + q) then Ok (ln (Q2R (1 + q)))
              else Raise ValueError
  end.

(** [sorted(l, key=key, reverse=True)]: a stable sort, largest key first;
    elements with equal keys keep their input order. *)
Fixpoint insert_desc {A} (key : A -> R) (x : A) (l : list A) : list A :=
  match l with
  | [] => [x]
  | y :: l' =>
      if Rlt_dec (key x) (key y) then y :: insert_desc key x l'
      else x :: y :: l'
  end.

Definition sorted_reverse {A} (key : A -> R) (l : list A) : list A :=
  foldr (insert_desc key) [] l.

End Py.
Export Py.

(** ** [ConfigLoader] (src/utils/config_loader.py) *)

Module Config.

(** The body of the loop of [_deep_merge] for one [key, value] of the
    override: the merged sub-dictionary when both sides are dictionaries,
    the override's value otherwise.  [basev] is [result.get(key)]. *)
Fixpoint merge_value (basev : option value) (v : value) {struct v} : value :=
  match v with
  | VDict o =>
      match basev with
      | Some (VDict b) =>
          VDict ((fix loop (ov res : list (string * value)) {struct ov} :=
                    match ov with
                    | [] => res
                    | (k, v') :: rest =>
                        loop rest
                          (alist_set k (merge_value (alist_lookup k res) v') res)
                    end) o b)
      | _ => v
      end
  | _ => v
  end.

(** [_deep_merge(base, override)]: [result = base.copy()], then one
    assignment [result[key] = ...] per item of the override. *)
Definition _deep_merge (base override : list (string * value))
  : list (string * value) :=
  fold_left
    (fun res kv => alist_set kv.1 (merge_value (alist_lookup kv.1 res) kv.2) res)
    override base.

Definition _get_default_config : list (string * value) :=
  [ ("ranking",
      VDict [ ("weights",
                VDict [ ("relevance", VFloat (1 # 2));
                        ("recency", VFloat (3 # 10));
                        ("citations", VFloat (1 # 5)) ]);
              ("recency_decay_days", VInt 730) ]);
    ("models", VDict [ ("embedding_model", VStr "all-MiniLM-L6-v2") ]);
    ("citation",
      VDict [ ("enabled", VBool true);
              ("rate_limit_delay", VFloat (1 # 10));
              ("normalization_max_citations", VInt 1000) ]);
    ("data_collection",
      VDict [ ("max_results", VInt 100);
              ("default_sort", VStr "submitted_date");
              ("default_sort_order", VStr "descending") ]);
    ("processing",
      VDict [ ("process_metadata", VBool true);
              ("process_text", VBool true) ]) ].

(** What [load] finds at [config_path]: no file, a file that [open] or
    [yaml.safe_load] fails on, or a parsed YAML document. *)
Inductive config_file :=
| FileMissing
| FileUnreadable
| FileParsed (doc : value).

(** [load]: the resulting [self.config].  Every exception raised under the
    [try] is caught by [except Exception] and answered with the defaults,
    among them the [AttributeError] of [override.items()] when the document
    is not a mapping. *)
Definition load (f : config_file) : result (list (string * value)) :=
  match f with
  | FileMissing => Ok _get_default_config
  | FileUnreadable => Ok _get_default_config
  | FileParsed doc =>
      let user_config := if truthy doc then doc else VDict [] in
      match user_config with
      | VDict override => Ok (_deep_merge _get_default_config override)
      | _ => Ok _get_default_config
      end
  end.

(** The loop of [get] over the split key *)
Fixpoint get_path (keys : list string) (v default : value) : value :=
  match keys with
  | [] => v
  | k :: keys' =>
      match v with
      | VDict d =>
          match alist_lookup k d with
          | Some v' => get_path keys' v' default
          | None => default
          end
      | _ => default
      end
  end.

Definition get (config : list (string * value)) (key : string) (default : value)
  : value :=
  get_path (split_dot key) (VDict config) default.

Definition get_ranking_weights (config : list (string * value)) : value :=
  get config "ranking.weights"
    (VDict [ ("relevance", VFloat (1 # 2));
             ("recency", VFloat (3 # 10));
             ("citations", VFloat (1 # 5)) ]).

Definition is_citation_enabled (config : list (string * value)) : value :=
  get config "citation.enabled" (VBool true).

Definition get_citation_rate_limit (config : list (string * value)) : value :=
  get config "citation.rate_limit_delay" (VFloat (1 # 10)).

Definition get_max_citations_for_normalization (config : list (string * value))
  : value :=
  get config "citation.normalization_max_citations" (VInt 1000).

End Config.

(** ** The world around the engine *)

Inductive request :=
| ByDOI (doi : value)
| ByArxivId (arxiv_id : value)
| ByTitle (title : value).

(** What [requests.get] comes back with: a response with its status code
    and its body as [response.json()] reads it ([None]: not JSON), or an
    exception (timeout, transport failure). *)
Inductive http_outcome :=
| Response (status_code : Z) (json : option value)
| Failed.

Record reply := { outcome : http_outcome; latency : Q }.

Record Env := {
  (** [SentenceTransformer.encode] on one text *)
  encode : string -> result (list Q);
  (** [sklearn.metrics.pairwise.cosine_similarity] on two row vectors *)
  cosine_similarity : list Q -> list Q -> result R;
  (** [str(v)] for a value that is not a string *)
  py_repr : value -> string;
  (** [datetime.fromisoformat]; [None] stands for [ValueError] *)
  fromisoformat : string -> option datetime;
  (** [str.lower] *)
  str_lower : string -> string;
  (** the registry: its answer to the [n]-th request of the run *)
  http_get : nat -> request -> reply;
  (** by how much [time.sleep(secs)], entered at a clock reading, overruns *)
  sleep_overrun : Q -> Q -> Q
}.

Definition loc := nat.

Record State := {
  (** the article objects, by reference *)
  heap : loc -> gmap string value;
  (** [CitationFetcher.last_request_time] *)
  last_request_time : Q;
  (** the wall clock, seconds since the epoch *)
  clock : Q;
  (** the requests sent so far, oldest first, with the clock at sending *)
  calls : list (Q * request)
}.

Definition set_heap (h : loc -> gmap string value) (s : State) : State :=
  {| heap := h; last_request_time := last_request_time s;
     clock := clock s; calls := calls s |}.

Definition set_last_request_time (t : Q) (s : State) : State :=
  {| heap := heap s; last_request_time := t;
     clock := clock s; calls := calls s |}.

Definition set_clock (t : Q) (s : State) : State :=
  {| heap := heap s; last_request_time := last_request_time s;
     clock := t; calls := calls s |}.

Definition add_call (r : request) (s : State) : State :=
  {| heap := heap s; last_request_time := last_request_time s;
     clock := clock s; calls := calls s ++ [(clock s, r)] |}.

(** [article[k] = v] on the object at [l] *)
Definition store_field (l : loc) (k : string) (v : value) (s : State) : State :=
  set_heap (fun l' => if Nat.eqb l' l then <[k := v]> (heap s l) else heap s l') s.

(** ** Computations: state and exceptions *)

Definition M (A : Type) : Type := State -> result A * State.

Definition ret {A} (a : A) : M A := fun s => (Ok a, s).

Definition lift {A} (r : result A) : M A := fun s => (r, s).

Definition bind {A B} (m : M A) (k : A -> M B) : M B :=
  fun s => match m s with
           | (Ok a, s') => k a s'
           | (Raise e, s') => (Raise e, s')
           end.

Notation "x <- m ;; k" := (bind m (fun x => k))
  (at level 20, m at level 99, k at level 200, only parsing).

(** [try: m except <caught>: handler] *)
Definition try_except {A} (m : M A) (caught : exn -> bool) (handler : M A) : M A :=
  fun s => match m s with
           | (Ok a, s') => (Ok a, s')
           | (Raise e, s') => if caught e then handler s' else (Raise e, s')
           end.

(** [except Exception] *)
Definition any_exception (e : exn) : bool := true.

(** [except (ValueError, TypeError)] *)
Definition value_or_type_error (e : exn) : bool :=
  match e with ValueError | TypeError => true | _ => false end.

(** ** [CitationFetcher] (src/utils/citation_fetcher.py) *)

Module Fetcher.

Record CitationFetcher := { rate_limit_delay : Q }.

(** [time.time()] *)
Definition time_time : M Q := fun s => (Ok (clock s), s).

(** [time.sleep(secs)]: the clock moves on by [secs] and the overrun *)
Definition time_sleep (E : Env) (secs : Q) : M unit :=
  fun s => (Ok tt, set_clock (clock s + secs + sleep_overrun E (clock s) secs) s).

Definition _rate_limit (E : Env) (self : CitationFetcher) : M unit :=
  current_time <- time_time ;;
  last <- (fun s => (Ok (last_request_time s), s)) ;;
  let time_since_last := (current_time - last)%Q in
  done_ <- (if Qlt_le_dec time_since_last (rate_limit_delay self)
        then time_sleep E (rate_limit_delay self - time_since_last)
        else ret tt) ;;
  now <- time_time ;;
  fun s => (Ok tt, set_last_request_time now s).

(** [requests.get(url, params=params, timeout=5)]: the request is recorded
    with the clock at sending, the reply arrives [latency] later. *)
Definition requests_get (E : Env) (r : request) : M (Z * option value) :=
  fun s =>
    let rep := http_get E (List.length (calls s)) r in
    let s1 := add_call r s in
    let s2 := set_clock (clock s1 + latency rep) s1 in
    match outcome rep with
    | Response status_code body => (Ok (status_code, body), s2)
    | Failed => (Raise (CollaboratorError "requests"), s2)
    end.

(** [response.json()] *)
Definition response_json (body : option value) : result value :=
  match body with
  | Some data => Ok data
  | None => Raise ValueError
  end.

Definition _fetch_by_doi (E : Env) (self : CitationFetcher) (doi : value) : M value :=
  try_except
    (done_ <- _rate_limit E self ;;
     response <- requests_get E (ByDOI doi) ;;
     if Z.eqb response.1 200 then
       data <- lift (response_json response.2) ;;
       lift (dict_get data "citationCount" (VInt 0))
     else if Z.eqb response.1 404 then ret VNone
     else ret VNone)
    any_exception
    (ret VNone).

Definition _fetch_by_arxiv_id (E : Env) (self : CitationFetcher) (arxiv_id : value)
  : M value :=
  try_except
    (done_ <- _rate_limit E self ;;
     response <- requests_get E (ByArxivId arxiv_id) ;;
     if Z.eqb response.1 200 then
       data <- lift (response_json response.2) ;;
       lift (dict_get data "citationCount" (VInt 0))
     else if Z.eqb response.1 404 then ret VNone
     else ret VNone)
    any_exception
    (ret VNone).

(** [papers[0]] *)
Definition first_item (papers : value) : result value :=
  match papers with
  | VList (p :: _) => Ok p
  | VList [] => Raise IndexError
  | VStr (String c _) => Ok (VStr (String c EmptyString))
  | VStr EmptyString => Raise IndexError
  | VDict _ => Raise (KeyError "0")
  | _ => Raise TypeError
  end.

(** [v.lower()] *)
Definition lower (E : Env) (v : value) : result string :=
  match v with
  | VStr s => Ok (str_lower E s)
  | _ => Raise AttributeError
  end.

Definition _fetch_by_title (E : Env) (self : CitationFetcher) (title : value)
  : M value :=
  try_except
    (done_ <- _rate_limit E self ;;
     response <- requests_get E (ByTitle title) ;;
     if Z.eqb response.1 200 then
       data <- lift (response_json response.2) ;;
       papers <- lift (dict_get data "data" (VList [])) ;;
       if truthy papers then
         first_paper <- lift (first_item papers) ;;
         found <- lift (dict_get first_paper "title" (VStr "")) ;;
         found_lower <- lift (lower E found) ;;
         title_lower <- lift (lower E title) ;;
         if String.eqb found_lower title_lower
         then lift (dict_get first_paper "citationCount" (VInt 0))
         else ret VNone
       else ret VNone
     else ret VNone)
    any_exception
    (ret VNone).

(** [k in article and article[k]] as a condition *)
Definition has_truthy (article : gmap string value) (k : string) : option value :=
  match article !! k with
  | Some v => if truthy v then Some v else None
  | None => None
  end.

(** The three methods, tried in turn *)
Definition try_title (E : Env) (self : CitationFetcher)
  (article : gmap string value) : M value :=
  match has_truthy article "title" with
  | Some title => _fetch_by_title E self title
  | None => ret VNone
  end.

Definition try_arxiv_id (E : Env) (self : CitationFetcher)
  (article : gmap string value) : M value :=
  match has_truthy article "arxiv_id" with
  | Some arxiv_id =>
      citation_count <- _fetch_by_arxiv_id E self arxiv_id ;;
      if negb (is_none citation_count) then ret citation_count
      else try_title E self article
  | None => try_title E self article
  end.

Definition get_citation_count (E : Env) (self : CitationFetcher)
  (article : gmap string value) : M value :=
  match article !! "citation_count" with
  | Some (VNone) | None =>
      match has_truthy article "doi" with
      | Some doi =>
          citation_count <- _fetch_by_doi E self doi ;;
          if negb (is_none citation_count) then ret citation_count
          else try_arxiv_id E self article
      | None => try_arxiv_id E self article
      end
  | Some cached => ret cached
  end.

End Fetcher.
Export Fetcher.

(** ** [ArticleEmbeddingModel.predict] and [ArticleRanker] *)

Module Ranker.

Record ArticleRanker := {
  config : list (string * value);
  citation_fetcher : option CitationFetcher
}.

(** An interpolated field of an f-string *)
Definition py_format (E : Env) (v : value) : string :=
  match v with
  | VStr s => s
  | _ => py_repr E v
  end.

(** [predict] on one article: the text is the title and the abstract joined
    by a space, and the result is the encoder's vector for it. *)
Definition predict (E : Env) (article : gmap string value) : result (list Q) :=
  let title := default (VStr "") (article !! "title") in
  let abstract := default (VStr "") (article !! "abstract") in
  encode E (String.append (py_format E title)
              (String.append " " (py_format E abstract))).

Definition _calculate_relevance_score (E : Env) (self : ArticleRanker)
  (article : loc) (query : string) : M R :=
  query_embedding <-
    lift (predict E (<["title" := VStr query]> (<["abstract" := VStr ""]> ∅))) ;;
  fields <- (fun s => (Ok (heap s article), s)) ;;
  article_embedding <- lift (predict E fields) ;;
  lift (cosine_similarity E query_embedding article_embedding).

(** [datetime.utcnow()]: naive *)
Definition utcnow : M datetime :=
  fun s => (Ok {| aware := false; micros := Qfloor (clock s * 1000000) |}, s).

(** [(now - pub_date)], in microseconds: [TypeError] when one side is
    timezone-aware and the other is not. *)
Definition datetime_sub (now pub_date : datetime) : result Z :=
  if Bool.eqb (aware now) (aware pub_date)
  then Ok (micros now - micros pub_date)%Z
  else Raise TypeError.

(** [np.exp(-days_old / decay_days)] *)
Definition recency (days_old : Z) (decay_days : value) : result R :=
  match py_truediv (- days_old) decay_days with
  | Ok x => Ok (exp x)
  | Raise e => Raise e
  end.

Definition _calculate_recency_score (E : Env) (self : ArticleRanker)
  (article : loc) : M R :=
  fields <- (fun s => (Ok (heap s article), s)) ;;
  match fields !! "published" with
  | None => ret 0%R
  | Some published =>
      try_except
        (text <- lift (match published with
                       | VStr p => Ok (replace_Z p)
                       | VDatetime _ => Raise TypeError
                       | _ => Raise AttributeError
                       end) ;;
         pub_date <- lift (match fromisoformat E text with
                           | Some d => Ok d
                           | None => Raise ValueError
                           end) ;;
         now <- utcnow ;;
         delta <- lift (datetime_sub now pub_date) ;;
         let days_old := (delta `div` 86400000000)%Z in
         let decay_days :=
           Config.get (config self) "ranking.recency_decay_days" (VInt 730) in
         lift (recency days_old decay_days))
        value_or_type_error
        (ret 0%R)
  end.

(** The tail of [_calculate_citation_score], from the resolved count on:
    [0.0] for no count or a zero count, otherwise
    [min(1.0, max(0.0, log(1 + count) / log(1 + max_citations)))]. *)
Definition authority (citation_count max_citations : value) : result R :=
  if is_none citation_count || py_eq_zero citation_count then Ok 0%R
  else
    match log1p_value citation_count with
    | Raise e => Raise e
    | Ok a =>
        match log1p_value max_citations with
        | Raise e => Raise e
        | Ok b =>
            match float_div a b with
            | Raise e => Raise e
            | Ok normalized => Ok (Rmin 1 (Rmax 0 normalized))
            end
        end
    end.

Definition _calculate_citation_score (E : Env) (self : ArticleRanker)
  (article : loc) : M R :=
  match citation_fetcher self with
  | Some fetcher =>
      if negb (truthy (Config.is_citation_enabled (config self))) then ret 0%R
      else
        fields <- (fun s => (Ok (heap s article), s)) ;;
        let cached := default VNone (fields !! "citation_count") in
        citation_count <-
          (if is_none cached then
             fetched <- get_citation_count E fetcher fields ;;
             if negb (is_none fetched)
             then fun s => (Ok fetched, store_field article "citation_count" fetched s)
             else ret fetched
           else ret cached) ;;
        lift (authority citation_count
                (Config.get_max_citations_for_normalization (config self)))
  | None => ret 0%R
  end.

(** [sum(scores[factor] * weight for factor, weight in weights.items())],
    from the running total [acc] on *)
Fixpoint weighted_sum (scores : gmap string R) (items : list (string * value))
  (acc : R) : result R :=
  match items with
  | [] => Ok acc
  | (factor, weight) :: rest =>
      match scores !! factor with
      | None => Raise (KeyError factor)
      | Some score =>
          match as_number weight with
          | None => Raise TypeError
          | Some w => weighted_sum scores rest (acc + score * Q2R w)%R
          end
      end
  end.

(** [weights.items()] *)
Definition items (weights : value) : result (list (string * value)) :=
  match weights with
  | VDict d => Ok d
  | _ => Raise AttributeError
  end.

(** The dictionary [scores] that [_calculate_score] fills before it sums *)
Definition scores_of (E : Env) (self : ArticleRanker)
  (article : loc) (query : option string) : M (gmap string R) :=
  relevance <- (match query with
                | Some q => if String.eqb q "" then ret 0%R
                            else _calculate_relevance_score E self article q
                | None => ret 0%R
                end) ;;
  recency_score <- _calculate_recency_score E self article ;;
  citations <- _calculate_citation_score E self article ;;
  ret (<["citations" := citations]>
         (<["recency" := recency_score]> (<["relevance" := relevance]> ∅))).

Definition _calculate_score (E : Env) (self : ArticleRanker)
  (article : loc) (query : option string) (weights : value) : M R :=
  scores <- scores_of E self article query ;;
  pairs <- lift (items weights) ;;
  lift (weighted_sum scores pairs 0%R).

(** The [for] loop of [rank_articles] *)
Fixpoint scored_articles (E : Env) (self : ArticleRanker)
  (articles : list loc) (query : option string) (weights : value)
  : M (list (loc * R)) :=
  match articles with
  | [] => ret []
  | article :: rest =>
      score <- _calculate_score E self article query weights ;;
      tail <- scored_articles E self rest query weights ;;
      ret ((article, score) :: tail)
  end.

Definition rank_articles (E : Env) (self : ArticleRanker)
  (articles : list loc) (query : option string) (weights : value)
  : M (list (loc * R)) :=
  match articles with
  | [] => ret []
  | _ =>
      let weights :=
        if truthy weights then weights
        else Config.get_ranking_weights (config self) in
      scored <- scored_articles E self articles query weights ;;
      ret (sorted_reverse snd scored)
  end.

End Ranker.
Export Ranker.

(** ** Vocabulary of the statements *)

(** The state in which a lookup's request has just been answered: the rate
    limiter has run from [s], then the request was sent and its reply read. *)
Definition after_request (E : Env) (self : CitationFetcher) (r : request)
  (s : State) : State :=
  (requests_get E r (_rate_limit E self s).2).2.

(** The clock at which that request goes out *)
Definition sent_at (E : Env) (self : CitationFetcher) (s : State) : Q :=
  clock (_rate_limit E self s).2.

(** An article that carries a cached, non-null citation count *)
Definition cached_count (article : gmap string value) : option value :=
  match article !! "citation_count" with
  | Some VNone | None => None
  | Some c => Some c
  end.

(** [for article in articles: self.get_citation_count(article)]: consecutive
    lookups through one client, as the tests of the fetcher run them. *)
Fixpoint lookups (E : Env) (self : CitationFetcher)
  (articles : list (gmap string value)) : M (list value) :=
  match articles with
  | [] => ret []
  | article :: rest =>
      found <- get_citation_count E self article ;;
      others <- lookups E self rest ;;
      ret (found :: others)
  end.

(** Successive entries of a list of sending times are at least [r] apart *)
Definition spaced (r : Q) (ts : list Q) : Prop :=
  forall (i : nat) (t1 t2 : Q),
    ts !! i = Some t1 -> ts !! S i = Some t2 -> (t1 + r <= t2)%Q.

(** The invariant of one client, started no earlier than [t0]: its requests
    so far are spaced, the latest one went out no later than
    [last_request_time], and every request lies between [t0] and now. *)
Definition paced (r t0 : Q) (s : State) : Prop :=
  spaced r (calls s).*1 /\
  (forall t, last (calls s).*1 = Some t -> (t <= last_request_time s)%Q) /\
  (forall t, t ∈ (calls s).*1 -> (t0 <= t /\ t <= clock s)%Q) /\
  (t0 <= clock s)%Q.

(** [s'] is reached from [s] by sending the requests [rs], one lookup each *)
Inductive requests_from (E : Env) (self : CitationFetcher)
  : State -> list request -> State -> Prop :=
| requests_none s : requests_from E self s [] s
| requests_next s r rs s' :
    requests_from E self (after_request E self r s) rs s' ->
    requests_from E self s (r :: rs) s'.

(** The environment lets time pass: sleeping never returns early and a
    reply never arrives before its request. *)
Definition time_passes (E : Env) : Prop :=
  (forall c secs, (0 <= sleep_overrun E c secs)%Q) /\
  (forall n r, (0 <= latency (http_get E n r))%Q).

(** The three signals that [_calculate_score] computes *)
Definition signals : list string := ["relevance"; "recency"; "citations"].








(** Largest key first *)
Definition descending {A} (key : A -> R) (x y : A) : Prop := (key y <= key x)%R.

(** Whether an element has the key [t] *)
Definition has_key {A} (key : A -> R) (t : R) (x : A) : bool :=
  if Req_dec_T (key x) t then true else false.

(** From [s] to [s'] the store changed at most by filling the count cache of
    documents among [ls]: any other field of any object is as before, and a
    [citation_count] that differs was absent or [None] and is now a value
    other than [None]. *)
Definition cache_filled (ls : list loc) (s s' : State) : Prop :=
  forall (l : loc) (k : string),
    heap s' l !! k = heap s l !! k \/
    (l ∈ ls /\ k = "citation_count" /\ cached_count (heap s l) = None /\
     exists c, is_none c = false /\ heap s' l !! k = Some c).

(** The whole days between a naive timestamp and the clock of a state *)
Definition age_in_days (s : State) (pub_date : datetime) : Z :=
  ((Qfloor (clock s * 1000000) - micros pub_date) `div` 86400000000)%Z.

(** The weights a ranking call works with: the argument when it is truthy,
    the configured weights otherwise. *)
Definition effective_weights (self : ArticleRanker) (weights : value) : value :=
  if truthy weights then weights else Config.get_ranking_weights (config self).

(** ** Sample worlds *)

Module Sample.

(** A registry that knows every DOI, with 42 citations, and nothing else;
    an encoder that answers every text. *)
Definition registry (n : nat) (r : request) : reply :=
  match r with
  | ByDOI _ =>
      {| outcome := Response 200 (Some (VDict [("citationCount", VInt 42)]));
         latency := 1 # 20 |}
  | _ => {| outcome := Response 404 None; latency := 1 # 20 |}
  end.

Definition env : Env :=
  {| encode := fun _ => Ok [1%Q; 0%Q];
     cosine_similarity := fun _ _ => Ok 1%R;
     py_repr := fun _ => "None";
     fromisoformat := fun _ => None;
     str_lower := fun t => t;
     http_get := registry;
     sleep_overrun := fun _ _ => 0%Q |}.

(** The same world with the encoder out of service *)
Definition env_encoder_down : Env :=
  {| encode := fun _ => Raise (CollaboratorError "encode");
     cosine_similarity := cosine_similarity env;
     py_repr := py_repr env;
     fromisoformat := fromisoformat env;
     str_lower := str_lower env;
     http_get := http_get env;
     sleep_overrun := sleep_overrun env |}.

(** The same world with a date parser that reads every string as the epoch *)
Definition env_dates : Env :=
  {| encode := encode env;
     cosine_similarity := cosine_similarity env;
     py_repr := py_repr env;
     fromisoformat := fun _ => Some {| aware := false; micros := 0 |};
     str_lower := str_lower env;
     http_get := http_get env;
     sleep_overrun := sleep_overrun env |}.

Definition fetcher : CitationFetcher := {| rate_limit_delay := 1 # 10 |}.

Definition ranker : ArticleRanker :=
  {| config := Config._get_default_config; citation_fetcher := Some fetcher |}.

Definition paper_a : gmap string value :=
  <["title" := VStr "A"]> (<["published" := VStr "yesterday"]> ∅).

Definition paper_b : gmap string value :=
  <["title" := VStr "B"]>
    (<["doi" := VStr "10.1000/b"]> (<["arxiv_id" := VStr "1706.03762"]> ∅)).

Definition paper_c : gmap string value :=
  <["title" := VStr "C"]> (<["citation_count" := VInt 7]> ∅).

(** Three article objects at the references 0, 1 and 2 *)
Definition state : State :=
  {| heap := fun l => match l with
                      | O => paper_a
                      | S O => paper_b
                      | S (S O) => paper_c
                      | _ => ∅
                      end;
     last_request_time := 0;
     clock := 1700000000;
     calls := [] |}.

Definition weights : list (string * value) :=
  [("recency", VInt 1); ("citations", VFloat (1 # 2))].


(** A configuration file that sets the decay constant to zero *)
Definition yaml_zero_decay : value :=
  VDict [("ranking", VDict [("recency_decay_days", VInt 0)])].

(** A configuration file that sets a negative decay constant *)
Definition yaml_negative_decay : value :=
  VDict [("ranking", VDict [("recency_decay_days", VInt (-30))])].

End Sample.

(** ** Further vocabulary *)


(** The environment [E] with another embedding collaborator *)
Definition with_embedding (enc : string -> result (list Q))
  (cos : list Q -> list Q -> result R) (E : Env) : Env :=
  {| encode := enc;
     cosine_similarity := cos;
     py_repr := py_repr E;
     fromisoformat := fromisoformat E;
     str_lower := str_lower E;
     http_get := http_get E;
     sleep_overrun := sleep_overrun E |}.

(** More sample worlds *)
Module Sample2.

(** A registry whose title search finds one paper, with 3 citations *)
Definition registry_by_title (n : nat) (r : request) : reply :=
  match r with
  | ByTitle _ =>
      {| outcome :=
           Response 200
             (Some (VDict [("data",
                            VList [VDict [("title", VStr "Attention");
                                          ("citationCount", VInt 3)]])]));
         latency := 0 |}
  | _ => {| outcome := Response 404 None; latency := 0 |}
  end.

Definition env_titles : Env :=
  {| encode := encode Sample.env;
     cosine_similarity := cosine_similarity Sample.env;
     py_repr := py_repr Sample.env;
     fromisoformat := fromisoformat Sample.env;
     str_lower := str_lower Sample.env;
     http_get := registry_by_title;
     sleep_overrun := sleep_overrun Sample.env |}.

(** A document whose publication date is [None], at every reference *)
Definition state_null_date : State :=
  {| heap := fun _ => <["title" := VStr "D"]> (<["published" := VNone]> ∅);
     last_request_time := 0;
     clock := 1700000000;
     calls := [] |}.

(** A ranker whose decay constant is the text "two years" *)
Definition ranker_text_decay : ArticleRanker :=
  {| config :=
       [("ranking", VDict [("recency_decay_days", VStr "two years")])];
     citation_fetcher := None |}.

End Sample2.

(** ** The command line, the metadata processor and the pipeline
       (src/pipeline.py, src/data_processors/metadata_processor.py) *)

(** Library code these use, besides that of [Env]: [str.split()] on
    whitespace, [str.strip()], [float(text)] ([None] stands for
    [ValueError]), [datetime.isoformat()], and [TextProcessor.process],
    which runs the NLTK tokenizers. *)
Record Lib := {
  str_split_ws : string -> list string;
  str_strip : string -> string;
  float_of_str : string -> option Q;
  isoformat : datetime -> string;
  text_process : value -> result value
}.

Module Cli.

(** [text.split(sep)] for a separator of one character *)
Fixpoint split_char (sep : ascii) (text : string) : list string :=
  match text with
  | EmptyString => [EmptyString]
  | String c text' =>
      if Ascii.eqb c sep then EmptyString :: split_char sep text'
      else match split_char sep text' with
           | [] => [String c EmptyString]
           | w :: ws => String c w :: ws
           end
  end.

(** The loop of [main] over the pairs of [--weights], from the dictionary
    built so far: [key, value = pair.split(':')] raises [ValueError] unless
    the pair has exactly one colon, and so does [float] on a text that is no
    number. *)
Fixpoint parse_pairs (L : Lib) (pairs : list string)
  (weights : list (string * value)) : result (list (string * value)) :=
  match pairs with
  | [] => Ok weights
  | item :: rest =>
      match split_char ":" item with
      | [key; value] =>
          match float_of_str L (str_strip L value) with
          | Some q =>
              parse_pairs L rest (alist_set (str_strip L key) (VFloat q) weights)
          | None => Raise ValueError
          end
      | _ => Raise ValueError
      end
  end.

(** Lines 208-213 of [main]: the weights handed to the pipeline, [None]
    when the option is absent or empty. *)
Definition parse_weights (L : Lib) (arg : option string) : result value :=
  match arg with
  | None => Ok VNone
  | Some text =>
      if String.eqb text "" then Ok VNone
      else match parse_pairs L (split_char "," text) [] with
           | Ok weights => Ok (VDict weights)
           | Raise e => Raise e
           end
  end.

End Cli.

Module Metadata.

(** [for x in v]: the items a value yields when iterated *)
Definition py_iter (v : value) : result (list value) :=
  match v with
  | VList l => Ok l
  | VStr text =>
      Ok (map (fun c => VStr (String c EmptyString)) (list_ascii_of_string text))
  | VDict d => Ok (map (fun kv => VStr kv.1) d)
  | _ => Raise TypeError
  end.

(** A list comprehension or an appending loop: the first item that raises
    ends it. *)
Fixpoint each (f : value -> result value) (items : list value)
  : result (list value) :=
  match items with
  | [] => Ok []
  | x :: rest =>
      match f x with
      | Raise e => Raise e
      | Ok y =>
          match each f rest with
          | Raise e => Raise e
          | Ok ys => Ok (y :: ys)
          end
      end
  end.

(** [' '.join(parts)] *)
Fixpoint join_space (parts : list string) : string :=
  match parts with
  | [] => EmptyString
  | [w] => w
  | w :: rest => String.append w (String " " (join_space rest))
  end.

(** [parts[1:-1]] *)
Definition middle (parts : list string) : list string :=
  removelast (tl parts).

(** The body of the loop of [_process_authors] *)
Definition processed_author (L : Lib) (author : value) : result value :=
  match author with
  | VStr name =>
      let parts := str_split_ws L name in
      Ok (VDict
            [ ("full_name", VStr name);
              ("first_name", VStr (hd EmptyString parts));
              ("last_name",
                VStr (if (1 <? List.length parts)%nat
                      then List.last parts EmptyString else EmptyString));
              ("middle_names",
                VStr (if (2 <? List.length parts)%nat
                      then join_space (middle parts) else EmptyString)) ])
  | _ => Raise AttributeError
  end.

Definition _process_authors (L : Lib) (authors : value) : result value :=
  match py_iter authors with
  | Raise e => Raise e
  | Ok items =>
      match each (processed_author L) items with
      | Raise e => Raise e
      | Ok processed_authors => Ok (VList processed_authors)
      end
  end.

(** [_process_date]: a string that parses is rewritten in ISO format;
    anything else is returned as it is. *)
Definition _process_date (E : Env) (L : Lib) (date_str : value) : value :=
  match date_str with
  | VStr text =>
      match fromisoformat E (replace_Z text) with
      | Some dt => VStr (isoformat L dt)
      | None => date_str
      end
  | _ => date_str
  end.

Definition _process_categories (E : Env) (L : Lib) (categories : value)
  : result value :=
  match py_iter categories with
  | Raise e => Raise e
  | Ok items =>
      match each (fun cat => match cat with
                             | VStr c => Ok (VStr (str_lower E (str_strip L c)))
                             | _ => Raise AttributeError
                             end) items with
      | Raise e => Raise e
      | Ok cats => Ok (VList cats)
      end
  end.

(** [validate_input] on a dictionary *)
Definition validate_input (metadata : gmap string value) : bool :=
  (0 <? size metadata)%nat.

(** [process]: works on a copy, at the clock of [s] *)
Definition process (E : Env) (L : Lib) (metadata : gmap string value)
  (s : State) : result (gmap string value) :=
  if negb (validate_input metadata) then Raise ValueError
  else
    let processed := metadata in
    match (match processed !! "authors" with
           | Some authors =>
               match _process_authors L authors with
               | Ok a => Ok (<["authors" := a]> processed)
               | Raise e => Raise e
               end
           | None => Ok processed
           end) with
    | Raise e => Raise e
    | Ok processed =>
        let processed :=
          match processed !! "published" with
          | Some d => <["published" := _process_date E L d]> processed
          | None => processed
          end in
        let processed :=
          match processed !! "updated" with
          | Some d => <["updated" := _process_date E L d]> processed
          | None => processed
          end in
        match (match processed !! "categories" with
               | Some categories =>
                   match _process_categories E L categories with
                   | Ok c => Ok (<["categories" := c]> processed)
                   | Raise e => Raise e
                   end
               | None => Ok processed
               end) with
        | Raise e => Raise e
        | Ok processed =>
            Ok (<["processed_at" :=
                    VStr (isoformat L
                            {| aware := false;
                               micros := Qfloor (clock s * 1000000) |})]>
                  processed)
        end
    end.

End Metadata.

Module Pipeline.

(** The body of the loop of [search_and_rank] for one article: what is
    appended to [processed_articles], in the [try] or in the [except]. *)
Definition processed_article (E : Env) (L : Lib)
  (process_metadata process_text : value) (article : gmap string value)
  (s : State) : gmap string value :=
  match (if truthy process_metadata then Metadata.process E L article s
         else Ok article) with
  | Raise _ => article
  | Ok article =>
      if truthy process_text then
        match article !! "abstract" with
        | Some abstract =>
            match text_process L abstract with
            | Ok text_result => <["processed_text" := text_result]> article
            | Raise _ => article
            end
        | None => article
        end
      else article
  end.

(** The loop of [search_and_rank] (lines 78-95) *)
Fixpoint processing_loop (E : Env) (L : Lib)
  (process_metadata process_text : value)
  (articles processed_articles : list (gmap string value)) (s : State)
  : list (gmap string value) :=
  match articles with
  | [] => processed_articles
  | article :: rest =>
      processing_loop E L process_metadata process_text rest
        (processed_articles
           ++ [processed_article E L process_metadata process_text article s])
        s
  end.

End Pipeline.

(** A sample library: whitespace is the space character *)
Module Sample3.

Definition lib : Lib :=
  {| str_split_ws := fun t => List.filter (fun w => negb (String.eqb w ""))
                                (Cli.split_char " " t);
     str_strip := fun t => t;
     float_of_str := fun t => if String.eqb t "0.5" then Some (1 # 2)
                              else if String.eqb t "1" then Some 1%Q
                              else None;
     isoformat := fun _ => "1970-01-01T00:00:00";
     text_process := fun _ => Raise ValueError |}.

Definition paper : gmap string value :=
  <["title" := VStr "A"]>
    (<["authors" := VList [VStr "Ada Lovelace"]]>
       (<["abstract" := VStr "On engines."]> ∅)).

Definition processed_paper : gmap string value :=
  <["processed_at" := VStr "1970-01-01T00:00:00"]>
    (<["authors" :=
         VList [VDict [ ("full_name", VStr "Ada Lovelace");
                        ("first_name", VStr "Ada");
                        ("last_name", VStr "Lovelace");
                        ("middle_names", VStr "") ]]]> paper).

End Sample3.

(** How often a character occurs in a text *)
Fixpoint occurrences (c : ascii) (text : string) : nat :=
  match text with
  | EmptyString => 0
  | String c' text' =>
      (if Ascii.eqb c' c then 1 else 0) + occurrences c text'
  end.

(** ** Vocabulary for the metadata processor *)

(** The field [k] of a dictionary is absent or a list of strings *)
Definition strings_or_absent (k : string) (m : gmap string value) : Prop :=
  forall v, m !! k = Some v ->
    exists names : list string, v = VList (VStr <$> names).

(** The fields [MetadataProcessor.process] assigns *)
Definition processed_fields : list string :=
  ["authors"; "published"; "updated"; "categories"; "processed_at"].

(** Every key of [a] is a key of [b] *)
Definition keeps_keys (a b : gmap string value) : Prop :=
  forall k, is_Some (a !! k) -> is_Some (b !! k).

(** ** The scores on IEEE doubles

    The definitions of [Ranker] give every score its exact value.  The
    program computes on binary64 doubles: a quotient and a product are
    rounded, [np.exp] overflows to [inf] and underflows to [0.0], and
    [inf * 0] is NaN, which no comparison orders.  [Double] is the same code
    with that arithmetic.

    - A double is a finite rational, an infinity or NaN.  The sign of a zero
      is not tracked: the code never divides by a score and never prints
      one.
    - [round] is rounding to nearest, ties to even, with 53 bits of
      precision, gradual underflow below [2^-1022] and overflow to infinity
      from [2^1024 - 2^970] on.
    - A [VFloat q] stands for the double that the literal [q] denotes,
      [round q].
    - [np.exp], [math.log] and the cosine similarity are code of libraries:
      fields of [Numerics]. *)

Module Double.

Inductive float :=
| Finite (q : Q)
| PosInf
| NegInf
| NaN.

Definition pow2 (e : Z) : Q := (2 ^ e)%Q.

(** The integer nearest to [x], the even one of two that are equally near *)
Definition nearest_even (x : Q) : Z :=
  let n := Qfloor x in
  match (x - inject_Z n ?= 1 # 2)%Q with
  | Lt => n
  | Gt => (n + 1)%Z
  | Eq => if Z.even n then n else (n + 1)%Z
  end.

(** For [q > 0], the exponent [e] with [2^e <= q < 2^(e+1)] *)
Definition binade (q : Q) : Z :=
  let e := (Z.log2 (Qnum q) - Z.log2 (Zpos (Qden q)))%Z in
  if Qle_bool (pow2 e) q then e else (e - 1)%Z.

(** For [q > 0], the exponent of the unit in the last place of the doubles
    around [q]: 53 bits, and [2^-1074] for the subnormal ones *)
Definition ulp_exp (q : Q) : Z := Z.max (binade q - 52) (-1074).

(** The multiple of [2^u] nearest to [q] *)
Definition grid (u : Z) (q : Q) : Q :=
  inject_Z (nearest_even (q / pow2 u)) * pow2 u.

(** A number from [2^1024] on, in either direction, is an infinity *)
Definition classify (r : Q) : float :=
  if Qle_bool (pow2 1024) r then PosInf
  else if Qle_bool r (- pow2 1024) then NegInf
  else Finite (Qred r).

(** Rounding: the magnitude is rounded on the grid of its binade *)
Definition rounded (q : Q) : Q :=
  if Qle_bool 0 q then grid (ulp_exp (Qabs q)) (Qabs q)
  else - grid (ulp_exp (Qabs q)) (Qabs q).

Definition round (q : Q) : float := classify (rounded q).

Definition zero : float := Finite 0.
Definition one : float := Finite 1.

(** [a < b], [a <= b] and [a == b] on floats: false when one side is NaN *)
Definition flt (a b : float) : bool :=
  match a, b with
  | NaN, _ | _, NaN => false
  | _, NegInf | PosInf, _ => false
  | NegInf, _ | _, PosInf => true
  | Finite x, Finite y => negb (Qle_bool y x)
  end.

Definition fle (a b : float) : bool :=
  match a, b with
  | NaN, _ | _, NaN => false
  | NegInf, _ | _, PosInf => true
  | _, NegInf | PosInf, _ => false
  | Finite x, Finite y => Qle_bool x y
  end.

Definition feq (a b : float) : bool := fle a b && fle b a.

Definition is_nan (a : float) : bool :=
  match a with NaN => true | _ => false end.

(** The infinity with the sign of [x * y], for [x] not zero *)
Definition signed_inf (x : Q) (positive : bool) : float :=
  if Qeq_bool x 0 then NaN
  else if Bool.eqb (Qle_bool 0 x) positive then PosInf else NegInf.

(** [a + b] *)
Definition fadd (a b : float) : float :=
  match a, b with
  | NaN, _ | _, NaN => NaN
  | PosInf, NegInf | NegInf, PosInf => NaN
  | PosInf, _ | _, PosInf => PosInf
  | NegInf, _ | _, NegInf => NegInf
  | Finite x, Finite y => round (x + y)
  end.

(** [a * b]: an infinity times zero is NaN *)
Definition fmul (a b : float) : float :=
  match a, b with
  | NaN, _ | _, NaN => NaN
  | Finite x, Finite y => round (x * y)
  | Finite x, PosInf | PosInf, Finite x => signed_inf x true
  | Finite x, NegInf | NegInf, Finite x => signed_inf x false
  | PosInf, PosInf | NegInf, NegInf => PosInf
  | PosInf, NegInf | NegInf, PosInf => NegInf
  end.

(** [a / b]: Python raises on a zero divisor, whatever the dividend; an
    overflowing quotient is an infinity. *)
Definition fdiv (a b : float) : result float :=
  match b with
  | NaN => Ok NaN
  | Finite y =>
      if Qeq_bool y 0 then Raise ZeroDivisionError
      else match a with
           | NaN => Ok NaN
           | Finite x => Ok (round (x / y))
           | PosInf => Ok (signed_inf y true)
           | NegInf => Ok (signed_inf y false)
           end
  | PosInf | NegInf =>
      match a with
      | Finite _ => Ok zero
      | _ => Ok NaN
      end
  end.

(** [float(n)] for an integer: [OverflowError] beyond the doubles *)
Definition of_int (n : Z) : result float :=
  match round (inject_Z n) with
  | Finite q => Ok (Finite q)
  | _ => Raise OverflowError
  end.

(** [n / d] for integers, rounded once; [OverflowError] when the quotient is
    beyond the doubles *)
Definition int_truediv (n d : Z) : result float :=
  if (d =? 0)%Z then Raise ZeroDivisionError
  else match round (inject_Z n / inject_Z d) with
       | Finite q => Ok (Finite q)
       | _ => Raise OverflowError
       end.

(** [n / d] with an integer numerator and a configuration value below *)
Definition py_truediv (n : Z) (d : value) : result float :=
  match d with
  | VBool b => int_truediv n (if b then 1 else 0)
  | VInt z => int_truediv n z
  | VFloat q =>
      match of_int n with
      | Raise e => Raise e
      | Ok x => fdiv x (round q)
      end
  | _ => Raise TypeError
  end.

(** [score * weight] for a float score *)
Definition times (score : float) (weight : value) : result float :=
  match weight with
  | VBool b => Ok (fmul score (if b then one else zero))
  | VInt z =>
      match of_int z with
      | Raise e => Raise e
      | Ok w => Ok (fmul score w)
      end
  | VFloat q => Ok (fmul score (round q))
  | _ => Raise TypeError
  end.

(** [x == 0] *)
Definition py_eq_zero (v : value) : bool :=
  match v with
  | VBool b => negb b
  | VInt z => (z =? 0)%Z
  | VFloat q => feq (round q) zero
  | _ => false
  end.

(** [max(a, b)] and [min(a, b)]: the first argument unless the second is
    strictly beyond it, so that a NaN in second place is dropped. *)
Definition py_max (a b : float) : float := if flt a b then b else a.
Definition py_min (a b : float) : float := if flt b a then b else a.

(** Library code on doubles *)
Record Numerics := {
  (** [np.exp] *)
  np_exp : float -> float;
  (** [math.log] on a positive number, an integer of any size or a finite
      float *)
  math_log : Q -> float;
  (** [float(cosine_similarity(u, v)[0][0])] *)
  cosine : list Q -> list Q -> result float
}.

(** [math.log(1 + x)] *)
Definition log1p_value (N : Numerics) (x : value) : result float :=
  let of_integer (n : Z) :=
    if (0 <? n)%Z then Ok (math_log N (inject_Z n)) else Raise ValueError in
  match x with
  | VBool b => of_integer (1 + (if b then 1 else 0))%Z
  | VInt z => of_integer (1 + z)%Z
  | VFloat q =>
      match fadd one (round q) with
      | Finite y => if Qle_bool y 0 then Raise ValueError
                    else Ok (math_log N y)
      | PosInf => Ok PosInf
      | NegInf => Raise ValueError
      | NaN => Ok NaN
      end
  | _ => Raise TypeError
  end.

(** [np.exp(-days_old / decay_days)] *)
Definition recency (N : Numerics) (days_old : Z) (decay_days : value)
  : result float :=
  match py_truediv (- days_old) decay_days with
  | Ok x => Ok (np_exp N x)
  | Raise e => Raise e
  end.

Definition _calculate_recency_score (E : Env) (N : Numerics)
  (self : ArticleRanker) (article : loc) : M float :=
  fields <- (fun s => (Ok (heap s article), s)) ;;
  match fields !! "published" with
  | None => ret zero
  | Some published =>
      try_except
        (text <- lift (match published with
                       | VStr p => Ok (replace_Z p)
                       | VDatetime _ => Raise TypeError
                       | _ => Raise AttributeError
                       end) ;;
         pub_date <- lift (match fromisoformat E text with
                           | Some d => Ok d
                           | None => Raise ValueError
                           end) ;;
         now <- utcnow ;;
         delta <- lift (datetime_sub now pub_date) ;;
         let days_old := (delta `div` 86400000000)%Z in
         let decay_days :=
           Config.get (config self) "ranking.recency_decay_days" (VInt 730) in
         lift (recency N days_old decay_days))
        value_or_type_error
        (ret zero)
  end.

Definition _calculate_relevance_score (E : Env) (N : Numerics)
  (self : ArticleRanker) (article : loc) (query : string) : M float :=
  query_embedding <-
    lift (predict E (<["title" := VStr query]> (<["abstract" := VStr ""]> ∅))) ;;
  fields <- (fun s => (Ok (heap s article), s)) ;;
  article_embedding <- lift (predict E fields) ;;
  lift (cosine N query_embedding article_embedding).

(** The tail of [_calculate_citation_score], from the resolved count on *)
Definition authority (N : Numerics) (citation_count max_citations : value)
  : result float :=
  if is_none citation_count || py_eq_zero citation_count then Ok zero
  else
    match log1p_value N citation_count with
    | Raise e => Raise e
    | Ok a =>
        match log1p_value N max_citations with
        | Raise e => Raise e
        | Ok b =>
            match fdiv a b with
            | Raise e => Raise e
            | Ok normalized => Ok (py_min one (py_max zero normalized))
            end
        end
    end.

Definition _calculate_citation_score (E : Env) (N : Numerics)
  (self : ArticleRanker) (article : loc) : M float :=
  match citation_fetcher self with
  | Some fetcher =>
      if negb (truthy (Config.is_citation_enabled (config self))) then ret zero
      else
        fields <- (fun s => (Ok (heap s article), s)) ;;
        let cached := default VNone (fields !! "citation_count") in
        citation_count <-
          (if is_none cached then
             fetched <- get_citation_count E fetcher fields ;;
             if negb (is_none fetched)
             then fun s => (Ok fetched, store_field article "citation_count" fetched s)
             else ret fetched
           else ret cached) ;;
        lift (authority N citation_count
                (Config.get_max_citations_for_normalization (config self)))
  | None => ret zero
  end.

(** [sum(scores[factor] * weight for factor, weight in weights.items())],
    from the running total [acc] on, added from left to right.  (From
    CPython 3.12 on [sum] carries a compensation term, which can change the
    last bit of a finite total and nothing else.) *)
Fixpoint weighted_sum (scores : gmap string float) (items : list (string * value))
  (acc : float) : result float :=
  match items with
  | [] => Ok acc
  | (factor, weight) :: rest =>
      match scores !! factor with
      | None => Raise (KeyError factor)
      | Some score =>
          match times score weight with
          | Raise e => Raise e
          | Ok term => weighted_sum scores rest (fadd acc term)
          end
      end
  end.

Definition scores_of (E : Env) (N : Numerics) (self : ArticleRanker)
  (article : loc) (query : option string) : M (gmap string float) :=
  relevance <- (match query with
                | Some q => if String.eqb q "" then ret zero
                            else _calculate_relevance_score E N self article q
                | None => ret zero
                end) ;;
  recency_score <- _calculate_recency_score E N self article ;;
  citations <- _calculate_citation_score E N self article ;;
  ret (<["citations" := citations]>
         (<["recency" := recency_score]> (<["relevance" := relevance]> ∅))).

Definition _calculate_score (E : Env) (N : Numerics) (self : ArticleRanker)
  (article : loc) (query : option string) (weights : value) : M float :=
  scores <- scores_of E N self article query ;;
  pairs <- lift (items weights) ;;
  lift (weighted_sum scores pairs zero).

Fixpoint scored_articles (E : Env) (N : Numerics) (self : ArticleRanker)
  (articles : list loc) (query : option string) (weights : value)
  : M (list (loc * float)) :=
  match articles with
  | [] => ret []
  | article :: rest =>
      score <- _calculate_score E N self article query weights ;;
      tail <- scored_articles E N self rest query weights ;;
      ret ((article, score) :: tail)
  end.

(** [sorted(l, key=key, reverse=True)] as a stable insertion sort by [<],
    which is what every stable sort returns when [<] orders the keys.  With
    a NaN among the keys [<] is no order: the arrangement that CPython
    returns then depends on the comparisons its run detection and binary
    insertion make, and this definition stands for it only on lists that
    are one run, as in the example of three documents below.  What is
    stated about NaN keys holds for every arrangement. *)
Fixpoint insert_desc {A} (key : A -> float) (x : A) (l : list A) : list A :=
  match l with
  | [] => [x]
  | y :: l' =>
      if flt (key x) (key y) then y :: insert_desc key x l'
      else x :: y :: l'
  end.

Definition sorted_reverse {A} (key : A -> float) (l : list A) : list A :=
  foldr (insert_desc key) [] l.

Definition rank_articles (E : Env) (N : Numerics) (self : ArticleRanker)
  (articles : list loc) (query : option string) (weights : value)
  : M (list (loc * float)) :=
  match articles with
  | [] => ret []
  | _ =>
      let weights :=
        if truthy weights then weights
        else Config.get_ranking_weights (config self) in
      scored <- scored_articles E N self articles query weights ;;
      ret (sorted_reverse snd scored)
  end.

(** Largest key first, by [>=] on floats *)
Definition descending {A} (key : A -> float) (x y : A) : Prop :=
  fle (key y) (key x) = true.

(** What the statements assume of [np.exp], one property at a time: it is
    1.0 at 0.0; it does not decrease; it is never negative; it is 0.0 from
    -746 down; it is [inf] from 710 up. *)
Definition exp_at_zero (N : Numerics) : Prop := np_exp N zero = one.

Definition exp_monotone (N : Numerics) : Prop :=
  forall x y, fle x y = true -> fle (np_exp N x) (np_exp N y) = true.

Definition exp_nonnegative (N : Numerics) : Prop :=
  forall x, is_nan x = false -> fle zero (np_exp N x) = true.

Definition exp_underflows (N : Numerics) : Prop :=
  forall x, fle x (Finite (-746)) = true -> np_exp N x = zero.

Definition exp_overflows (N : Numerics) : Prop :=
  forall x, fle (Finite 710) x = true -> np_exp N x = PosInf.

(** The ages a [timedelta] can hold, in days *)
Definition max_days : Z := 999999999.

(** The decay constant a configuration value stands for, when it is a
    number above zero *)
Definition decay_of (v : value) : option Q :=
  match v with
  | VBool true => Some 1%Q
  | VInt z => if (0 <? z)%Z then Some (inject_Z z) else None
  | VFloat q =>
      match round q with
      | Finite y => if Qle_bool y 0 then None else Some y
      | _ => None
      end
  | _ => None
  end.

End Double.



(** A weight that is zero: the integer 0, [False], or a float that is 0.0 *)
Definition zero_weight (w : value) : Prop :=
  w = VInt 0 \/ w = VBool false \/
  exists q, w = VFloat q /\ Double.round q = Double.zero.

(** A sample world for the doubles.  Its exponential is the power of two
    below the true value, [2^floor(x * log2 e)], and its logarithm the
    logarithm of the power of two below the argument.  The examples depend
    on them only where they agree with every exponential and logarithm on
    doubles: the value at 0, overflow, underflow, and a quotient of two
    equal logarithms. *)
Module Sample4.

(** [2^k] as a double *)
Definition power (k : Z) : Double.float :=
  if (k <? -1074)%Z then Double.zero
  else if (1024 <=? k)%Z then Double.PosInf
  else Double.Finite (Qred (Double.pow2 k)).

Definition exp2 (x : Double.float) : Double.float :=
  match x with
  | Double.Finite q => power (Qfloor (q * (1442695 # 1000000)))
  | Double.PosInf => Double.PosInf
  | Double.NegInf => Double.zero
  | Double.NaN => Double.NaN
  end.

Definition numerics : Double.Numerics :=
  {| Double.np_exp := exp2;
     Double.math_log := fun q =>
       Double.round (inject_Z (Double.binade q) * (693147 # 1000000));
     Double.cosine := fun _ _ => Ok Double.one |}.

(** A date parser that knows the last day of the year 9999, as a naive
    timestamp *)
Definition parse (text : string) : option datetime :=
  if String.eqb text "9999-12-31"
  then Some {| aware := false; micros := 253402214400000000 |}
  else None.

Definition env : Env :=
  {| encode := encode Sample.env;
     cosine_similarity := cosine_similarity Sample.env;
     py_repr := py_repr Sample.env;
     fromisoformat := parse;
     str_lower := str_lower Sample.env;
     http_get := http_get Sample.env;
     sleep_overrun := sleep_overrun Sample.env |}.

(** Three articles with cached counts.  The first and the third carry no
    date; the second is dated in the year 9999; the third has as many
    citations as the normalisation maximum. *)
Definition state : State :=
  {| heap := fun l => match l with
                      | O => <["citation_count" := VInt 0]> ∅
                      | S O => <["published" := VStr "9999-12-31"]>
                                 (<["citation_count" := VInt 0]> ∅)
                      | S (S O) => <["citation_count" := VInt 1000]> ∅
                      | _ => ∅
                      end;
     last_request_time := 0;
     clock := 1700000000;
     calls := [] |}.

(** Weights that switch the recency signal off *)
Definition weights : list (string * value) :=
  [("relevance", VFloat 1); ("recency", VFloat 0); ("citations", VFloat 1)].

End Sample4.

(** ** [sorted(..., reverse=True)] is a stable sort *)

Section Sorting.
Context {A : Type} (key : A -> R).

Lemma insert_desc_perm (x : A) (l : list A) : insert_desc key x l ≡ₚ x :: l.
Proof.
  induction l as [|y l IH]; simpl; [reflexivity|].
  destruct (Rlt_dec (key x) (key y)); [|reflexivity].
  rewrite IH. apply Permutation_swap.
Qed.


Lemma insert_desc_sorted (x : A) (l : list A) :
  StronglySorted (descending key) l ->
  StronglySorted (descending key) (insert_desc key x l).
Proof.
  induction 1 as [|y l Hl IH Hy]; simpl.
  - constructor; constructor.
  - destruct (Rlt_dec (key x) (key y)) as [Hlt|Hge].
    + constructor; [exact IH|].
      rewrite insert_desc_perm. constructor; [|exact Hy].
      unfold descending. lra.
    + assert (Hxy : descending key x y) by (unfold descending; lra).
      constructor; [now constructor|]. constructor; [exact Hxy|].
      eapply Forall_impl; [exact Hy|]. unfold descending in *. intros z Hz. lra.
Qed.

Lemma sorted_reverse_sorted (l : list A) :
  StronglySorted (descending key) (sorted_reverse key l).
Proof.
  induction l as [|x l IH]; simpl; [constructor|].
  now apply insert_desc_sorted.
Qed.

Lemma insert_desc_stable (t : R) (x : A) (l : list A) :
  List.filter (has_key key t) (insert_desc key x l)
  = List.filter (has_key key t) (x :: l).
Proof.
  induction l as [|y l IH]; [reflexivity|]. simpl insert_desc.
  destruct (Rlt_dec (key x) (key y)) as [Hlt|Hge]; [|reflexivity].
  simpl in *. rewrite IH. unfold has_key.
  destruct (Req_dec_T (key x) t) as [Hx|Hx];
    destruct (Req_dec_T (key y) t) as [Hy|Hy]; try reflexivity.
  exfalso. lra.
Qed.

Lemma sorted_reverse_stable (t : R) (l : list A) :
  List.filter (has_key key t) (sorted_reverse key l)
  = List.filter (has_key key t) l.
Proof.
  induction l as [|x l IH]; [reflexivity|]. simpl sorted_reverse.
  rewrite insert_desc_stable. simpl. now rewrite IH.
Qed.

End Sorting.

(** ** The two normalisations *)

Lemma Q2R_inject_Z (z : Z) : Q2R (inject_Z z) = IZR z.
Proof. unfold Q2R, inject_Z; simpl. field. Qed.

Lemma Q2R_one_plus (z : Z) : Q2R (1 + inject_Z z) = (1 + IZR z)%R.
Proof. rewrite Q2R_plus, Q2R_inject_Z. f_equal. unfold Q2R; simpl; field. Qed.

Lemma Qeq_bool_inject_Z (z : Z) : Qeq_bool (inject_Z z) 0 = Z.eqb z 0.
Proof. unfold Qeq_bool, inject_Z; simpl. now rewrite Z.mul_1_r. Qed.

Lemma log1p_value_int (z : Z) :
  (0 <= z)%Z -> log1p_value (VInt z) = Ok (ln (1 + IZR z)).
Proof.
  intros Hz. unfold log1p_value; simpl.
  destruct (Qlt_le_dec 0 (1 + inject_Z z)) as [_|Hle].
  - now rewrite Q2R_one_plus.
  - exfalso. apply Qle_Rle in Hle. rewrite Q2R_one_plus in Hle.
    apply IZR_le in Hz. unfold Q2R in Hle; simpl in Hle. lra.
Qed.






(** ** The citation fetcher *)

Section FetcherFacts.
Context (E : Env) (self : CitationFetcher).

Lemma rate_limit_ok (s : State) :
  _rate_limit E self s = (Ok tt, (_rate_limit E self s).2).
Proof.
  unfold _rate_limit, bind, time_time, time_sleep, ret; simpl.
  now destruct (Qlt_le_dec _ _).
Qed.

Lemma rate_limit_frame (s : State) :
  heap (_rate_limit E self s).2 = heap s /\
  calls (_rate_limit E self s).2 = calls s /\
  last_request_time (_rate_limit E self s).2 = sent_at E self s.
Proof.
  unfold sent_at, _rate_limit, bind, time_time, time_sleep, ret; simpl.
  now destruct (Qlt_le_dec _ _).
Qed.

Lemma after_request_heap r s : heap (after_request E self r s) = heap s.
Proof.
  unfold after_request, requests_get.
  destruct (outcome _); simpl; apply rate_limit_frame.
Qed.

Lemma after_request_calls r s :
  calls (after_request E self r s) = calls s ++ [(sent_at E self s, r)].
Proof.
  unfold after_request, requests_get, sent_at.
  destruct (outcome _); simpl;
    now rewrite (proj1 (proj2 (rate_limit_frame s))).
Qed.

Lemma after_request_last r s :
  last_request_time (after_request E self r s) = sent_at E self s.
Proof.
  unfold after_request, requests_get.
  destruct (outcome _); simpl; apply rate_limit_frame.
Qed.

Lemma after_request_clock r s :
  clock (after_request E self r s)
  = (sent_at E self s + latency (http_get E (List.length (calls s)) r))%Q.
Proof.
  unfold after_request, requests_get, sent_at.
  rewrite (proj1 (proj2 (rate_limit_frame s))).
  now destruct (outcome _).
Qed.

(** What the request of a lookup yields *)
Lemma request_outcome r s :
  requests_get E r (_rate_limit E self s).2
  = (match outcome (http_get E (List.length (calls s)) r) with
     | Response code body => Ok (code, body)
     | Failed => Raise (CollaboratorError "requests")
     end, after_request E self r s).
Proof.
  unfold after_request, requests_get.
  rewrite (proj1 (proj2 (rate_limit_frame s))).
  now destruct (outcome _).
Qed.

Lemma fetch_by_doi_total doi s :
  exists v, _fetch_by_doi E self doi s = (Ok v, after_request E self (ByDOI doi) s).
Proof.
  unfold _fetch_by_doi, try_except, bind.
  rewrite rate_limit_ok, request_outcome.
  destruct (outcome _) as [code body|]; simpl; [|eauto].
  destruct (code =? 200)%Z; [|destruct (code =? 404)%Z; eauto].
  unfold lift, response_json. destruct body as [data|]; simpl; [|eauto].
  destruct (dict_get _ _ _); simpl; eauto.
Qed.



Lemma fetch_by_arxiv_id_total arxiv_id s :
  exists v, _fetch_by_arxiv_id E self arxiv_id s
            = (Ok v, after_request E self (ByArxivId arxiv_id) s).
Proof.
  unfold _fetch_by_arxiv_id, try_except, bind.
  rewrite rate_limit_ok, request_outcome.
  destruct (outcome _) as [code body|]; simpl; [|eauto].
  destruct (code =? 200)%Z; [|destruct (code =? 404)%Z; eauto].
  unfold lift, response_json. destruct body as [data|]; simpl; [|eauto].
  destruct (dict_get _ _ _); simpl; eauto.
Qed.



Lemma fetch_by_title_total title s :
  exists v, _fetch_by_title E self title s
            = (Ok v, after_request E self (ByTitle title) s).
Proof.
  unfold _fetch_by_title, try_except, bind.
  rewrite rate_limit_ok, request_outcome.
  destruct (outcome _) as [code body|]; simpl; [|eauto].
  destruct (code =? 200)%Z; [|eauto].
  unfold lift, response_json. destruct body as [data|]; simpl; [|eauto].
  destruct (dict_get data _ _) as [papers|]; simpl; [|eauto].
  destruct (truthy papers); [|eauto].
  destruct (first_item papers) as [first_paper|]; simpl; [|eauto].
  destruct (dict_get first_paper "title" _) as [found|]; simpl; [|eauto].
  destruct (lower E found); simpl; [|eauto].
  destruct (lower E title); simpl; [|eauto].
  destruct (String.eqb _ _); [|eauto].
  destruct (dict_get first_paper "citationCount" _); simpl; eauto.
Qed.

End FetcherFacts.

Section Lookups.
Context (E : Env) (self : CitationFetcher).

Create HintDb herald.
Hint Constructors requests_from : herald.

Lemma requests_from_app s1 rs1 s2 rs2 s3 :
  requests_from E self s1 rs1 s2 -> requests_from E self s2 rs2 s3 ->
  requests_from E self s1 (rs1 ++ rs2) s3.
Proof. induction 1; simpl; eauto with herald. Qed.

Lemma requests_from_heap s rs s' :
  requests_from E self s rs s' -> heap s' = heap s.
Proof.
  induction 1 as [|s r rs s' _ IH]; [reflexivity|].
  now rewrite IH, after_request_heap.
Qed.


Lemma try_title_requests article s :
  exists v rs s', try_title E self article s = (Ok v, s') /\
    requests_from E self s rs s' /\
    rs = match has_truthy article "title" with
         | Some title => [ByTitle title]
         | None => []
         end.
Proof.
  unfold try_title. destruct (has_truthy article "title") as [title|].
  - destruct (fetch_by_title_total E self title s) as [v Hv].
    exists v, [ByTitle title], (after_request E self (ByTitle title) s).
    eauto with herald.
  - exists VNone, [], s. unfold ret. eauto with herald.
Qed.

Lemma try_arxiv_id_requests article s :
  exists v rs s', try_arxiv_id E self article s = (Ok v, s') /\
    requests_from E self s rs s' /\
    match has_truthy article "arxiv_id" with
    | Some arxiv_id =>
        exists rest, rs = ByArxivId arxiv_id :: rest /\
          (rest = [] \/ exists title, rest = [ByTitle title])
    | None => rs = [] \/ exists title, rs = [ByTitle title]
    end.
Proof.
  unfold try_arxiv_id. destruct (has_truthy article "arxiv_id") as [arxiv_id|].
  - unfold bind.
    destruct (fetch_by_arxiv_id_total E self arxiv_id s) as [v ->].
    destruct (is_none v); simpl.
    + destruct (try_title_requests article
                  (after_request E self (ByArxivId arxiv_id) s))
        as (v' & rs & s' & -> & Hrs & Heq).
      exists v', (ByArxivId arxiv_id :: rs), s'.
      split; [reflexivity|]. split; [eauto with herald|].
      eexists; split; [reflexivity|]. rewrite Heq.
      destruct (has_truthy article "title"); eauto.
    + exists v, [ByArxivId arxiv_id], (after_request E self (ByArxivId arxiv_id) s).
      unfold ret. eauto 7 with herald.
  - destruct (try_title_requests article s) as (v' & rs & s' & -> & Hrs & Heq).
    exists v', rs, s'. split; [reflexivity|]. split; [assumption|].
    rewrite Heq. destruct (has_truthy article "title"); eauto.
Qed.

Lemma get_citation_count_cached article c s :
  cached_count article = Some c ->
  get_citation_count E self article s = (Ok c, s).
Proof.
  unfold cached_count, get_citation_count.
  destruct (article !! "citation_count") as [[]|]; intros [= <-]; reflexivity.
Qed.

Lemma get_citation_count_uncached article s :
  cached_count article = None ->
  get_citation_count E self article s
  = match has_truthy article "doi" with
    | Some doi =>
        (citation_count <- _fetch_by_doi E self doi ;;
         if negb (is_none citation_count) then ret citation_count
         else try_arxiv_id E self article) s
    | None => try_arxiv_id E self article s
    end.
Proof.
  unfold cached_count, get_citation_count.
  destruct (article !! "citation_count") as [[]|]; intros [=];
    destruct (has_truthy article "doi"); reflexivity.
Qed.

(** A lookup never raises, and its effect is a sequence of at most three
    requests. *)
Lemma get_citation_count_requests article s :
  exists v rs s', get_citation_count E self article s = (Ok v, s') /\
    requests_from E self s rs s'.
Proof.
  destruct (cached_count article) as [c|] eqn:Hc.
  - exists c, [], s. rewrite (get_citation_count_cached _ _ _ Hc).
    eauto with herald.
  - rewrite (get_citation_count_uncached _ _ Hc).
    destruct (has_truthy article "doi") as [doi|].
    + unfold bind. destruct (fetch_by_doi_total E self doi s) as [v ->].
      destruct (is_none v); simpl.
      * destruct (try_arxiv_id_requests article
                    (after_request E self (ByDOI doi) s))
          as (v' & rs & s' & -> & Hrs & _).
        exists v', (ByDOI doi :: rs), s'. eauto with herald.
      * exists v, [ByDOI doi], (after_request E self (ByDOI doi) s).
        unfold ret. eauto with herald.
    + destruct (try_arxiv_id_requests article s) as (v' & rs & s' & -> & Hrs & _).
      eauto.
Qed.




Lemma lookups_requests articles s :
  exists vs rs s', lookups E self articles s = (Ok vs, s') /\
    requests_from E self s rs s'.
Proof.
  revert s. induction articles as [|article rest IH]; intros s; simpl.
  - exists [], [], s. unfold ret. eauto with herald.
  - unfold bind.
    destruct (get_citation_count_requests article s) as (v & rs1 & s1 & -> & H1).
    destruct (IH s1) as (vs & rs2 & s2 & -> & H2).
    exists (v :: vs), (rs1 ++ rs2), s2. unfold ret.
    eauto using requests_from_app.
Qed.

End Lookups.

(** ** Pacing of the requests *)

Section Pacing.
Context (E : Env) (self : CitationFetcher) (Htime : time_passes E).

Lemma sent_at_bounds (s : State) :
  (clock s <= sent_at E self s)%Q /\
  (last_request_time s + rate_limit_delay self <= sent_at E self s)%Q.
Proof.
  destruct Htime as [Hover _].
  unfold sent_at, _rate_limit, bind, time_time, time_sleep, ret; simpl.
  destruct (Qlt_le_dec _ _) as [Hlt|Hle]; simpl.
  - specialize (Hover (clock s)
      (rate_limit_delay self - (clock s - last_request_time s))%Q).
    split; Lqa.lra.
  - split; Lqa.lra.
Qed.

Lemma spaced_snoc (r : Q) (ts : list Q) (t : Q) :
  spaced r ts ->
  (forall t1, last ts = Some t1 -> (t1 + r <= t)%Q) ->
  spaced r (ts ++ [t]).
Proof.
  intros Hsp Hlast i t1 t2 H1 H2.
  destruct (decide (S i < List.length ts)%nat) as [Hlt|Hge].
  - rewrite lookup_app_l in H1 by lia. rewrite lookup_app_l in H2 by lia.
    eauto.
  - rewrite lookup_app_r in H2 by lia.
    destruct (S i - List.length ts)%nat as [|n] eqn:Hn; [|destruct n; discriminate].
    injection H2 as <-.
    rewrite lookup_app_l in H1 by lia.
    apply Hlast. rewrite last_lookup.
    replace (Init.Nat.pred (List.length ts)) with i by lia. exact H1.
Qed.

Lemma spaced_nth (r : Q) (ts : list Q) (n : nat) (a b : Q) :
  spaced r ts -> ts !! 0%nat = Some a -> ts !! n = Some b ->
  (a + inject_Z (Z.of_nat n) * r <= b)%Q.
Proof.
  intros Hsp Ha. revert b. induction n as [|n IH]; intros b Hb.
  - rewrite Ha in Hb. injection Hb as <-.
    change (a + 0 * r <= a)%Q. Lqa.lra.
  - destruct (ts !! n) as [c|] eqn:Hc.
    + specialize (IH c eq_refl). specialize (Hsp n c b Hc Hb).
      rewrite Nat2Z.inj_succ. unfold Z.succ. rewrite inject_Z_plus.
      change (inject_Z 1) with 1%Q. Lqa.lra.
    + apply lookup_ge_None in Hc. apply lookup_lt_Some in Hb. lia.
Qed.

Lemma paced_after_request (t0 : Q) (r : request) (s : State) :
  paced (rate_limit_delay self) t0 s ->
  paced (rate_limit_delay self) t0 (after_request E self r s).
Proof.
  intros (Hsp & Hlast & Hin & Ht0).
  destruct (sent_at_bounds s) as [Hc Hl].
  destruct Htime as [_ Hlat].
  specialize (Hlat (List.length (calls s)) r).
  unfold paced.
  rewrite after_request_calls, after_request_last, after_request_clock, fmap_app.
  simpl. split; [|split; [|split]].
  - apply spaced_snoc; [assumption|]. intros t1 H1. specialize (Hlast t1 H1).
    Lqa.lra.
  - intros t Ht. rewrite last_snoc in Ht. injection Ht as <-. Lqa.lra.
  - intros t Ht. apply elem_of_app in Ht as [Ht|Ht].
    + destruct (Hin t Ht). split; [assumption | Lqa.lra].
    + apply list_elem_of_singleton in Ht as ->. split; Lqa.lra.
  - Lqa.lra.
Qed.

Lemma paced_requests_from (t0 : Q) (s : State) (rs : list request) (s' : State) :
  requests_from E self s rs s' ->
  paced (rate_limit_delay self) t0 s -> paced (rate_limit_delay self) t0 s'.
Proof. induction 1; auto using paced_after_request. Qed.

Lemma paced_fresh (r : Q) (s : State) : calls s = [] -> paced r (clock s) s.
Proof.
  intros Hs. unfold paced. rewrite Hs. simpl. split; [|split; [|split]].
  - intros i t1 t2 H1. discriminate.
  - discriminate.
  - intros t Ht. now apply elem_of_nil in Ht.
  - Lqa.lra.
Qed.

Lemma paced_elapsed (r t0 : Q) (s : State) :
  paced r t0 s -> calls s <> [] ->
  (t0 + inject_Z (Z.of_nat (List.length (calls s) - 1)) * r <= clock s)%Q.
Proof.
  intros (Hsp & _ & Hin & _) Hne.
  assert (Hlen : (0 < List.length (calls s).*1)%nat).
  { rewrite length_fmap. destruct (calls s); [contradiction | simpl; lia]. }
  destruct (lookup_lt_is_Some_2 (calls s).*1 0%nat Hlen) as [a Ha].
  destruct (lookup_lt_is_Some_2 (calls s).*1 (List.length (calls s) - 1)%nat)
    as [b Hb]; [rewrite length_fmap in *; lia|].
  pose proof (spaced_nth r _ _ a b Hsp Ha Hb) as Hab.
  destruct (Hin a) as [Ha0 _]; [eapply list_elem_of_lookup_2; eauto|].
  destruct (Hin b) as [_ Hb1]; [eapply list_elem_of_lookup_2; eauto|].
  Lqa.lra.
Qed.

End Pacing.

(** ** The ranker, signal by signal *)

Section RankerFacts.
Context (E : Env) (self : ArticleRanker).

Lemma relevance_state (l : loc) (q : string) (s : State) :
  (_calculate_relevance_score E self l q s).2 = s.
Proof.
  unfold _calculate_relevance_score, bind, lift.
  destruct (predict E _) as [qe|]; simpl; [|reflexivity].
  destruct (predict E (heap s l)) as [ae|]; simpl; [|reflexivity].
  now destruct (cosine_similarity E qe ae).
Qed.

Lemma recency_state (l : loc) (s : State) :
  (_calculate_recency_score E self l s).2 = s.
Proof.
  unfold _calculate_recency_score, bind, try_except, lift, utcnow, ret. simpl.
  repeat (case_match; simplify_eq; simpl; try reflexivity).
Qed.

Lemma cached_count_spec (article : gmap string value) :
  match cached_count article with
  | Some c => default VNone (article !! "citation_count") = c /\ is_none c = false
  | None => is_none (default VNone (article !! "citation_count")) = true
  end.
Proof.
  unfold cached_count. destruct (article !! "citation_count") as [[]|]; simpl; auto.
Qed.

(** [_calculate_citation_score], case by case *)
Lemma citation_score_cases (l : loc) (s : State) :
  _calculate_citation_score E self l s
  = match citation_fetcher self with
    | None => (Ok 0%R, s)
    | Some fetcher =>
        if negb (truthy (Config.is_citation_enabled (config self)))
        then (Ok 0%R, s)
        else
          let max_citations :=
            Config.get_max_citations_for_normalization (config self) in
          match cached_count (heap s l) with
          | Some c => (authority c max_citations, s)
          | None =>
              match get_citation_count E fetcher (heap s l) s with
              | (Ok c, s1) =>
                  (authority c max_citations,
                   if is_none c then s1 else store_field l "citation_count" c s1)
              | (Raise e, s1) => (Raise e, s1)
              end
          end
    end.
Proof.
  unfold _calculate_citation_score.
  destruct (citation_fetcher self) as [fetcher|]; [|reflexivity].
  destruct (negb _); [reflexivity|].
  unfold bind at 1. simpl.
  pose proof (cached_count_spec (heap s l)) as Hc.
  destruct (cached_count (heap s l)) as [c|].
  - destruct Hc as [-> Hc]. rewrite Hc. reflexivity.
  - rewrite Hc. unfold bind.
    destruct (get_citation_count E fetcher (heap s l) s) as [[c|e] s1];
      [|reflexivity].
    destruct (is_none c); reflexivity.
Qed.

(** *** The store: only the count cache is ever filled *)

Lemma cache_filled_refl (ls : list loc) (s : State) : cache_filled ls s s.
Proof. intros l k. now left. Qed.

Lemma cache_filled_heap (ls : list loc) (s s' : State) :
  heap s' = heap s -> cache_filled ls s s'.
Proof. intros H l k. left. now rewrite H. Qed.

Lemma cache_filled_mono (ls ls' : list loc) (s s' : State) :
  ls ⊆ ls' -> cache_filled ls s s' -> cache_filled ls' s s'.
Proof.
  intros Hsub H l k. destruct (H l k) as [Heq|(Hin & Hrest)]; [now left|].
  right. split; [now apply Hsub | exact Hrest].
Qed.

Lemma cache_filled_trans (ls : list loc) (s1 s2 s3 : State) :
  cache_filled ls s1 s2 -> cache_filled ls s2 s3 -> cache_filled ls s1 s3.
Proof.
  intros H1 H2 l k.
  destruct (H2 l k) as [Heq|(Hin & -> & Hnone & c & Hc & Hk)].
  - rewrite Heq. apply H1.
  - destruct (H1 l "citation_count") as [Heq1|(_ & _ & _ & c1 & Hc1 & Hk1)].
    + right. repeat split; [assumption| |eauto].
      unfold cached_count in *. now rewrite <- Heq1.
    + exfalso. unfold cached_count in Hnone. rewrite Hk1 in Hnone.
      destruct c1; discriminate.
Qed.

Lemma cache_filled_store (l : loc) (c : value) (s s1 : State) :
  heap s1 = heap s -> cached_count (heap s l) = None -> is_none c = false ->
  cache_filled [l] s (store_field l "citation_count" c s1).
Proof.
  intros Hheap Hnone Hc l' k. simpl. rewrite Hheap.
  destruct (Nat.eqb_spec l' l) as [->|Hne]; [|now left].
  destruct (decide (k = "citation_count")) as [->|Hk].
  - right. repeat split; [apply list_elem_of_singleton; reflexivity | assumption|].
    exists c. split; [assumption | apply lookup_insert_eq].
  - left. now apply lookup_insert_ne.
Qed.

Lemma citation_score_filled (l : loc) (s : State) :
  cache_filled [l] s (_calculate_citation_score E self l s).2.
Proof.
  rewrite citation_score_cases.
  destruct (citation_fetcher self) as [fetcher|]; [|apply cache_filled_refl].
  destruct (negb _); [apply cache_filled_refl|]. simpl.
  destruct (cached_count (heap s l)) eqn:Hcache; [apply cache_filled_refl|].
  destruct (get_citation_count_requests E fetcher (heap s l) s)
    as (v & rs & s1 & -> & Hrs).
  pose proof (requests_from_heap E fetcher _ _ _ Hrs) as Hheap. simpl.
  destruct (is_none v) eqn:Hv.
  - now apply cache_filled_heap.
  - now apply cache_filled_store.
Qed.

Lemma scores_of_filled (l : loc) (q : option string) (s : State) :
  cache_filled [l] s (scores_of E self l q s).2.
Proof.
  unfold scores_of, bind.
  set (rel := match q with Some _ => _ | None => _ end).
  assert (Hrel : (rel s).2 = s).
  { subst rel. destruct q as [q|]; [|reflexivity].
    destruct (String.eqb q ""); [reflexivity | apply relevance_state]. }
  destruct (rel s) as [[r|e] s1]; simpl in Hrel; subst s1;
    [|apply cache_filled_refl].
  pose proof (recency_state l s) as Hrec.
  destruct (_calculate_recency_score E self l s) as [[r'|e] s1];
    simpl in Hrec; subst s1; [|apply cache_filled_refl].
  pose proof (citation_score_filled l s) as Hcit.
  now destruct (_calculate_citation_score E self l s) as [[c|e] s1].
Qed.

Lemma calculate_score_filled (l : loc) (q : option string) (w : value)
  (s : State) :
  cache_filled [l] s (_calculate_score E self l q w s).2.
Proof.
  unfold _calculate_score, bind, lift.
  pose proof (scores_of_filled l q s) as H.
  destruct (scores_of E self l q s) as [[scores|e] s1]; [|exact H].
  destruct (items w); [|exact H]. exact H.
Qed.

Lemma scored_articles_filled (articles : list loc) (q : option string)
  (w : value) (s : State) :
  cache_filled articles s (scored_articles E self articles q w s).2.
Proof.
  revert s. induction articles as [|l rest IH]; intros s; simpl.
  - apply cache_filled_refl.
  - unfold bind.
    pose proof (calculate_score_filled l q w s) as H1.
    destruct (_calculate_score E self l q w s) as [[score|e] s1]; simpl in H1.
    + specialize (IH s1).
      apply (cache_filled_trans _ s s1).
      * eapply cache_filled_mono; [|exact H1].
        intros x Hx. apply list_elem_of_singleton in Hx as ->. left.
      * eapply cache_filled_mono; [intros x Hx; right; exact Hx|].
        destruct (scored_articles E self rest q w s1) as [[tl|e] s2]; exact IH.
    + eapply cache_filled_mono; [|exact H1].
      intros x Hx. apply list_elem_of_singleton in Hx as ->. left.
Qed.

Lemma rank_articles_filled (articles : list loc) (q : option string)
  (w : value) (s : State) :
  cache_filled articles s (rank_articles E self articles q w s).2.
Proof.
  unfold rank_articles. destruct articles as [|l rest];
    [apply cache_filled_refl|].
  unfold bind.
  pose proof (scored_articles_filled (l :: rest) q
                (if truthy w then w
                 else Config.get_ranking_weights (config self)) s) as H.
  now destruct (scored_articles E self (l :: rest) q _ s) as [[scored|e] s1].
Qed.

(** *** When every signal is computed *)












End RankerFacts.

(** ** The configuration loader *)

Lemma alist_lookup_set_eq (k : string) (v : value) (d : list (string * value)) :
  alist_lookup k (alist_set k v d) = Some v.
Proof.
  induction d as [|[k' v'] d IH]; simpl.
  - now rewrite String.eqb_refl.
  - destruct (String.eqb k k') eqn:Hk; simpl; rewrite ?String.eqb_refl, ?Hk;
      [reflexivity | exact IH].
Qed.

Lemma alist_lookup_set_ne (k k' : string) (v : value) (d : list (string * value)) :
  k <> k' -> alist_lookup k (alist_set k' v d) = alist_lookup k d.
Proof.
  intros Hne. induction d as [|[k0 v0] d IH]; simpl.
  - destruct (String.eqb_spec k k'); [contradiction | reflexivity].
  - destruct (String.eqb_spec k' k0) as [->|Hk0]; simpl.
    + destruct (String.eqb_spec k k0); [contradiction | reflexivity].
    + destruct (String.eqb_spec k k0); [reflexivity | exact IH].
Qed.

Lemma alist_lookup_fresh (k : string) (d : list (string * value)) :
  k ∉ d.*1 -> alist_lookup k d = None.
Proof.
  induction d as [|[k' v'] d IH]; intros Hk; simpl; [reflexivity|].
  rewrite fmap_cons in Hk. apply not_elem_of_cons in Hk as [Hne Hk]. simpl in Hne.
  destruct (String.eqb_spec k k'); [contradiction | now apply IH].
Qed.

(** The recursive case of [_deep_merge] *)
Lemma merge_value_dicts (b o : list (string * value)) :
  Config.merge_value (Some (VDict b)) (VDict o) = VDict (Config._deep_merge b o).
Proof.
  unfold Config._deep_merge. simpl. f_equal. revert b.
  induction o as [|[k v] o IH]; intros b; simpl; [reflexivity|]. apply IH.
Qed.

(** A key of the merged dictionary: the override's value, merged with the
    base's when both are dictionaries, or else the base's value. *)
Lemma deep_merge_lookup (k : string) (base override : list (string * value)) :
  NoDup override.*1 ->
  alist_lookup k (Config._deep_merge base override)
  = match alist_lookup k override with
    | Some v => Some (Config.merge_value (alist_lookup k base) v)
    | None => alist_lookup k base
    end.
Proof.
  unfold Config._deep_merge. revert base.
  induction override as [|[k' v'] override IH]; intros base Hdup; simpl;
    [reflexivity|].
  rewrite fmap_cons in Hdup. apply NoDup_cons in Hdup as [Hfresh Hdup].
  simpl in Hfresh. rewrite (IH _ Hdup).
  destruct (String.eqb_spec k k') as [->|Hne].
  - now rewrite (alist_lookup_fresh _ _ Hfresh), alist_lookup_set_eq.
  - now rewrite alist_lookup_set_ne.
Qed.

Lemma load_total (f : Config.config_file) : exists config, Config.load f = Ok config.
Proof.
  destruct f as [| |doc]; simpl; eauto.
  destruct (if truthy doc then doc else VDict []); eauto.
Qed.

(** A decay constant given in the file is the one [get] reads back *)
Lemma load_decay_days (user ranking : list (string * value)) (v : value) :
  NoDup user.*1 -> NoDup ranking.*1 ->
  alist_lookup "ranking" user = Some (VDict ranking) ->
  alist_lookup "recency_decay_days" ranking = Some v ->
  exists config,
    Config.load (Config.FileParsed (VDict user)) = Ok config /\
    Config.get config "ranking.recency_decay_days" (VInt 730) = v.
Proof.
  intros Hu Hr Hranking Hdecay. simpl.
  destruct user as [|kv user']; [discriminate|].
  eexists. split; [reflexivity|].
  unfold Config.get. simpl split_dot. unfold Config.get_path.
  rewrite (deep_merge_lookup "ranking" _ _ Hu), Hranking.
  simpl alist_lookup. rewrite merge_value_dicts.
  rewrite (deep_merge_lookup "recency_decay_days" _ _ Hr), Hdecay.
  simpl. now destruct v.
Qed.

(** ** The ranking loop *)

Section RankingFacts.
Context (E : Env) (self : ArticleRanker).

Lemma recency_unparsed (l : loc) (s : State) (p : string) :
  heap s l !! "published" = Some (VStr p) ->
  (fromisoformat E (replace_Z p) = None \/
   exists d, fromisoformat E (replace_Z p) = Some d /\ aware d = true) ->
  _calculate_recency_score E self l s = (Ok 0%R, s).
Proof.
  intros Hp Hparse.
  unfold _calculate_recency_score, bind, try_except, lift, utcnow, ret. simpl.
  rewrite Hp. simpl. destruct Hparse as [->|(d & -> & Hd)]; [reflexivity|].
  simpl. unfold datetime_sub. simpl. now rewrite Hd.
Qed.

Lemma recency_parsed (l : loc) (s : State) (p : string) (d : datetime) (q : Q) :
  heap s l !! "published" = Some (VStr p) ->
  fromisoformat E (replace_Z p) = Some d -> aware d = false ->
  as_number (Config.get (config self) "ranking.recency_decay_days" (VInt 730))
  = Some q ->
  _calculate_recency_score E self l s
  = (if Qeq_bool q 0 then Raise ZeroDivisionError
     else Ok (exp (IZR (- age_in_days s d) / Q2R q)), s).
Proof.
  intros Hp Hparse Hd Hq.
  unfold _calculate_recency_score, bind, try_except, lift, utcnow, ret. simpl.
  rewrite Hp. simpl. rewrite Hparse. simpl.
  unfold datetime_sub. simpl. rewrite Hd. simpl.
  unfold recency, py_truediv. rewrite Hq. unfold age_in_days.
  now destruct (Qeq_bool q 0).
Qed.


Lemma rank_articles_nonempty (l : loc) (rest : list loc) (q : option string)
  (w : value) (s : State) :
  rank_articles E self (l :: rest) q w s
  = match scored_articles E self (l :: rest) q (effective_weights self w) s with
    | (Ok scored, s') => (Ok (sorted_reverse snd scored), s')
    | (Raise e, s') => (Raise e, s')
    end.
Proof. reflexivity. Qed.

Lemma scored_articles_fst (articles : list loc) (q : option string) (w : value)
  (s s' : State) (scored : list (loc * R)) :
  scored_articles E self articles q w s = (Ok scored, s') ->
  scored.*1 = articles.
Proof.
  revert s scored. induction articles as [|l rest IH]; intros s scored; simpl.
  - now intros [= <- _].
  - unfold bind.
    destruct (_calculate_score E self l q w s) as [[t|e] s1]; [|discriminate].
    destruct (scored_articles E self rest q w s1) as [[tl|e] s2] eqn:Hrest;
      [|discriminate].
    intros [= <- <-]. rewrite fmap_cons. simpl. f_equal. eapply IH, Hrest.
Qed.

(** What [rank_articles] returns, when it returns *)
Lemma rank_articles_returns (articles : list loc) (q : option string)
  (w : value) (s s' : State) (ranked : list (loc * R)) :
  rank_articles E self articles q w s = (Ok ranked, s') ->
  exists scored,
    scored_articles E self articles q (effective_weights self w) s
    = (Ok scored, s') /\
    ranked = sorted_reverse snd scored.
Proof.
  destruct articles as [|l rest].
  - intros [= <- <-]. exists []. split; reflexivity.
  - rewrite rank_articles_nonempty.
    destruct (scored_articles E self (l :: rest) q _ s) as [[scored|e] s1];
      [|discriminate].
    intros [= <- <-]. eauto.
Qed.




End RankingFacts.

(** ** The sample world is well formed *)








Lemma sample_time_passes : time_passes Sample.env.
Proof. split; intros; simpl; [discriminate | destruct r; discriminate]. Qed.

(** ** The ranker's requests are paced too *)

Section RankerPacing.
Context (E : Env) (self : ArticleRanker) (r t0 : Q).
Context (Htime : time_passes E).
Context (Hdelay : forall fetcher,
            citation_fetcher self = Some fetcher -> rate_limit_delay fetcher = r).

Lemma paced_store (l : loc) (k : string) (v : value) (s : State) :
  paced r t0 s -> paced r t0 (store_field l k v s).
Proof. intros H. exact H. Qed.

Lemma citation_score_paced (l : loc) (s : State) :
  paced r t0 s -> paced r t0 (_calculate_citation_score E self l s).2.
Proof.
  intros Hp. rewrite citation_score_cases.
  destruct (citation_fetcher self) as [fetcher|] eqn:Hf; [|exact Hp].
  destruct (negb _); [exact Hp|]. simpl.
  destruct (cached_count (heap s l)); [exact Hp|].
  destruct (get_citation_count_requests E fetcher (heap s l) s)
    as (v & rs & s1 & -> & Hrs).
  assert (Hp1 : paced r t0 s1).
  { rewrite <- (Hdelay fetcher eq_refl) in *.
    exact (paced_requests_from E fetcher Htime t0 s rs s1 Hrs Hp). }
  simpl. destruct (is_none v); [exact Hp1 | now apply paced_store].
Qed.

Lemma scores_of_paced (l : loc) (q : option string) (s : State) :
  paced r t0 s -> paced r t0 (scores_of E self l q s).2.
Proof.
  intros Hp. unfold scores_of, bind.
  set (rel := match q with Some _ => _ | None => _ end).
  assert (Hrel : (rel s).2 = s).
  { subst rel. destruct q as [q|]; [|reflexivity].
    destruct (String.eqb q ""); [reflexivity | apply relevance_state]. }
  destruct (rel s) as [[a|e] s1]; simpl in Hrel; subst s1; [|exact Hp].
  pose proof (recency_state E self l s) as Hrec.
  destruct (_calculate_recency_score E self l s) as [[b|e] s1];
    simpl in Hrec; subst s1; [|exact Hp].
  pose proof (citation_score_paced l s Hp) as Hcit.
  now destruct (_calculate_citation_score E self l s) as [[c|e] s1].
Qed.

Lemma calculate_score_paced (l : loc) (q : option string) (w : value)
  (s : State) :
  paced r t0 s -> paced r t0 (_calculate_score E self l q w s).2.
Proof.
  intros Hp. unfold _calculate_score, bind, lift.
  pose proof (scores_of_paced l q s Hp) as H.
  destruct (scores_of E self l q s) as [[scores|e] s1]; [|exact H].
  destruct (items w); exact H.
Qed.

Lemma scored_articles_paced (articles : list loc) (q : option string)
  (w : value) (s : State) :
  paced r t0 s -> paced r t0 (scored_articles E self articles q w s).2.
Proof.
  revert s. induction articles as [|l rest IH]; intros s Hp; simpl; [exact Hp|].
  unfold bind. pose proof (calculate_score_paced l q w s Hp) as H1.
  destruct (_calculate_score E self l q w s) as [[t|e] s1]; [|exact H1].
  specialize (IH s1 H1).
  now destruct (scored_articles E self rest q w s1) as [[tl|e] s2].
Qed.

Lemma rank_articles_paced (articles : list loc) (q : option string)
  (w : value) (s : State) :
  paced r t0 s -> paced r t0 (rank_articles E self articles q w s).2.
Proof.
  intros Hp. destruct articles as [|l rest]; [exact Hp|].
  rewrite rank_articles_nonempty.
  pose proof (scored_articles_paced (l :: rest) q (effective_weights self w) s Hp)
    as H.
  now destruct (scored_articles E self (l :: rest) q _ s) as [[scored|e] s1].
Qed.

End RankerPacing.

(** ** Rounding to doubles *)

Section Rounding.
Import Double.
Local Open Scope Q_scope.

Lemma pow2_pos (e : Z) : 0 < pow2 e.
Proof. apply Qpower_0_lt. reflexivity. Qed.

Lemma pow2_le (a b : Z) : (a <= b)%Z -> pow2 a <= pow2 b.
Proof. intros H. apply Qpower_le_compat_l; [exact H | discriminate]. Qed.

Lemma pow2_add (a b : Z) : pow2 (a + b) == pow2 a * pow2 b.
Proof. apply Qpower_plus. discriminate. Qed.

Lemma pow2_lt (a b : Z) : (a < b)%Z -> pow2 a < pow2 b.
Proof.
  intros H. replace b with (a + (b - a))%Z by lia. rewrite pow2_add.
  assert (H1 : pow2 1 <= pow2 (b - a)) by (apply pow2_le; lia).
  change (pow2 1) with 2 in H1. pose proof (pow2_pos a). Lqa.nra.
Qed.

Lemma pow2_Z (k : Z) : (0 <= k)%Z -> pow2 k == inject_Z (2 ^ k).
Proof. intros H. symmetry. apply (Zpower_Qpower 2 k H). Qed.

Lemma nearest_even_bounds (x : Q) :
  inject_Z (nearest_even x) - (1 # 2) <= x <= inject_Z (nearest_even x) + (1 # 2).
Proof.
  unfold nearest_even. pose proof (Qfloor_le x) as Hlo.
  pose proof (Qlt_floor x) as Hhi. rewrite inject_Z_plus in Hhi.
  change (inject_Z 1) with 1 in Hhi.
  destruct (Qcompare_spec (x - inject_Z (Qfloor x)) (1 # 2)) as [He|Hl|Hg].
  - destruct (Z.even (Qfloor x)); [|rewrite inject_Z_plus; change (inject_Z 1) with 1];
      Lqa.lra.
  - Lqa.lra.
  - rewrite inject_Z_plus. change (inject_Z 1) with 1. Lqa.lra.
Qed.

Lemma nearest_even_mono (x y : Q) : x <= y -> (nearest_even x <= nearest_even y)%Z.
Proof.
  intros Hxy. pose proof (Qfloor_resp_le x y Hxy) as Hf.
  destruct (Z.eq_dec (Qfloor x) (Qfloor y)) as [Heq|Hne].
  - unfold nearest_even. rewrite <- Heq.
    destruct (Qcompare_spec (x - inject_Z (Qfloor x)) (1 # 2)) as [He|Hl|Hg];
      destruct (Qcompare_spec (y - inject_Z (Qfloor x)) (1 # 2)) as [He'|Hl'|Hg'];
      try lia; try (exfalso; Lqa.lra); destruct (Z.even (Qfloor x)); lia.
  - assert (Hlt : (Qfloor x + 1 <= Qfloor y)%Z) by lia.
    assert (nearest_even x <= Qfloor x + 1)%Z.
    { unfold nearest_even. destruct (_ ?= _); [destruct (Z.even _)| |]; lia. }
    assert (Qfloor y <= nearest_even y)%Z.
    { unfold nearest_even. destruct (_ ?= _); [destruct (Z.even _)| |]; lia. }
    lia.
Qed.

Lemma nearest_even_Z (z : Z) : nearest_even (inject_Z z) = z.
Proof.
  unfold nearest_even. rewrite Qfloor_Z.
  destruct (Qcompare_spec (inject_Z z - inject_Z z) (1 # 2)) as [He|Hl|Hg];
    [exfalso; Lqa.lra | reflexivity | exfalso; Lqa.lra].
Qed.

Global Instance nearest_even_proper : Proper (Qeq ==> eq) nearest_even.
Proof.
  intros x y Hxy. unfold nearest_even.
  assert (Hf : Qfloor x = Qfloor y) by (apply Qfloor_comp; exact Hxy).
  rewrite Hf.
  assert (Hc : (x - inject_Z (Qfloor y) ?= 1 # 2)
               = (y - inject_Z (Qfloor y) ?= 1 # 2)).
  { apply Qcompare_comp; [|reflexivity]. apply Qplus_comp; [exact Hxy|reflexivity]. }
  now rewrite Hc.
Qed.

Lemma grid_mono (u : Z) (q1 q2 : Q) : q1 <= q2 -> grid u q1 <= grid u q2.
Proof.
  intros H. unfold grid. pose proof (pow2_pos u) as Hp.
  apply Qmult_le_compat_r; [|now apply Qlt_le_weak].
  rewrite <- Zle_Qle. apply nearest_even_mono.
  apply Qmult_le_compat_r; [exact H|].
  apply Qlt_le_weak, Qinv_lt_0_compat, Hp.
Qed.

Lemma grid_zero (u : Z) (q : Q) : q == 0 -> grid u q == 0.
Proof.
  intros H. unfold grid.
  assert (Hq : q / pow2 u == inject_Z 0) by (rewrite H; reflexivity).
  rewrite Hq, nearest_even_Z. reflexivity.
Qed.

Lemma grid_exact (u k : Z) : (u <= k)%Z -> grid u (pow2 k) == pow2 k.
Proof.
  intros H. unfold grid. pose proof (pow2_pos u) as Hp.
  assert (Hq : pow2 k / pow2 u == inject_Z (2 ^ (k - u))).
  { rewrite <- pow2_Z by lia. replace k with ((k - u) + u)%Z at 1 by lia.
    rewrite pow2_add. field. intros Hz. rewrite Hz in Hp.
    now apply Qlt_irrefl in Hp. }
  rewrite Hq, nearest_even_Z, <- pow2_Z by lia.
  rewrite <- pow2_add. now replace (k - u + u)%Z with k by lia.
Qed.

Lemma binade_spec (q : Q) :
  0 < q -> pow2 (binade q) <= q /\ q < pow2 (binade q + 1).
Proof.
  intros Hq. destruct q as [n d]. unfold binade. simpl Qnum. simpl Qden.
  assert (Hn : (0 < n)%Z).
  { unfold Qlt in Hq. simpl in Hq. lia. }
  set (a := Z.log2 n). set (b := Z.log2 (Z.pos d)).
  destruct (Z.log2_spec n Hn) as [Ha1 Ha2]. fold a in Ha1, Ha2.
  destruct (Z.log2_spec (Z.pos d) eq_refl) as [Hb1 Hb2]. fold b in Hb1, Hb2.
  assert (Ha0 : (0 <= a)%Z) by apply Z.log2_nonneg.
  assert (Hb0 : (0 <= b)%Z) by apply Z.log2_nonneg.
  rewrite Zle_Qle, <- pow2_Z in Ha1, Hb1 by lia.
  rewrite Zlt_Qlt, <- pow2_Z in Ha2, Hb2 by lia.
  assert (HD : 0 < inject_Z (Z.pos d)) by reflexivity.
  assert (Hnd : n # d == inject_Z n / inject_Z (Z.pos d)) by apply Qmake_Qdiv.
  assert (He : pow2 (a - b) * pow2 b == pow2 a).
  { rewrite <- pow2_add. now replace (a - b + b)%Z with a by lia. }
  assert (He1 : pow2 (a - b + 1) * pow2 b == pow2 (Z.succ a)).
  { rewrite <- pow2_add. now replace (a - b + 1 + b)%Z with (Z.succ a) by lia. }
  assert (He2 : pow2 (a - b - 1) * pow2 (Z.succ b) == pow2 a).
  { rewrite <- pow2_add. now replace (a - b - 1 + Z.succ b)%Z with a by lia. }
  pose proof (pow2_pos (a - b + 1)). pose proof (pow2_pos (a - b - 1)).
  destruct (Qle_bool (pow2 (a - b)) (n # d)) eqn:Hc.
  - apply Qle_bool_iff in Hc. split; [exact Hc|].
    rewrite Hnd. apply Qlt_shift_div_r; [exact HD|]. Lqa.nra.
  - assert (Hlt : n # d < pow2 (a - b)).
    { apply Qnot_le_lt. intros Hle. apply Qle_bool_iff in Hle. congruence. }
    split.
    + rewrite Hnd. apply Qle_shift_div_l; [exact HD|]. Lqa.nra.
    + now replace (a - b - 1 + 1)%Z with (a - b)%Z by lia.
Qed.

Lemma binade_mono (q1 q2 : Q) : 0 < q1 -> q1 <= q2 -> (binade q1 <= binade q2)%Z.
Proof.
  intros H1 H12. assert (H2 : 0 < q2) by Lqa.lra.
  destruct (binade_spec q1 H1) as [Hlo1 _].
  destruct (binade_spec q2 H2) as [_ Hhi2].
  destruct (Z_le_gt_dec (binade q1) (binade q2)) as [|Hgt]; [assumption|].
  exfalso. assert (pow2 (binade q2 + 1) <= pow2 (binade q1)) by (apply pow2_le; lia).
  Lqa.lra.
Qed.

(** The rounded magnitude does not decrease with the magnitude. *)
Lemma round_magnitude_mono (q1 q2 : Q) :
  0 <= q1 -> q1 <= q2 ->
  grid (ulp_exp q1) q1 <= grid (ulp_exp q2) q2.
Proof.
  intros H1 H12.
  destruct (Qlt_le_dec 0 q1) as [Hpos|Hzero].
  - assert (Hpos2 : 0 < q2) by Lqa.lra.
    pose proof (binade_mono q1 q2 Hpos H12) as Hb.
    destruct (binade_spec q1 Hpos) as [_ Hhi1].
    destruct (binade_spec q2 Hpos2) as [Hlo2 _].
    unfold ulp_exp.
    destruct (Z.eq_dec (Z.max (binade q1 - 52) (-1074))
                (Z.max (binade q2 - 52) (-1074))) as [Heq|Hne].
    + rewrite Heq. now apply grid_mono.
    + assert (Hlt : (binade q1 < binade q2)%Z) by lia.
      assert (Hq1 : q1 <= pow2 (binade q2)).
      { assert (pow2 (binade q1 + 1) <= pow2 (binade q2)) by (apply pow2_le; lia).
        Lqa.lra. }
      apply Qle_trans with (grid (Z.max (binade q1 - 52) (-1074)) (pow2 (binade q2))).
      { now apply grid_mono. }
      rewrite grid_exact by lia.
      rewrite <- (grid_exact (Z.max (binade q2 - 52) (-1074)) (binade q2)) by lia.
      now apply grid_mono.
  - assert (Hz : q1 == 0) by Lqa.lra.
    rewrite (grid_zero _ q1 Hz).
    rewrite <- (grid_zero (ulp_exp q2) 0) by reflexivity.
    apply grid_mono. Lqa.lra.
Qed.

Lemma round_magnitude_nonneg (q : Q) : 0 <= q -> 0 <= grid (ulp_exp q) q.
Proof.
  intros H. rewrite <- (grid_zero (ulp_exp q) 0) by reflexivity.
  now apply grid_mono.
Qed.

Lemma rounded_mono (q1 q2 : Q) : q1 <= q2 -> rounded q1 <= rounded q2.
Proof.
  intros Hle. unfold rounded.
  pose proof (round_magnitude_nonneg (Qabs q1) (Qabs_nonneg q1)) as Hm1.
  pose proof (round_magnitude_nonneg (Qabs q2) (Qabs_nonneg q2)) as Hm2.
  destruct (Qle_bool 0 q1) eqn:E1; destruct (Qle_bool 0 q2) eqn:E2.
  - apply Qle_bool_iff in E1, E2.
    apply round_magnitude_mono; [apply Qabs_nonneg|].
    rewrite !Qabs_pos by assumption. exact Hle.
  - apply Qle_bool_iff in E1.
    assert (~ 0 <= q2) by (rewrite <- Qle_bool_iff; congruence). Lqa.lra.
  - Lqa.lra.
  - assert (Hn1 : ~ 0 <= q1) by (rewrite <- Qle_bool_iff; congruence).
    assert (Hn2 : ~ 0 <= q2) by (rewrite <- Qle_bool_iff; congruence).
    apply Qopp_le_compat.
    apply round_magnitude_mono; [apply Qabs_nonneg|].
    rewrite !Qabs_neg by Lqa.lra. Lqa.lra.
Qed.

Lemma classify_mono (r1 r2 : Q) : r1 <= r2 -> fle (classify r1) (classify r2) = true.
Proof.
  intros H. unfold classify. pose proof (pow2_pos 1024) as Hp.
  destruct (Qle_bool (pow2 1024) r1) eqn:A1;
    destruct (Qle_bool (pow2 1024) r2) eqn:A2;
    destruct (Qle_bool r1 (- pow2 1024)) eqn:B1;
    destruct (Qle_bool r2 (- pow2 1024)) eqn:B2;
    try reflexivity;
    repeat match goal with
           | Hb : Qle_bool _ _ = true |- _ => apply Qle_bool_iff in Hb
           | Hb : Qle_bool ?x ?y = false |- _ =>
               assert (~ x <= y) by (rewrite <- Qle_bool_iff; congruence);
               clear Hb
           end;
    try (exfalso; Lqa.lra).
  simpl. apply Qle_bool_iff. now rewrite !Qred_correct.
Qed.

Lemma round_rounded (q : Q) : round q = classify (rounded q).
Proof. reflexivity. Qed.

Lemma round_mono (q1 q2 : Q) : q1 <= q2 -> fle (round q1) (round q2) = true.
Proof. intros H. rewrite !round_rounded. now apply classify_mono, rounded_mono. Qed.

End Rounding.

(** ** The order of the doubles *)

Section FloatOrder.
Import Double.
Local Open Scope Q_scope.

Lemma fle_refl (a : float) : is_nan a = false -> fle a a = true.
Proof.
  destruct a; simpl; try reflexivity; try discriminate.
  intros _. apply Qle_bool_iff, Qle_refl.
Qed.

Lemma fle_trans (a b c : float) :
  fle a b = true -> fle b c = true -> fle a c = true.
Proof.
  destruct a, b, c; simpl; try reflexivity; try discriminate.
  rewrite !Qle_bool_iff. apply Qle_trans.
Qed.

Lemma fle_total (a b : float) :
  is_nan a = false -> is_nan b = false -> fle a b = true \/ fle b a = true.
Proof.
  destruct a as [x| | |], b as [y| | |]; simpl; try discriminate; auto.
  intros _ _. rewrite !Qle_bool_iff.
  destruct (Qlt_le_dec y x); [right; now apply Qlt_le_weak | now left].
Qed.

Lemma flt_not_fle (a b : float) :
  is_nan a = false -> is_nan b = false -> flt a b = negb (fle b a).
Proof. destruct a, b; simpl; try reflexivity; discriminate. Qed.

Lemma fle_not_nan (a b : float) :
  fle a b = true -> is_nan a = false /\ is_nan b = false.
Proof. destruct a, b; simpl; try discriminate; auto. Qed.

Lemma flt_fle (a b : float) : flt a b = true -> fle a b = true.
Proof.
  destruct a as [x| | |], b as [y| | |]; simpl; try reflexivity; try discriminate.
  intros H. apply Qle_bool_iff. apply negb_true_iff in H.
  assert (~ y <= x) by (rewrite <- Qle_bool_iff; congruence). Lqa.lra.
Qed.

Lemma feq_sym (a b : float) : feq a b = feq b a.
Proof. unfold feq. apply andb_comm. Qed.

(** Between two finite doubles there are finite doubles only. *)
Lemma fle_between (lo hi : Q) (a : float) :
  fle (Finite lo) a = true -> fle a (Finite hi) = true ->
  exists x, a = Finite x /\ lo <= x <= hi.
Proof.
  destruct a as [x| | |]; simpl; try discriminate.
  rewrite !Qle_bool_iff. eauto.
Qed.

Lemma classify_canonical (r : Q) : r == 0 -> classify r = zero.
Proof.
  intros H. unfold classify. pose proof (pow2_pos 1024).
  destruct (Qle_bool (pow2 1024) r) eqn:A.
  { apply Qle_bool_iff in A. exfalso. Lqa.lra. }
  destruct (Qle_bool r (- pow2 1024)) eqn:B.
  { apply Qle_bool_iff in B. exfalso. Lqa.lra. }
  unfold zero. f_equal. now apply (Qred_complete r 0).
Qed.

Lemma round_zero (q : Q) : q == 0 -> round q = zero.
Proof.
  intros H. rewrite round_rounded. apply classify_canonical.
  unfold rounded.
  assert (Ha : Qabs q == 0) by (rewrite H; reflexivity).
  destruct (Qle_bool 0 q); rewrite (grid_zero _ _ Ha); reflexivity.
Qed.

Lemma round_sign (q : Q) :
  (0 <= q -> fle zero (round q) = true) /\
  (q <= 0 -> fle (round q) zero = true).
Proof.
  split; intros H.
  - rewrite <- (round_zero 0) by reflexivity. now apply round_mono.
  - rewrite <- (round_zero 0) by reflexivity. now apply round_mono.
Qed.

End FloatOrder.

(** ** Quotients and the recency score on doubles *)

Section DoubleRecency.
Import Double.
Local Open Scope Q_scope.

Lemma classify_proper (r r' : Q) : r == r' -> classify r = classify r'.
Proof.
  intros H. unfold classify.
  assert (A : Qle_bool (pow2 1024) r = Qle_bool (pow2 1024) r').
  { apply eq_true_iff_eq. rewrite !Qle_bool_iff. now rewrite H. }
  assert (B : Qle_bool r (- pow2 1024) = Qle_bool r' (- pow2 1024)).
  { apply eq_true_iff_eq. rewrite !Qle_bool_iff. now rewrite H. }
  rewrite A, B. now rewrite (Qred_complete r r' H).
Qed.

Lemma round_proper (q q' : Q) : q == q' -> round q = round q'.
Proof.
  intros H. rewrite !round_rounded. apply classify_proper.
  apply Qle_antisym; apply rounded_mono; rewrite H; apply Qle_refl.
Qed.

Lemma round_not_nan (q : Q) : is_nan (round q) = false.
Proof.
  rewrite round_rounded. unfold classify.
  now destruct (Qle_bool _ _); [|destruct (Qle_bool _ _)].
Qed.

Lemma grid_int (u m : Z) : (u <= 0)%Z -> grid u (inject_Z m) == inject_Z m.
Proof.
  intros Hu. unfold grid.
  assert (Hq : inject_Z m / pow2 u == inject_Z (m * 2 ^ (- u))).
  { unfold Qdiv, pow2. rewrite <- (Qpower_opp 2 u). fold (pow2 (- u)).
    rewrite pow2_Z by lia. now rewrite inject_Z_mult. }
  rewrite Hq, nearest_even_Z, inject_Z_mult, <- pow2_Z by lia.
  rewrite <- Qmult_assoc, <- pow2_add.
  replace (- u + u)%Z with 0%Z by lia. change (pow2 0) with 1. ring.
Qed.

(** An integer of at most 53 bits is a double. *)
Lemma round_int_exact (n : Z) :
  (Z.abs n < 2 ^ 53)%Z -> round (inject_Z n) = Finite (Qred (inject_Z n)).
Proof.
  intros Hn. rewrite round_rounded.
  assert (Hr : rounded (inject_Z n) == inject_Z n).
  { unfold rounded. change (Qabs (inject_Z n)) with (inject_Z (Z.abs n)).
    assert (Hg : grid (ulp_exp (inject_Z (Z.abs n))) (inject_Z (Z.abs n))
                 == inject_Z (Z.abs n)).
    { destruct (Z.eq_dec n 0%Z) as [->|Hne]; [now apply grid_zero|].
      apply grid_int. unfold ulp_exp.
      assert (Hpos : 0 < inject_Z (Z.abs n)).
      { rewrite <- (Zlt_Qlt 0). lia. }
      destruct (binade_spec _ Hpos) as [Hlo _].
      assert (Hlt : inject_Z (Z.abs n) < pow2 53).
      { rewrite pow2_Z by lia. now rewrite <- Zlt_Qlt. }
      destruct (Z_le_gt_dec (binade (inject_Z (Z.abs n))) 52%Z) as [|Hgt]; [lia|].
      exfalso.
      assert (pow2 53 <= pow2 (binade (inject_Z (Z.abs n)))) by (apply pow2_le; lia).
      Lqa.lra. }
    destruct (Qle_bool 0 (inject_Z n)) eqn:Hs; rewrite Hg.
    - apply Qle_bool_iff in Hs. rewrite <- (Zle_Qle 0) in Hs.
      now rewrite Z.abs_eq.
    - assert (Hneg : ~ 0 <= inject_Z n) by (rewrite <- Qle_bool_iff; congruence).
      rewrite <- (Zle_Qle 0) in Hneg.
      rewrite Z.abs_neq by lia. rewrite inject_Z_opp. ring. }
  rewrite (classify_proper _ _ Hr). unfold classify.
  assert (Hb : - pow2 53 < inject_Z n < pow2 53).
  { rewrite pow2_Z by lia. rewrite <- inject_Z_opp, <- !Zlt_Qlt. lia. }
  assert (Hp : pow2 53 <= pow2 1024) by (apply pow2_le; lia).
  destruct (Qle_bool (pow2 1024) (inject_Z n)) eqn:A.
  { apply Qle_bool_iff in A. exfalso. Lqa.lra. }
  destruct (Qle_bool (inject_Z n) (- pow2 1024)) eqn:B.
  { apply Qle_bool_iff in B. exfalso. Lqa.lra. }
  reflexivity.
Qed.

Lemma max_days_small (n : Z) :
  (Z.abs n <= max_days)%Z -> (Z.abs n < 2 ^ 53)%Z.
Proof. unfold max_days. intros H. eapply Z.le_lt_trans; [exact H|]. reflexivity. Qed.

Lemma decay_of_positive (v : value) (d : Q) : decay_of v = Some d -> 0 < d.
Proof.
  destruct v as [|[|]|z|q| | | |]; simpl; try discriminate.
  - now intros [= <-].
  - destruct (Z.ltb_spec 0%Z z); [|discriminate]. intros [= <-].
    now rewrite <- (Zlt_Qlt 0).
  - destruct (round q) as [y| | |]; try discriminate.
    destruct (Qle_bool y 0) eqn:Hy; [discriminate|]. intros [= <-].
    apply Qnot_le_lt. rewrite <- Qle_bool_iff. congruence.
Qed.

(** The quotient of an age by a decay constant: one rounding of the exact
    quotient, and no exception. *)
Lemma truediv_decay (n : Z) (v : value) (d : Q) :
  decay_of v = Some d -> (Z.abs n <= max_days)%Z ->
  py_truediv n v = Ok (round (inject_Z n / d)).
Proof.
  intros Hd Hn. pose proof (decay_of_positive v d Hd) as Hpos.
  pose proof (max_days_small n Hn) as Hsmall.
  assert (Hint : forall z : Z, (0 < z)%Z ->
            int_truediv n z = Ok (round (inject_Z n / inject_Z z))).
  { intros z Hz. unfold int_truediv.
    destruct (Z.eqb_spec z 0%Z) as [->|_]; [lia|].
    assert (Hzq : 1 <= inject_Z z) by (rewrite <- (Zle_Qle 1); lia).
    assert (Hlo : inject_Z (- 2 ^ 53) <= inject_Z n / inject_Z z).
    { apply Qle_shift_div_l; [Lqa.lra|].
      assert (inject_Z (- 2 ^ 53) <= inject_Z n) by (rewrite <- Zle_Qle; lia).
      assert (inject_Z (- 2 ^ 53) < 0) by reflexivity. Lqa.nra. }
    assert (Hhi : inject_Z n / inject_Z z <= inject_Z (2 ^ 53)).
    { apply Qle_shift_div_r; [Lqa.lra|].
      assert (inject_Z n <= inject_Z (2 ^ 53)) by (rewrite <- Zle_Qle; lia).
      assert (0 < inject_Z (2 ^ 53)) by reflexivity. Lqa.nra. }
    apply round_mono in Hlo, Hhi.
    assert (Ea : round (inject_Z (- 2 ^ 53)) = Finite (inject_Z (- 2 ^ 53)))
      by (vm_compute; reflexivity).
    assert (Eb : round (inject_Z (2 ^ 53)) = Finite (inject_Z (2 ^ 53)))
      by (vm_compute; reflexivity).
    rewrite Ea in Hlo. rewrite Eb in Hhi.
    destruct (fle_between _ _ _ Hlo Hhi) as (x & -> & _). reflexivity. }
  destruct v as [|[|]|z|q| | | |]; simpl in Hd; try discriminate.
  - injection Hd as <-. simpl. apply (Hint 1%Z). lia.
  - destruct (Z.ltb_spec 0%Z z); [|discriminate]. injection Hd as <-.
    simpl. now apply Hint.
  - simpl. unfold of_int. rewrite (round_int_exact n Hsmall).
    destruct (round q) as [y| | |]; try discriminate.
    destruct (Qle_bool y 0) eqn:Hy; [discriminate|]. injection Hd as <-.
    unfold fdiv.
    destruct (Qeq_bool y 0) eqn:Hz.
    { apply Qeq_bool_eq in Hz. exfalso. Lqa.lra. }
    f_equal. apply round_proper. now rewrite Qred_correct.
Qed.

Lemma recency_decay_value (N : Numerics) (a : Z) (v : value) (d : Q) :
  decay_of v = Some d -> (Z.abs a <= max_days)%Z ->
  recency N a v = Ok (np_exp N (round (inject_Z (- a) / d))).
Proof.
  intros Hd Ha. unfold recency.
  rewrite (truediv_decay (- a) v d Hd) by (now rewrite Z.abs_opp). reflexivity.
Qed.

Lemma quotient_mono (a1 a2 : Z) (d : Q) :
  0 < d -> (a1 <= a2)%Z -> inject_Z (- a2) / d <= inject_Z (- a1) / d.
Proof.
  intros Hd H. apply Qmult_le_compat_r.
  - rewrite <- Zle_Qle. lia.
  - now apply Qlt_le_weak, Qinv_lt_0_compat.
Qed.

End DoubleRecency.

Section SampleNumerics.
Import Double.
Local Open Scope Q_scope.

Lemma power_nonnegative (k : Z) : fle zero (Sample4.power k) = true.
Proof.
  unfold Sample4.power. destruct (_ <? _)%Z; [reflexivity|].
  destruct (_ <=? _)%Z; [reflexivity|]. simpl. apply Qle_bool_iff.
  rewrite Qred_correct. apply Qlt_le_weak, pow2_pos.
Qed.

Lemma power_mono (k1 k2 : Z) :
  (k1 <= k2)%Z -> fle (Sample4.power k1) (Sample4.power k2) = true.
Proof.
  intros Hk. unfold Sample4.power.
  destruct (Z.ltb_spec k1 (-1074)); destruct (Z.ltb_spec k2 (-1074));
    destruct (Z.leb_spec 1024 k1); destruct (Z.leb_spec 1024 k2);
    try lia; try reflexivity; simpl;
    apply Qle_bool_iff; rewrite ?Qred_correct;
    try (apply Qlt_le_weak, pow2_pos); now apply pow2_le.
Qed.

Lemma sample_exp_at_zero : exp_at_zero Sample4.numerics.
Proof. vm_compute. reflexivity. Qed.

Lemma sample_exp_monotone : exp_monotone Sample4.numerics.
Proof.
  intros x y Hxy. change (np_exp Sample4.numerics) with Sample4.exp2.
  destruct x as [q1| | |], y as [q2| | |]; simpl in Hxy; try discriminate;
    try reflexivity; unfold Sample4.exp2.
  - apply Qle_bool_iff in Hxy. apply power_mono, Qfloor_resp_le. Lqa.lra.
  - pose proof (power_nonnegative (Qfloor (q1 * (1442695 # 1000000)))) as Hp.
    now destruct (Sample4.power _).
  - apply power_nonnegative.
Qed.

Lemma sample_exp_nonnegative : exp_nonnegative Sample4.numerics.
Proof.
  intros x Hx. change (np_exp Sample4.numerics) with Sample4.exp2.
  destruct x as [q| | |]; try discriminate; try reflexivity.
  apply power_nonnegative.
Qed.

Lemma sample_exp_underflows : exp_underflows Sample4.numerics.
Proof.
  intros x Hx. change (np_exp Sample4.numerics) with Sample4.exp2.
  destruct x as [q| | |]; try discriminate; try reflexivity.
  simpl in Hx. apply Qle_bool_iff in Hx. unfold Sample4.exp2, Sample4.power.
  assert (Hk : (Qfloor (q * (1442695 # 1000000))
                <= Qfloor (-746 * (1442695 # 1000000)))%Z).
  { apply Qfloor_resp_le. Lqa.lra. }
  change (Qfloor (-746 * (1442695 # 1000000))) with (-1077)%Z in Hk.
  destruct (Z.ltb_spec (Qfloor (q * (1442695 # 1000000))) (-1074));
    [reflexivity | lia].
Qed.

Lemma sample_exp_overflows : exp_overflows Sample4.numerics.
Proof.
  intros x Hx. change (np_exp Sample4.numerics) with Sample4.exp2.
  destruct x as [q| | |]; try discriminate; try reflexivity.
  simpl in Hx. apply Qle_bool_iff in Hx. unfold Sample4.exp2, Sample4.power.
  assert (Hk : (Qfloor (710 * (1442695 # 1000000))
                <= Qfloor (q * (1442695 # 1000000)))%Z).
  { apply Qfloor_resp_le. Lqa.lra. }
  change (Qfloor (710 * (1442695 # 1000000))) with 1024%Z in Hk.
  destruct (Z.ltb_spec (Qfloor (q * (1442695 # 1000000))) (-1074)); [lia|].
  destruct (Z.leb_spec 1024 (Qfloor (q * (1442695 # 1000000))));
    [reflexivity | lia].
Qed.

End SampleNumerics.


(** ** Sorting by a double *)

Section DoubleSorting.
Import Double.
Context {A : Type} (key : A -> float).

Lemma double_insert_perm (x : A) (l : list A) : insert_desc key x l ≡ₚ x :: l.
Proof.
  induction l as [|y l IH]; simpl; [reflexivity|].
  destruct (flt (key x) (key y)); [|reflexivity].
  rewrite IH. apply Permutation_swap.
Qed.

Lemma double_sorted_perm (l : list A) : sorted_reverse key l ≡ₚ l.
Proof.
  induction l as [|x l IH]; simpl; [reflexivity|].
  now rewrite double_insert_perm, IH.
Qed.

Lemma double_insert_sorted (x : A) (l : list A) :
  is_nan (key x) = false ->
  Forall (fun y => is_nan (key y) = false) l ->
  StronglySorted (descending key) l ->
  StronglySorted (descending key) (insert_desc key x l).
Proof.
  intros Hx Hnan Hsorted. induction Hsorted as [|y l Hl IH Hy]; simpl.
  - constructor; constructor.
  - apply Forall_cons in Hnan as [Hny Hnl].
    destruct (flt (key x) (key y)) eqn:Hlt.
    + constructor; [now apply IH|].
      rewrite double_insert_perm. constructor; [|exact Hy].
      now apply flt_fle.
    + assert (Hxy : descending key x y).
      { unfold descending. rewrite (flt_not_fle _ _ Hx Hny) in Hlt.
        now apply negb_false_iff in Hlt. }
      constructor; [now constructor|]. constructor; [exact Hxy|].
      eapply Forall_impl; [exact Hy|]. unfold descending in *.
      intros z Hz. eapply fle_trans; eassumption.
Qed.

Lemma double_sorted_sorted (l : list A) :
  Forall (fun y => is_nan (key y) = false) l ->
  StronglySorted (descending key) (sorted_reverse key l).
Proof.
  induction l as [|x l IH]; simpl; [constructor|].
  intros Hnan. apply Forall_cons in Hnan as [Hx Hl].
  apply double_insert_sorted; [exact Hx| |now apply IH].
  now rewrite double_sorted_perm.
Qed.

Lemma double_insert_stable (t : float) (x : A) (l : list A) :
  List.filter (fun y => feq (key y) t) (insert_desc key x l)
  = List.filter (fun y => feq (key y) t) (x :: l).
Proof.
  induction l as [|y l IH]; [reflexivity|]. simpl insert_desc.
  destruct (flt (key x) (key y)) eqn:Hlt; [|reflexivity].
  simpl in *. rewrite IH.
  destruct (feq (key x) t) eqn:Hx; destruct (feq (key y) t) eqn:Hy;
    try reflexivity.
  exfalso. unfold feq in Hx, Hy.
  apply andb_true_iff in Hx as [_ Htx], Hy as [Hyt _].
  pose proof (fle_trans _ _ _ Hyt Htx) as Hyx.
  destruct (fle_not_nan _ _ Hyx) as [Hny Hnx].
  rewrite (flt_not_fle _ _ Hnx Hny), Hyx in Hlt. discriminate.
Qed.

Lemma double_sorted_stable (t : float) (l : list A) :
  List.filter (fun y => feq (key y) t) (sorted_reverse key l)
  = List.filter (fun y => feq (key y) t) l.
Proof.
  induction l as [|x l IH]; [reflexivity|]. simpl sorted_reverse.
  rewrite double_insert_stable. simpl. now rewrite IH.
Qed.

(** No arrangement of two or more elements, one of them with a NaN key, is
    in descending order. *)
Lemma nan_not_sorted (x : A) (l : list A) :
  x ∈ l -> is_nan (key x) = true -> (1 < List.length l)%nat ->
  ~ StronglySorted (descending key) l.
Proof.
  intros Hin Hx Hlen Hsorted.
  destruct (key x) eqn:Hk; try discriminate.
  inversion Hsorted as [|y l' Hl' Hy]; subst; [now apply elem_of_nil in Hin|].
  apply elem_of_cons in Hin as [->|Hin].
  - destruct l' as [|z l']; [simpl in Hlen; lia|].
    apply Forall_cons in Hy as [Hz _]. unfold descending in Hz.
    rewrite Hk in Hz. now destruct (key z).
  - rewrite Forall_forall in Hy. specialize (Hy x Hin).
    unfold descending in Hy. rewrite Hk in Hy. discriminate.
Qed.

End DoubleSorting.

Section DoubleRanking.
Import Double.
Context (E : Env) (N : Numerics) (self : ArticleRanker).

Lemma double_rank_nonempty (l : loc) (rest : list loc) (q : option string)
  (w : value) (s : State) :
  rank_articles E N self (l :: rest) q w s
  = match scored_articles E N self (l :: rest) q (effective_weights self w) s with
    | (Ok scored, s') => (Ok (sorted_reverse snd scored), s')
    | (Raise e, s') => (Raise e, s')
    end.
Proof. reflexivity. Qed.

Lemma double_scored_fst (articles : list loc) (q : option string) (w : value)
  (s s' : State) (scored : list (loc * float)) :
  scored_articles E N self articles q w s = (Ok scored, s') ->
  scored.*1 = articles.
Proof.
  revert s scored. induction articles as [|l rest IH]; intros s scored; simpl.
  - now intros [= <- _].
  - unfold bind.
    destruct (_calculate_score E N self l q w s) as [[t|e] s1]; [|discriminate].
    destruct (scored_articles E N self rest q w s1) as [[tl|e] s2] eqn:Hrest;
      [|discriminate].
    intros [= <- <-]. rewrite fmap_cons. simpl. f_equal. eapply IH, Hrest.
Qed.

Lemma double_rank_returns (articles : list loc) (q : option string)
  (w : value) (s s' : State) (ranked : list (loc * float)) :
  rank_articles E N self articles q w s = (Ok ranked, s') ->
  exists scored,
    scored_articles E N self articles q (effective_weights self w) s
    = (Ok scored, s') /\
    ranked = sorted_reverse snd scored.
Proof.
  destruct articles as [|l rest].
  - intros [= <- <-]. exists []. split; reflexivity.
  - rewrite double_rank_nonempty.
    destruct (scored_articles E N self (l :: rest) q _ s) as [[scored|e] s1];
      [|discriminate].
    intros [= <- <-]. eauto.
Qed.

End DoubleRanking.

Section NanTotals.
Import Double.
Context (E : Env) (N : Numerics) (self : ArticleRanker).

Lemma double_relevance_state (l : loc) (q : string) (s : State) :
  (_calculate_relevance_score E N self l q s).2 = s.
Proof.
  unfold _calculate_relevance_score, bind, lift.
  destruct (predict E _) as [qe|]; simpl; [|reflexivity].
  destruct (predict E (heap s l)) as [ae|]; simpl; [|reflexivity].
  now destruct (cosine N qe ae).
Qed.

(** The recency score of a document whose date parses to a naive timestamp:
    the value of the formula, or its exception unless the handler catches
    it. *)
Lemma double_recency_parsed (l : loc) (s : State) (p : string) (d : datetime) :
  heap s l !! "published" = Some (VStr p) ->
  fromisoformat E (replace_Z p) = Some d -> aware d = false ->
  _calculate_recency_score E N self l s
  = (match recency N (age_in_days s d)
             (Config.get (config self) "ranking.recency_decay_days" (VInt 730))
     with
     | Ok r => Ok r
     | Raise e => if value_or_type_error e then Ok zero else Raise e
     end, s).
Proof.
  intros Hp Hparse Hd.
  unfold _calculate_recency_score, bind, try_except, lift, utcnow, ret. simpl.
  rewrite Hp. simpl. rewrite Hparse. simpl.
  unfold datetime_sub. simpl. rewrite Hd. simpl. unfold age_in_days.
  destruct (recency N _ _) as [r|e]; [reflexivity|].
  now destruct (value_or_type_error e).
Qed.

Lemma weighted_sum_nan (scores : gmap string float)
  (ws : list (string * value)) (t : float) :
  weighted_sum scores ws NaN = Ok t -> t = NaN.
Proof.
  revert t. induction ws as [|[k w] ws IH]; intros t; simpl.
  - now intros [= <-].
  - destruct (scores !! k) as [sc|]; [|discriminate].
    destruct (times sc w) as [term|]; [|discriminate]. apply IH.
Qed.

Lemma times_inf_zero (w : value) : zero_weight w -> times PosInf w = Ok NaN.
Proof.
  intros [->|[->|(q & -> & Hq)]]; [reflexivity | reflexivity|].
  simpl. now rewrite Hq.
Qed.

Lemma fadd_nan_r (a : float) : fadd a NaN = NaN.
Proof. now destruct a. Qed.

Lemma weighted_sum_inf_zero (scores : gmap string float)
  (ws : list (string * value)) (w : value) (acc t : float) :
  scores !! "recency" = Some PosInf ->
  ("recency", w) ∈ ws -> zero_weight w ->
  weighted_sum scores ws acc = Ok t -> t = NaN.
Proof.
  intros Hrec Hin Hw. revert acc.
  induction ws as [|[k w'] ws IH]; intros acc; [now apply elem_of_nil in Hin|].
  apply elem_of_cons in Hin as [[= <- <-]|Hin]; simpl.
  - rewrite Hrec, (times_inf_zero w Hw), fadd_nan_r. apply weighted_sum_nan.
  - destruct (scores !! k) as [sc|]; [|discriminate].
    destruct (times sc w') as [term|]; [|discriminate]. now apply IH.
Qed.

Lemma double_scores_recency (l : loc) (q : option string) (s s' : State)
  (scores : gmap string float) (r : float) :
  _calculate_recency_score E N self l s = (Ok r, s) ->
  scores_of E N self l q s = (Ok scores, s') ->
  scores !! "recency" = Some r.
Proof.
  intros Hrec. unfold scores_of, bind, ret.
  set (rel := match q with Some _ => _ | None => _ end).
  assert (Hrel : (rel s).2 = s).
  { subst rel. destruct q as [q0|]; [|reflexivity].
    destruct (String.eqb q0 ""); [reflexivity|]. apply double_relevance_state. }
  destruct (rel s) as [[a|] s1]; [|discriminate].
  simpl in Hrel. subst s1. rewrite Hrec.
  destruct (_calculate_citation_score E N self l s) as [[c|] s3]; [|discriminate].
  intros [= <- _]. rewrite lookup_insert_ne by discriminate.
  apply lookup_insert_eq.
Qed.

End NanTotals.

(** ** The fallback chain, the cache and the rate limit *)



(** C8.  Provided sleeping never returns early and no reply precedes its
    request: in a run of lookups made one after another through one client,
    whatever the documents, any two successive requests are sent at least
    [rate_limit_delay] apart, so that the [N] requests of the run take at
    least [(N - 1) * rate_limit_delay] of wall-clock time.  The same holds
    for the requests of one ranking call over all its documents. *)
Theorem rate_limit_spacing (E : Env) (fetcher : CitationFetcher) (s : State)
  (Htime : time_passes E) (Hfresh : calls s = []) :
  (forall articles,
     let s' := (lookups E fetcher articles s).2 in
     spaced (rate_limit_delay fetcher) (calls s').*1 /\
     (calls s' <> [] ->
      (clock s + inject_Z (Z.of_nat (List.length (calls s') - 1))
                 * rate_limit_delay fetcher <= clock s')%Q)) /\
  (forall self articles query weights,
     citation_fetcher self = Some fetcher ->
     let s' := (rank_articles E self articles query weights s).2 in
     spaced (rate_limit_delay fetcher) (calls s').*1 /\
     (calls s' <> [] ->
      (clock s + inject_Z (Z.of_nat (List.length (calls s') - 1))
                 * rate_limit_delay fetcher <= clock s')%Q)).
Proof.
  pose proof (paced_fresh (rate_limit_delay fetcher) s Hfresh) as Hp0.
  split.
  - intros articles.
    destruct (lookups_requests E fetcher articles s) as (vs & rs & s1 & Hrun & Hrs).
    rewrite Hrun. simpl.
    pose proof (paced_requests_from E fetcher Htime (clock s) s rs s1 Hrs Hp0)
      as Hp.
    split; [apply Hp | now apply paced_elapsed].
  - intros self articles query weights Hf s'.
    assert (Hp : paced (rate_limit_delay fetcher) (clock s) s').
    { apply rank_articles_paced; [exact Htime| |exact Hp0].
      intros f Hf'. congruence. }
    split; [apply Hp | now apply paced_elapsed].
Qed.

Lemma rate_limit_spacing_witness :
  time_passes Sample.env /\ calls Sample.state = [] /\
  let s' := (lookups Sample.env Sample.fetcher
               [Sample.paper_b; Sample.paper_a; Sample.paper_b] Sample.state).2 in
  spaced (1 # 10) (calls s').*1 /\
  (calls s' <> [] ->
   (clock Sample.state + inject_Z (Z.of_nat (List.length (calls s') - 1)) * (1 # 10)
    <= clock s')%Q).
Proof.
  split; [exact sample_time_passes|]. split; [reflexivity|].
  apply (proj1 (rate_limit_spacing Sample.env Sample.fetcher Sample.state
                  sample_time_passes eq_refl)).
Defined.

(** ** The count cache on the documents *)

(** C4.  A document that carries a cached count other than [None]: the
    lookup returns that count and leaves the state as it is, so that no
    request is sent; the same holds for the ranker's citation signal.  In
    particular, once a first computation of the citation signal has resolved
    a count, it is cached on the document, and the second computation sends
    no request. *)
Theorem resolve_idempotent (E : Env) (self : ArticleRanker)
  (fetcher : CitationFetcher) (l : loc) (s : State) :
  (forall c, cached_count (heap s l) = Some c ->
     get_citation_count E fetcher (heap s l) s = (Ok c, s) /\
     (_calculate_citation_score E self l s).2 = s) /\
  (forall c s1,
     citation_fetcher self = Some fetcher ->
     truthy (Config.is_citation_enabled (config self)) = true ->
     cached_count (heap s l) = None ->
     get_citation_count E fetcher (heap s l) s = (Ok c, s1) ->
     is_none c = false ->
     let s2 := (_calculate_citation_score E self l s).2 in
     cached_count (heap s2 l) = Some c /\
     get_citation_count E fetcher (heap s2 l) s2 = (Ok c, s2) /\
     (_calculate_citation_score E self l s2).2 = s2 /\
     calls (_calculate_citation_score E self l s2).2 = calls s2).
Proof.
  assert (Hcached : forall s0 c, cached_count (heap s0 l) = Some c ->
            get_citation_count E fetcher (heap s0 l) s0 = (Ok c, s0) /\
            (_calculate_citation_score E self l s0).2 = s0).
  { intros s0 c Hc. split; [now apply get_citation_count_cached|].
    rewrite citation_score_cases.
    destruct (citation_fetcher self); [|reflexivity].
    destruct (negb _); [reflexivity|]. simpl. now rewrite Hc. }
  split; [apply Hcached|].
  intros c s1 Hf Hen Hnone Hget Hc s2.
  assert (Hs2 : cached_count (heap s2 l) = Some c).
  { subst s2. rewrite citation_score_cases, Hf, Hen, Hnone, Hget, Hc. simpl.
    rewrite Nat.eqb_refl. unfold cached_count. rewrite lookup_insert_eq.
    destruct c; [discriminate|reflexivity..]. }
  destruct (Hcached s2 c Hs2) as [H1 H2].
  repeat split; [assumption..|now rewrite H2].
Qed.

Lemma resolve_idempotent_witness :
  (cached_count (heap Sample.state 2%nat) = Some (VInt 7) /\
   get_citation_count Sample.env Sample.fetcher (heap Sample.state 2%nat)
     Sample.state = (Ok (VInt 7), Sample.state) /\
   (_calculate_citation_score Sample.env Sample.ranker 2%nat Sample.state).2
   = Sample.state) /\
  (cached_count (heap Sample.state 1%nat) = None /\
   let s2 :=
     (_calculate_citation_score Sample.env Sample.ranker 1%nat Sample.state).2 in
   cached_count (heap s2 1%nat) = Some (VInt 42) /\
   get_citation_count Sample.env Sample.fetcher (heap s2 1%nat) s2
   = (Ok (VInt 42), s2) /\
   (_calculate_citation_score Sample.env Sample.ranker 1%nat s2).2 = s2 /\
   calls (_calculate_citation_score Sample.env Sample.ranker 1%nat s2).2
   = calls s2).
Proof.
  split.
  - split; [reflexivity|].
    apply (proj1 (resolve_idempotent Sample.env Sample.ranker Sample.fetcher
                    2%nat Sample.state)).
    reflexivity.
  - split; [reflexivity|].
    eapply (proj2 (resolve_idempotent Sample.env Sample.ranker Sample.fetcher
                     1%nat Sample.state));
      reflexivity.
Defined.

(** C9.  A ranking call, whatever its outcome, writes no field of any
    document other than [citation_count]; and a [citation_count] that it
    changed belongs to a document of the call, was absent or [None] before,
    and holds a value other than [None] afterwards. *)
Theorem only_citation_count_written (E : Env) (self : ArticleRanker)
  (articles : list loc) (query : option string) (weights : value) (s : State) :
  let s' := (rank_articles E self articles query weights s).2 in
  (forall l k, k <> "citation_count" -> heap s' l !! k = heap s l !! k) /\
  (forall l,
     heap s' l !! "citation_count" <> heap s l !! "citation_count" ->
     l ∈ articles /\ cached_count (heap s l) = None /\
     exists c, is_none c = false /\ heap s' l !! "citation_count" = Some c).
Proof.
  pose proof (rank_articles_filled E self articles query weights s) as H.
  simpl. split.
  - intros l k Hk. destruct (H l k) as [Heq|(_ & Hk' & _)]; [exact Heq|].
    contradiction.
  - intros l Hne. destruct (H l "citation_count") as [Heq|(Hin & _ & Hrest)].
    + contradiction.
    + split; assumption.
Qed.

(** ** Ranking *)

(** C1 fails on doubles, where a total can be NaN.  Three documents with
    cached counts are ranked without a query, with weights over the three
    signals that switch the recency signal off.  The first and the third
    carry no date and have the totals 0.0 and 1.0.  The second is dated in
    the year 9999: its recency score is [np.exp] of a number above 710,
    [inf], and its total holds [inf * 0.0], NaN.  No arrangement of these
    three is in descending order; and [rank_articles] returns them in the
    order of the input, the total 0.0 before the total 1.0 (no comparison
    with the NaN in the middle is true, so that the list looks sorted to
    [sorted]). *)
Theorem nan_total_breaks_order :
  Forall (fun kv => kv.1 ∈ signals) Sample4.weights /\
  (Double.scored_articles Sample4.env Sample4.numerics Sample.ranker
     [0; 1; 2]%nat None (VDict Sample4.weights) Sample4.state).1
  = Ok [(0%nat, Double.zero); (1%nat, Double.NaN); (2%nat, Double.one)] /\
  (forall l,
     l ≡ₚ [(0%nat, Double.zero); (1%nat, Double.NaN); (2%nat, Double.one)] ->
     ~ StronglySorted (Double.descending snd) l) /\
  (Double.rank_articles Sample4.env Sample4.numerics Sample.ranker
     [0; 1; 2]%nat None (VDict Sample4.weights) Sample4.state).1
  = Ok [(0%nat, Double.zero); (1%nat, Double.NaN); (2%nat, Double.one)].
Proof.
  split; [|split; [|split]].
  - unfold signals. repeat constructor; simpl; set_solver.
  - vm_compute. reflexivity.
  - intros l Hl. apply (nan_not_sorted snd (1%nat, Double.NaN)).
    + rewrite Hl. set_solver.
    + reflexivity.
    + rewrite Hl. simpl. lia.
  - vm_compute. reflexivity.
Qed.







(** ** Configuration *)

(** C7, as the claim states it, fails: a configuration file that sets the
    decay constant to zero, or to a negative number, is loaded without an
    error, and the constant read back is the one of the file. *)
Lemma nonpositive_decay_is_accepted :
  (exists config,
     Config.load (Config.FileParsed Sample.yaml_zero_decay) = Ok config /\
     Config.get config "ranking.recency_decay_days" (VInt 730) = VInt 0) /\
  (exists config,
     Config.load (Config.FileParsed Sample.yaml_negative_decay) = Ok config /\
     Config.get config "ranking.recency_decay_days" (VInt 730) = VInt (-30)).
Proof. split; eexists; split; reflexivity. Qed.

(** With the zero constant loaded, ranking a document whose date parses
    raises the division error. *)
Example zero_decay_raises_per_call :
  exists config,
    Config.load (Config.FileParsed Sample.yaml_zero_decay) = Ok config /\
    rank_articles Sample.env_dates
      {| config := config; citation_fetcher := None |}
      [0]%nat None (VDict Sample.weights) Sample.state
    = (Raise ZeroDivisionError, Sample.state).
Proof. eexists. split; reflexivity. Qed.

(** C7, amended.  A decay constant of the configuration file that is zero or
    negative is not rejected when the configuration is loaded and is not
    replaced by the default: [load] succeeds and [get] reads the constant of
    the file.  With that configuration, the recency scoring of a document
    whose date parses to a naive timestamp raises [ZeroDivisionError] when
    the constant is zero, at each call, and returns
    [exp(-days_old / decay_days)] when it is negative.  For a date that
    parses to a timezone-aware timestamp the subtraction from the naive
    [utcnow()] raises [TypeError] before the division: the handler catches
    it and the score is 0.0, whatever the constant. *)
Theorem nonpositive_decay_is_loaded (user ranking : list (string * value))
  (v : value) (q : Q)
  (Huser : NoDup user.*1) (Hranking : NoDup ranking.*1)
  (Hsection : alist_lookup "ranking" user = Some (VDict ranking))
  (Hdecay : alist_lookup "recency_decay_days" ranking = Some v)
  (Hnumber : as_number v = Some q) (Hnonpos : (q <= 0)%Q) :
  exists config,
    Config.load (Config.FileParsed (VDict user)) = Ok config /\
    Config.get config "ranking.recency_decay_days" (VInt 730) = v /\
    forall E fetcher l s p d,
      heap s l !! "published" = Some (VStr p) ->
      fromisoformat E (replace_Z p) = Some d ->
      _calculate_recency_score E
        {| config := config; citation_fetcher := fetcher |} l s
      = (if aware d then Ok 0%R
         else if Qeq_bool q 0 then Raise ZeroDivisionError
         else Ok (exp (IZR (- age_in_days s d) / Q2R q)), s).
Proof.
  destruct (load_decay_days user ranking v Huser Hranking Hsection Hdecay)
    as (config & Hload & Hget).
  exists config. split; [exact Hload|]. split; [exact Hget|].
  intros E fetcher l s p d Hp Hparse.
  destruct (aware d) eqn:Haware.
  - apply (recency_unparsed E _ l s p Hp). right. eauto.
  - apply (recency_parsed E _ l s p d q Hp Hparse Haware).
    simpl. now rewrite Hget.
Qed.

Lemma nonpositive_decay_is_loaded_witness :
  exists config,
    Config.load (Config.FileParsed Sample.yaml_zero_decay) = Ok config /\
    Config.get config "ranking.recency_decay_days" (VInt 730) = VInt 0 /\
    forall E fetcher l s p d,
      heap s l !! "published" = Some (VStr p) ->
      fromisoformat E (replace_Z p) = Some d ->
      _calculate_recency_score E
        {| config := config; citation_fetcher := fetcher |} l s
      = (if aware d then Ok 0%R
         else if Qeq_bool (inject_Z 0) 0 then Raise ZeroDivisionError
         else Ok (exp (IZR (- age_in_days s d) / Q2R (inject_Z 0))), s).
Proof.
  apply (nonpositive_decay_is_loaded
           [("ranking", VDict [("recency_decay_days", VInt 0)])]
           [("recency_decay_days", VInt 0)] (VInt 0) (inject_Z 0)).
  - repeat constructor. intros H. now apply elem_of_nil in H.
  - repeat constructor. intros H. now apply elem_of_nil in H.
  - reflexivity.
  - reflexivity.
  - reflexivity.
  - discriminate.
Defined.

(** ** The recency score on doubles *)

(** C6, as the claim states it, fails on doubles: with the default decay
    constant of 730 days, a document 600000 days old and one 700000 days old
    both have the recency score 0.0, since [np.exp] underflows. *)
Lemma recency_not_strictly_decreasing :
  (600000 < 700000)%Z /\
  Double.recency Sample4.numerics 600000 (VInt 730) = Ok Double.zero /\
  Double.recency Sample4.numerics 700000 (VInt 730) = Ok Double.zero.
Proof. split; [reflexivity|]. split; vm_compute; reflexivity. Qed.

(** C6, amended.  On doubles, for a decay constant [d > 0] and the ages a
    [timedelta] can hold: the recency score of age 0 is 1.0; the score of an
    older document is never larger; and from the age [746 * d] on the score
    is 0.0 exactly.  This is so for every [np.exp] that is 1.0 at 0, does
    not decrease and is 0.0 from -746 down. *)
Theorem recency_decay (N : Double.Numerics) (decay : value) (d : Q)
  (Hzero : Double.exp_at_zero N) (Hmono : Double.exp_monotone N)
  (Hunder : Double.exp_underflows N)
  (Hd : Double.decay_of decay = Some d) :
  Double.recency N 0 decay = Ok Double.one /\
  (forall a1 a2 : Z,
     (- Double.max_days <= a1)%Z -> (a1 <= a2)%Z -> (a2 <= Double.max_days)%Z ->
     exists r1 r2,
       Double.recency N a1 decay = Ok r1 /\
       Double.recency N a2 decay = Ok r2 /\
       Double.fle r2 r1 = true) /\
  (forall a : Z,
     (746 * d <= inject_Z a)%Q -> (a <= Double.max_days)%Z ->
     Double.recency N a decay = Ok Double.zero).
Proof.
  pose proof (decay_of_positive decay d Hd) as Hpos.
  split; [|split].
  - rewrite (recency_decay_value N 0 decay d Hd)
      by (unfold Double.max_days; lia).
    rewrite (round_zero (inject_Z (- 0) / d)) by apply Qmult_0_l.
    f_equal. exact Hzero.
  - intros a1 a2 H1 H12 H2. eexists _, _.
    rewrite !(recency_decay_value N _ decay d Hd) by lia.
    split; [reflexivity|]. split; [reflexivity|].
    apply Hmono, round_mono. now apply quotient_mono.
  - intros a Ha Hmax.
    assert (H0 : (0 <= a)%Z).
    { rewrite Zle_Qle. change (inject_Z 0) with 0%Q. Lqa.lra. }
    rewrite (recency_decay_value N a decay d Hd) by lia.
    f_equal. apply Hunder.
    assert (Er : Double.round (-746) = Double.Finite (-746))
      by (vm_compute; reflexivity).
    rewrite <- Er. apply round_mono.
    apply Qle_shift_div_r; [exact Hpos|]. rewrite inject_Z_opp. Lqa.lra.
Qed.

Lemma recency_decay_witness :
  Double.exp_at_zero Sample4.numerics /\
  Double.exp_monotone Sample4.numerics /\
  Double.exp_underflows Sample4.numerics /\
  Double.decay_of (VInt 730) = Some (inject_Z 730) /\
  Double.recency Sample4.numerics 0 (VInt 730) = Ok Double.one /\
  (forall a1 a2 : Z,
     (- Double.max_days <= a1)%Z -> (a1 <= a2)%Z -> (a2 <= Double.max_days)%Z ->
     exists r1 r2,
       Double.recency Sample4.numerics a1 (VInt 730) = Ok r1 /\
       Double.recency Sample4.numerics a2 (VInt 730) = Ok r2 /\
       Double.fle r2 r1 = true) /\
  (forall a : Z,
     (746 * inject_Z 730 <= inject_Z a)%Q -> (a <= Double.max_days)%Z ->
     Double.recency Sample4.numerics a (VInt 730) = Ok Double.zero).
Proof.
  split; [exact sample_exp_at_zero|]. split; [exact sample_exp_monotone|].
  split; [exact sample_exp_underflows|]. split; [reflexivity|].
  apply (recency_decay Sample4.numerics (VInt 730) (inject_Z 730));
    [exact sample_exp_at_zero | exact sample_exp_monotone
    | exact sample_exp_underflows | reflexivity].
Defined.

(** * Further properties of the code *)

(** ** [ConfigLoader]: merging and dotted keys *)

Lemma alist_set_keys_old (k : string) (v : value) (d : list (string * value)) :
  k ∈ d.*1 -> (alist_set k v d).*1 = d.*1.
Proof.
  induction d as [|[k' v'] d IH]; intros Hin.
  - now apply elem_of_nil in Hin.
  - simpl alist_set. destruct (String.eqb_spec k k') as [->|Hne];
      [reflexivity|].
    rewrite !fmap_cons. f_equal. apply IH.
    rewrite fmap_cons in Hin. apply elem_of_cons in Hin as [?|?];
      [contradiction | assumption].
Qed.

Lemma alist_set_keys_new (k : string) (v : value) (d : list (string * value)) :
  k ∉ d.*1 -> (alist_set k v d).*1 = d.*1 ++ [k].
Proof.
  induction d as [|[k' v'] d IH]; intros Hout; [reflexivity|].
  rewrite fmap_cons in Hout. apply not_elem_of_cons in Hout as [Hne Hout].
  simpl alist_set. destruct (String.eqb_spec k k') as [->|_];
    [contradiction|].
  rewrite !fmap_cons, (IH Hout). reflexivity.
Qed.

Lemma alist_lookup_is_Some (k : string) (d : list (string * value)) :
  is_Some (alist_lookup k d) <-> k ∈ d.*1.
Proof.
  induction d as [|[k' v'] d IH]; simpl.
  - split; [intros [? [=]] | intros H; now apply elem_of_nil in H].
  - destruct (String.eqb_spec k k') as [->|Hne].
    + split; [intros _; apply list_elem_of_here | eauto].
    + rewrite IH. split; [apply list_elem_of_further|].
      intros H. apply elem_of_cons in H as [?|?]; [contradiction | assumption].
Qed.

(** The keys of a merge: the base's keys in their places, then the keys
    that only the override has. *)
Lemma deep_merge_keys_shape (base override : list (string * value)) :
  exists extra,
    (Config._deep_merge base override).*1 = base.*1 ++ extra /\
    (forall k, k ∈ extra <-> k ∈ override.*1 /\ k ∉ base.*1) /\
    (NoDup base.*1 -> NoDup (base.*1 ++ extra)).
Proof.
  unfold Config._deep_merge. revert base.
  induction override as [|[k v] override IH]; intros base; simpl.
  - exists []. rewrite app_nil_r. split; [reflexivity|]. split; [|auto].
    intros k. split; [intros H; now apply elem_of_nil in H|].
    intros [H _]. now apply elem_of_nil in H.
  - destruct (IH (alist_set k (Config.merge_value (alist_lookup k base) v) base))
      as (extra & Hkeys & Hextra & Hdup).
    destruct (decide (k ∈ base.*1)) as [Hin|Hout];
      [rewrite (alist_set_keys_old _ _ _ Hin) in Hkeys, Hextra, Hdup
      |rewrite (alist_set_keys_new _ _ _ Hout) in Hkeys, Hextra, Hdup].
    + exists extra. split; [exact Hkeys|]. split; [|exact Hdup].
      intros k0. rewrite Hextra. split.
      * intros [H1 H2]. split; [now apply list_elem_of_further | exact H2].
      * intros [H1 H2]. split; [|exact H2].
        apply elem_of_cons in H1 as [->|H1]; [contradiction | exact H1].
    + exists (k :: extra). rewrite <- app_assoc in Hkeys, Hdup.
      split; [exact Hkeys|]. split.
      * intros k0. specialize (Hextra k0).
        rewrite elem_of_app, list_elem_of_singleton in Hextra.
        change (k0 ∈ k :: extra <-> k0 ∈ k :: override.*1 /\ k0 ∉ base.*1).
        rewrite !elem_of_cons.
        destruct (decide (k0 = k)) as [->|Hne]; tauto.
      * intros Hbase. apply Hdup. apply NoDup_app. split; [exact Hbase|].
        split; [|apply NoDup_singleton].
        intros k0 Hk0 Hk0'. apply list_elem_of_singleton in Hk0' as ->.
        contradiction.
Qed.

(** X1.  The keys of a merged configuration are the keys of the base, in
    their places, followed by keys of the override that the base lacks; a key
    is in the result exactly when one of the two has it, and a base without
    repeated keys gives a result without repeated keys. *)
Theorem deep_merge_keys (base override : list (string * value)) :
  base.*1 `prefix_of` (Config._deep_merge base override).*1 /\
  (forall k, k ∈ (Config._deep_merge base override).*1
             <-> k ∈ base.*1 \/ k ∈ override.*1) /\
  (NoDup base.*1 -> NoDup (Config._deep_merge base override).*1).
Proof.
  destruct (deep_merge_keys_shape base override) as (extra & -> & Hextra & Hdup).
  split; [now exists extra|]. split; [|exact Hdup].
  intros k. rewrite elem_of_app, Hextra.
  destruct (decide (k ∈ base.*1)); tauto.
Qed.

(** X2.  In a merge with an override whose keys are distinct: a key the
    override lacks keeps the base's value; a key of the override whose value
    is a dictionary, over a dictionary in the base, holds the merge of the
    two; any other key of the override holds the override's value. *)
Theorem deep_merge_override_wins (base override : list (string * value))
  (k : string) (Hkeys : NoDup override.*1) :
  (alist_lookup k override = None ->
   alist_lookup k (Config._deep_merge base override) = alist_lookup k base) /\
  (forall b o,
     alist_lookup k base = Some (VDict b) ->
     alist_lookup k override = Some (VDict o) ->
     alist_lookup k (Config._deep_merge base override)
     = Some (VDict (Config._deep_merge b o))) /\
  (forall v,
     alist_lookup k override = Some v ->
     (forall b o, alist_lookup k base = Some (VDict b) -> v <> VDict o) ->
     alist_lookup k (Config._deep_merge base override) = Some v).
Proof.
  rewrite (deep_merge_lookup k base override Hkeys). split; [|split].
  - now intros ->.
  - intros b o Hb Ho. now rewrite Ho, Hb, merge_value_dicts.
  - intros v Hv Hnot. rewrite Hv. f_equal.
    destruct v; try reflexivity. simpl.
    destruct (alist_lookup k base) as [[]|]; try reflexivity.
    exfalso. now eapply Hnot.
Qed.

Lemma deep_merge_override_wins_witness :
  NoDup [("ranking", VDict [("recency_decay_days", VInt 365)])].*1 /\
  alist_lookup "citation"
    (Config._deep_merge Config._get_default_config
       [("ranking", VDict [("recency_decay_days", VInt 365)])])
  = alist_lookup "citation" Config._get_default_config.
Proof.
  assert (H : NoDup [("ranking", VDict [("recency_decay_days", VInt 365)])].*1).
  { repeat constructor. intros H. now apply elem_of_nil in H. }
  split; [exact H|].
  exact (proj1 (deep_merge_override_wins Config._get_default_config
                  [("ranking", VDict [("recency_decay_days", VInt 365)])]
                  "citation" H) eq_refl).
Defined.

(** X3.  Whatever is found at the configuration path, [load] raises nothing
    and the loaded configuration has every section of the defaults, each
    key once. *)
Theorem load_keeps_default_sections (f : Config.config_file) :
  exists config,
    Config.load f = Ok config /\
    NoDup config.*1 /\
    forall k, k ∈ Config._get_default_config.*1 -> is_Some (alist_lookup k config).
Proof.
  assert (Hdup : NoDup Config._get_default_config.*1).
  { simpl. repeat (apply NoDup_cons; split;
      [intros H; repeat (apply elem_of_cons in H as [H|H]; [discriminate|]);
       now apply elem_of_nil in H |]).
    apply NoDup_nil. reflexivity. }
  assert (Hdefault : exists config,
            Ok Config._get_default_config = Ok config /\ NoDup config.*1 /\
            forall k, k ∈ Config._get_default_config.*1 ->
                      is_Some (alist_lookup k config)).
  { exists Config._get_default_config. split; [reflexivity|].
    split; [exact Hdup|]. intros k. apply alist_lookup_is_Some. }
  destruct f as [| |doc]; simpl; try exact Hdefault.
  destruct (if truthy doc then doc else VDict []) as [| | | | | |override|];
    try exact Hdefault.
  exists (Config._deep_merge Config._get_default_config override).
  destruct (deep_merge_keys Config._get_default_config override)
    as (_ & Hin & Hnodup).
  split; [reflexivity|]. split; [exact (Hnodup Hdup)|].
  intros k Hk. apply alist_lookup_is_Some, Hin. now left.
Qed.

Lemma split_dot_nonempty (s : string) : split_dot s <> [].
Proof.
  induction s as [|c s IH]; simpl; [discriminate|].
  destruct (Ascii.eqb c "."); [discriminate|].
  destruct (split_dot s); [contradiction | discriminate].
Qed.

Lemma split_dot_app (a b : string) :
  split_dot (String.append a (String "." b)) = split_dot a ++ split_dot b.
Proof.
  induction a as [|c a IH]; [reflexivity|]. simpl. rewrite IH.
  destruct (Ascii.eqb c "."); [reflexivity|].
  pose proof (split_dot_nonempty a) as Hne.
  destruct (split_dot a); [contradiction | reflexivity].
Qed.

Lemma get_path_section (ks ks' : list string) (v d : value)
  (section : list (string * value)) :
  Config.get_path ks v VNone = VDict section ->
  Config.get_path (ks ++ ks') v d = Config.get_path ks' (VDict section) d.
Proof.
  revert v. induction ks as [|k ks IH]; intros v; simpl; [now intros ->|].
  destruct v; try discriminate.
  destruct (alist_lookup k _); [apply IH | discriminate].
Qed.

Lemma get_path_no_section (ks ks' : list string) (v d : value) :
  (forall section, Config.get_path ks v VNone <> VDict section) ->
  ks' <> [] ->
  Config.get_path (ks ++ ks') v d = d.
Proof.
  revert v. induction ks as [|k ks IH]; intros v Hnot Hne; simpl in *.
  - destruct ks'; [contradiction|]. simpl.
    destruct v; try reflexivity. exfalso. now eapply Hnot.
  - destruct v; try reflexivity.
    destruct (alist_lookup k _); [now apply IH | reflexivity].
Qed.

(** X4.  A dotted key is resolved section by section: when [get] finds a
    dictionary under the key [a], the key [a.b] is looked up in that
    dictionary; when it finds anything else, or nothing, the key [a.b] yields
    the default. *)
Theorem get_dotted (config : list (string * value)) (a b : string)
  (default : value) :
  (forall section,
     Config.get config a VNone = VDict section ->
     Config.get config (String.append a (String "." b)) default
     = Config.get section b default) /\
  ((forall section, Config.get config a VNone <> VDict section) ->
   Config.get config (String.append a (String "." b)) default = default).
Proof.
  unfold Config.get. rewrite split_dot_app. split.
  - intros section. apply get_path_section.
  - intros Hnot. apply get_path_no_section; [exact Hnot|].
    apply split_dot_nonempty.
Qed.

(** ** [CitationFetcher]: which requests a lookup sends *)

Section LookupTrace.
Context (E : Env) (self : CitationFetcher).

Create HintDb herald_trace.
Hint Constructors requests_from : herald_trace.





End LookupTrace.


(** X6.  A lookup by DOI or by arXiv identifier yields a count other than
    [None] only from a reply with status 200 whose body is a JSON object:
    the object's [citationCount], or 0 when the object has none.  Any other
    status, a body that is not an object, and a failed request all count as
    unresolved. *)
Theorem fetch_by_id_success (E : Env) (self : CitationFetcher) (s : State) :
  (forall doi v s',
     _fetch_by_doi E self doi s = (Ok v, s') -> is_none v = false ->
     exists d,
       outcome (http_get E (List.length (calls s)) (ByDOI doi))
       = Response 200 (Some (VDict d)) /\
       v = default (VInt 0) (alist_lookup "citationCount" d)) /\
  (forall arxiv_id v s',
     _fetch_by_arxiv_id E self arxiv_id s = (Ok v, s') -> is_none v = false ->
     exists d,
       outcome (http_get E (List.length (calls s)) (ByArxivId arxiv_id))
       = Response 200 (Some (VDict d)) /\
       v = default (VInt 0) (alist_lookup "citationCount" d)).
Proof.
  split.
  - intros doi v s'. unfold _fetch_by_doi, try_except, bind.
    rewrite rate_limit_ok, request_outcome.
    destruct (outcome _) as [code body|]; simpl;
      [|intros [= <- _]; discriminate].
    destruct (Z.eqb_spec code 200) as [->|_];
      [|destruct (code =? 404)%Z; intros [= <- _]; discriminate].
    unfold lift, response_json. destruct body as [data|]; simpl;
      [|intros [= <- _]; discriminate].
    destruct data; simpl; try (intros [= <- _]; discriminate).
    intros [= <- _] _. eauto.
  - intros arxiv_id v s'. unfold _fetch_by_arxiv_id, try_except, bind.
    rewrite rate_limit_ok, request_outcome.
    destruct (outcome _) as [code body|]; simpl;
      [|intros [= <- _]; discriminate].
    destruct (Z.eqb_spec code 200) as [->|_];
      [|destruct (code =? 404)%Z; intros [= <- _]; discriminate].
    unfold lift, response_json. destruct body as [data|]; simpl;
      [|intros [= <- _]; discriminate].
    destruct data; simpl; try (intros [= <- _]; discriminate).
    intros [= <- _] _. eauto.
Qed.

(** X7.  A title search yields a count other than [None] only when the
    reply has status 200, its [data] is a list whose first entry is a JSON
    object, the requested title is a string, and the title of that entry
    equals it once both are lower-cased; the count is that entry's
    [citationCount], or 0 without one. *)
Theorem fetch_by_title_success (E : Env) (self : CitationFetcher)
  (title v : value) (s s' : State)
  (Hfetch : _fetch_by_title E self title s = (Ok v, s'))
  (Hfound : is_none v = false) :
  exists d p rest wanted found,
    outcome (http_get E (List.length (calls s)) (ByTitle title))
    = Response 200 (Some (VDict d)) /\
    alist_lookup "data" d = Some (VList (VDict p :: rest)) /\
    title = VStr wanted /\
    default (VStr "") (alist_lookup "title" p) = VStr found /\
    str_lower E found = str_lower E wanted /\
    v = default (VInt 0) (alist_lookup "citationCount" p).
Proof.
  revert Hfetch Hfound. unfold _fetch_by_title, try_except, bind.
  rewrite rate_limit_ok, request_outcome.
  destruct (outcome _) as [code body|]; simpl;
    [|intros [= <- _]; discriminate].
  destruct (Z.eqb_spec code 200) as [->|_]; [|intros [= <- _]; discriminate].
  unfold lift, response_json. destruct body as [data|]; simpl;
    [|intros [= <- _]; discriminate].
  destruct data as [| | | | | |d|]; simpl; try (intros [= <- _]; discriminate).
  destruct (alist_lookup "data" d) as [papers|] eqn:Hdata; simpl;
    [|intros [= <- _]; discriminate].
  destruct (truthy papers); [|intros [= <- _]; discriminate].
  destruct papers as [| | | |t|[|first_paper rest]| |]; simpl;
    try (intros [= <- _]; discriminate).
  { destruct t; simpl; intros [= <- _]; discriminate. }
  destruct first_paper as [| | | | | |p|]; simpl;
    try (intros [= <- _]; discriminate).
  destruct (alist_lookup "title" p) as [found0|] eqn:Htitle; simpl.
  - destruct found0 as [| | | |found| | |]; simpl;
      try (intros [= <- _]; discriminate).
    destruct title as [| | | |wanted| | |]; simpl;
      try (intros [= <- _]; discriminate).
    destruct (String.eqb_spec (str_lower E found) (str_lower E wanted))
      as [Heq|_]; [|intros [= <- _]; discriminate].
    intros [= <- _] _. exists d, p, rest, wanted, found.
    rewrite Htitle. repeat split; auto.
  - destruct title as [| | | |wanted| | |]; simpl;
      try (intros [= <- _]; discriminate).
    destruct (String.eqb_spec (str_lower E "") (str_lower E wanted))
      as [Heq|_]; [|intros [= <- _]; discriminate].
    intros [= <- _] _. exists d, p, rest, wanted, "".
    rewrite Htitle. repeat split; auto.
Qed.

Lemma fetch_by_title_success_witness :
  exists d p rest wanted found,
    outcome (http_get Sample2.env_titles (List.length (calls Sample.state))
               (ByTitle (VStr "Attention")))
    = Response 200 (Some (VDict d)) /\
    alist_lookup "data" d = Some (VList (VDict p :: rest)) /\
    VStr "Attention" = VStr wanted /\
    default (VStr "") (alist_lookup "title" p) = VStr found /\
    str_lower Sample2.env_titles found = str_lower Sample2.env_titles wanted /\
    VInt 3 = default (VInt 0) (alist_lookup "citationCount" p).
Proof.
  apply (fetch_by_title_success Sample2.env_titles Sample.fetcher
           (VStr "Attention") (VInt 3) Sample.state
           (_fetch_by_title Sample2.env_titles Sample.fetcher
              (VStr "Attention") Sample.state).2);
    reflexivity.
Defined.

(** ** [ArticleRanker]: edges of the signals *)



Section QuietRanking.
Context (E : Env) (self : ArticleRanker).

Lemma citation_score_quiet (l : loc) (s : State) :
  citation_fetcher self = None \/
  truthy (Config.is_citation_enabled (config self)) = false \/
  is_Some (cached_count (heap s l)) ->
  (_calculate_citation_score E self l s).2 = s.
Proof.
  intros H. rewrite citation_score_cases.
  destruct (citation_fetcher self) as [fetcher|]; [|reflexivity].
  destruct (truthy _); simpl; [|reflexivity].
  destruct H as [H|[H|[c H]]]; try discriminate. now rewrite H.
Qed.

Lemma calculate_score_quiet (l : loc) (q : option string) (w : value)
  (s : State) :
  citation_fetcher self = None \/
  truthy (Config.is_citation_enabled (config self)) = false \/
  is_Some (cached_count (heap s l)) ->
  (_calculate_score E self l q w s).2 = s.
Proof.
  intros H. unfold _calculate_score, scores_of, bind, lift, ret.
  set (rel := match q with Some _ => _ | None => _ end).
  assert (Hrel : (rel s).2 = s).
  { subst rel. destruct q as [q|]; [|reflexivity].
    destruct (String.eqb q ""); [reflexivity | apply relevance_state]. }
  destruct (rel s) as [[a|e] s1]; simpl in Hrel; subst s1; [|reflexivity].
  pose proof (recency_state E self l s) as Hrec.
  destruct (_calculate_recency_score E self l s) as [[b|e] s1];
    simpl in Hrec; subst s1; [|reflexivity].
  pose proof (citation_score_quiet l s H) as Hcit.
  destruct (_calculate_citation_score E self l s) as [[c|e] s1];
    simpl in Hcit; subst s1; [|reflexivity].
  destruct (items w); [|reflexivity].
  now destruct (weighted_sum _ _ _).
Qed.

Lemma scored_articles_quiet (articles : list loc) (q : option string)
  (w : value) (s : State) :
  citation_fetcher self = None \/
  truthy (Config.is_citation_enabled (config self)) = false \/
  Forall (fun l => is_Some (cached_count (heap s l))) articles ->
  (scored_articles E self articles q w s).2 = s.
Proof.
  intros H. induction articles as [|l rest IH]; [reflexivity|].
  simpl. unfold bind.
  assert (Hl : citation_fetcher self = None \/
               truthy (Config.is_citation_enabled (config self)) = false \/
               is_Some (cached_count (heap s l))).
  { destruct H as [H|[H|H]]; auto. apply Forall_cons in H as [H _]. auto. }
  pose proof (calculate_score_quiet l q w s Hl) as H1.
  destruct (_calculate_score E self l q w s) as [[t|e] s1]; simpl in H1;
    subst s1; [|reflexivity].
  assert (Hrest : (scored_articles E self rest q w s).2 = s).
  { apply IH. destruct H as [H|[H|H]]; auto.
    apply Forall_cons in H as [_ H]. auto. }
  now destruct (scored_articles E self rest q w s) as [[tl|e] s2].
Qed.

End QuietRanking.

(** X9.  A ranking call leaves the whole state as it was, so that it sends
    no request, spends no time and writes to no document, when the ranker has
    no fetcher, when citations are switched off in the configuration, or when
    every document of the call carries a cached count. *)
Theorem ranking_without_lookups (E : Env) (self : ArticleRanker)
  (articles : list loc) (query : option string) (weights : value) (s : State)
  (Hquiet : citation_fetcher self = None \/
            truthy (Config.is_citation_enabled (config self)) = false \/
            Forall (fun l => is_Some (cached_count (heap s l))) articles) :
  (rank_articles E self articles query weights s).2 = s.
Proof.
  destruct articles as [|l rest]; [reflexivity|].
  rewrite rank_articles_nonempty.
  pose proof (scored_articles_quiet E self (l :: rest) query
                (effective_weights self weights) s Hquiet) as H.
  now destruct (scored_articles E self (l :: rest) query _ s) as [[scored|e] s1].
Qed.

Lemma ranking_without_lookups_witness :
  (rank_articles Sample.env Sample.ranker [2; 2]%nat (Some "graphs")
     (VDict Sample.weights) Sample.state).2 = Sample.state.
Proof.
  apply (ranking_without_lookups Sample.env Sample.ranker [2; 2]%nat).
  right. right. repeat constructor; eexists; reflexivity.
Defined.

(** X11.  A [published] field that is present but is not a string.  [None],
    a number, a list and a dictionary have no [replace]: the recency scoring
    raises [AttributeError], which the handler for [ValueError] and
    [TypeError] does not catch, and a ranking call that reaches such a
    document raises it.  A [datetime] object, which is what the arXiv
    collector stores, has a [replace] that rejects the two strings with
    [TypeError]: the handler catches it and the recency score is 0.0. *)
Theorem published_not_string_raises (E : Env) (self : ArticleRanker)
  (l : loc) (s : State) (p : value)
  (Hp : heap s l !! "published" = Some p) :
  (forall t, p = VDatetime t ->
     _calculate_recency_score E self l s = (Ok 0%R, s)) /\
  ((forall text, p <> VStr text) -> (forall t, p <> VDatetime t) ->
   _calculate_recency_score E self l s = (Raise AttributeError, s) /\
   forall rest weights,
     rank_articles E self (l :: rest) None weights s
     = (Raise AttributeError, s)).
Proof.
  split.
  - intros t ->. unfold _calculate_recency_score, bind, try_except, lift.
    simpl. now rewrite Hp.
  - intros Hstr Hdate.
    assert (Hrec : _calculate_recency_score E self l s
                   = (Raise AttributeError, s)).
    { unfold _calculate_recency_score, bind, try_except, lift. simpl.
      rewrite Hp. destruct p; try reflexivity; exfalso;
        [now eapply Hstr | now eapply Hdate]. }
    split; [exact Hrec|]. intros rest weights.
    rewrite rank_articles_nonempty. simpl. unfold bind at 1.
    unfold _calculate_score, scores_of, bind, ret. now rewrite Hrec.
Qed.

Lemma published_not_string_raises_witness :
  heap Sample2.state_null_date 0%nat !! "published" = Some VNone /\
  (forall t, VNone = VDatetime t ->
     _calculate_recency_score Sample.env Sample.ranker 0%nat
       Sample2.state_null_date = (Ok 0%R, Sample2.state_null_date)) /\
  ((forall text, VNone <> VStr text) -> (forall t, VNone <> VDatetime t) ->
   _calculate_recency_score Sample.env Sample.ranker 0%nat
     Sample2.state_null_date
   = (Raise AttributeError, Sample2.state_null_date) /\
   forall rest weights,
     rank_articles Sample.env Sample.ranker (0%nat :: rest) None weights
       Sample2.state_null_date
     = (Raise AttributeError, Sample2.state_null_date)).
Proof.
  split; [reflexivity|].
  apply (published_not_string_raises Sample.env Sample.ranker 0%nat
           Sample2.state_null_date VNone); reflexivity.
Defined.

(** X12.  A decay constant that is not a number (a string, [None], a list)
    is not an error: the [TypeError] of the division is caught, and the
    recency score of every document whose [published] is a string is 0.0. *)
Theorem non_numeric_decay_zeroes_recency (E : Env) (self : ArticleRanker)
  (l : loc) (s : State) (p : string)
  (Hdecay : as_number (Config.get (config self) "ranking.recency_decay_days"
                         (VInt 730)) = None)
  (Hp : heap s l !! "published" = Some (VStr p)) :
  _calculate_recency_score E self l s = (Ok 0%R, s).
Proof.
  unfold _calculate_recency_score, bind, try_except, lift, utcnow, ret. simpl.
  rewrite Hp. simpl.
  destruct (fromisoformat E _) as [d|]; simpl; [|reflexivity].
  unfold datetime_sub. destruct (Bool.eqb _ _); simpl; [|reflexivity].
  unfold recency, py_truediv. now rewrite Hdecay.
Qed.

Lemma non_numeric_decay_zeroes_recency_witness :
  as_number (Config.get (config Sample2.ranker_text_decay)
               "ranking.recency_decay_days" (VInt 730)) = None /\
  heap Sample.state 0%nat !! "published" = Some (VStr "yesterday") /\
  _calculate_recency_score Sample.env_dates Sample2.ranker_text_decay 0%nat
    Sample.state
  = (Ok 0%R, Sample.state).
Proof.
  split; [reflexivity|]. split; [reflexivity|].
  apply (non_numeric_decay_zeroes_recency Sample.env_dates
           Sample2.ranker_text_decay 0%nat Sample.state "yesterday");
    reflexivity.
Defined.



(** X14.  Where the normalisation raises instead of scoring: a count below
    0 raises [ValueError] (the logarithm of a number that is not positive),
    a count that is a string raises [TypeError]; and for a count above 0, a
    maximum of 0 raises [ZeroDivisionError] and a maximum below 0 raises
    [ValueError]. *)
Theorem authority_errors (count m : Z) (text : string) :
  ((count < 0)%Z -> authority (VInt count) (VInt m) = Raise ValueError) /\
  authority (VStr text) (VInt m) = Raise TypeError /\
  ((0 < count)%Z -> authority (VInt count) (VInt 0) = Raise ZeroDivisionError) /\
  ((0 < count)%Z -> (m < 0)%Z ->
   authority (VInt count) (VInt m) = Raise ValueError).
Proof.
  assert (Hneg : forall z : Z, (z < 0)%Z -> log1p_value (VInt z) = Raise ValueError).
  { intros z Hz. unfold log1p_value. simpl.
    destruct (Qlt_le_dec 0 (1 + inject_Z z)) as [Hlt|_]; [|reflexivity].
    exfalso. apply Qlt_Rlt in Hlt. rewrite Q2R_one_plus in Hlt.
    assert (IZR z <= -1)%R by (apply IZR_le; lia).
    unfold Q2R in Hlt; simpl in Hlt. lra. }
  assert (Hzero : forall z : Z, (z <> 0)%Z -> py_eq_zero (VInt z) = false).
  { intros z Hz. unfold py_eq_zero. simpl. rewrite Qeq_bool_inject_Z.
    now apply Z.eqb_neq. }
  split; [|split; [reflexivity|split]].
  - intros Hc. unfold authority. rewrite Hzero by lia. simpl.
    now rewrite Hneg.
  - intros Hc. unfold authority. rewrite Hzero by lia. simpl.
    rewrite (log1p_value_int count) by lia. unfold float_div.
    destruct (Req_dec_T _ 0) as [_|Hne]; [reflexivity|].
    exfalso. apply Hne. rewrite Q2R_one_plus, Rplus_0_r. apply ln_1.
  - intros Hc Hmneg. unfold authority. rewrite Hzero by lia. simpl.
    rewrite log1p_value_int by lia. now rewrite Hneg.
Qed.

(** *** Scaling the weights *)

Lemma scored_articles_no_query (E : Env) (self : ArticleRanker)
  (enc : string -> result (list Q)) (cos : list Q -> list Q -> result R)
  (articles : list loc) (query : option string) (w : value) (s : State) :
  query = None \/ query = Some "" ->
  scored_articles (with_embedding enc cos E) self articles query w s
  = scored_articles E self articles query w s.
Proof.
  intros Hq. revert s. induction articles as [|l rest IH]; intros s;
    [reflexivity|].
  simpl. unfold bind.
  assert (H1 : _calculate_score (with_embedding enc cos E) self l query w s
               = _calculate_score E self l query w s).
  { destruct Hq as [->| ->]; reflexivity. }
  rewrite H1.
  destruct (_calculate_score E self l query w s) as [[t|e] s1]; [|reflexivity].
  now rewrite IH.
Qed.

(** X16.  Without a query (none, or the empty string) the embedding
    collaborator is never consulted: a ranking call gives the same result
    and the same state whatever the encoder and the similarity function do,
    also when they fail. *)
Theorem no_query_no_embedding (E : Env) (self : ArticleRanker)
  (enc : string -> result (list Q)) (cos : list Q -> list Q -> result R)
  (articles : list loc) (query : option string) (weights : value) (s : State)
  (Hquery : query = None \/ query = Some "") :
  rank_articles (with_embedding enc cos E) self articles query weights s
  = rank_articles E self articles query weights s.
Proof.
  destruct articles as [|l rest]; [reflexivity|].
  rewrite !rank_articles_nonempty.
  now rewrite (scored_articles_no_query E self enc cos _ _ _ _ Hquery).
Qed.

Lemma no_query_no_embedding_witness :
  rank_articles
    (with_embedding (encode Sample.env_encoder_down)
       (cosine_similarity Sample.env_encoder_down) Sample.env)
    Sample.ranker [0; 1; 2]%nat None (VDict Sample.weights) Sample.state
  = rank_articles Sample.env Sample.ranker [0; 1; 2]%nat None
      (VDict Sample.weights) Sample.state.
Proof.
  apply (no_query_no_embedding Sample.env Sample.ranker). now left.
Defined.

(** ** [main]: the [--weights] option *)

Lemma split_char_length (sep : ascii) (text : string) :
  List.length (Cli.split_char sep text) = S (occurrences sep text).
Proof.
  induction text as [|c text IH]; [reflexivity|]. simpl.
  destruct (Ascii.eqb c sep); simpl; [now rewrite IH|].
  destruct (Cli.split_char sep text); simpl in *; [discriminate | exact IH].
Qed.

Lemma split_char_app (sep : ascii) (a b : string) :
  Cli.split_char sep (String.append a (String sep b))
  = Cli.split_char sep a ++ Cli.split_char sep b.
Proof.
  induction a as [|c a IH]; simpl.
  - now rewrite Ascii.eqb_refl.
  - rewrite IH. destruct (Ascii.eqb c sep); [reflexivity|].
    pose proof (split_char_length sep a) as Hlen.
    destruct (Cli.split_char sep a); [discriminate | reflexivity].
Qed.

Lemma alist_set_nonempty (k : string) (v : value) (d : list (string * value)) :
  alist_set k v d <> [].
Proof. destruct d as [|[k' v'] d]; simpl; [|destruct (String.eqb k k')]; discriminate. Qed.

Lemma alist_set_nodup (k : string) (v : value) (d : list (string * value)) :
  NoDup d.*1 -> NoDup (alist_set k v d).*1.
Proof.
  intros Hd. destruct (decide (k ∈ d.*1)) as [Hin|Hout].
  - now rewrite alist_set_keys_old.
  - rewrite alist_set_keys_new by assumption. apply NoDup_app.
    split; [exact Hd|]. split; [|apply NoDup_singleton].
    intros k0 H0 H1. apply list_elem_of_singleton in H1 as ->. contradiction.
Qed.

Section ParsePairs.
Context (L : Lib).

Lemma parse_pairs_raises (pairs : list string) (acc : list (string * value))
  (e : exn) :
  Cli.parse_pairs L pairs acc = Raise e -> e = ValueError.
Proof.
  revert acc. induction pairs as [|item rest IH]; intros acc; simpl;
    [discriminate|].
  destruct (Cli.split_char ":" item) as [|key [|val [|? ?]]];
    try (now intros [= <-]).
  destruct (float_of_str L _); [apply IH | now intros [= <-]].
Qed.

Lemma parse_pairs_dict (pairs : list string) (acc ws : list (string * value)) :
  Cli.parse_pairs L pairs acc = Ok ws ->
  (NoDup acc.*1 -> NoDup ws.*1) /\ (acc <> [] \/ pairs <> [] -> ws <> []).
Proof.
  revert acc. induction pairs as [|item rest IH]; intros acc; simpl.
  - intros [= <-]. split; [auto|]. intros [H|H]; [exact H | contradiction].
  - destruct (Cli.split_char ":" item) as [|key [|val [|? ?]]];
      try discriminate.
    destruct (float_of_str L _) as [q|]; [|discriminate].
    intros Hrun. destruct (IH _ Hrun) as [Hdup Hne]. split.
    + intros Hacc. now apply Hdup, alist_set_nodup.
    + intros _. apply Hne. left. apply alist_set_nonempty.
Qed.

Lemma parse_pairs_malformed (pairs : list string) (acc : list (string * value))
  (item : string) :
  item ∈ pairs -> occurrences ":" item <> 1%nat ->
  Cli.parse_pairs L pairs acc = Raise ValueError.
Proof.
  intros Hin Hbad. revert acc.
  induction pairs as [|item0 rest IH]; intros acc;
    [now apply elem_of_nil in Hin|].
  simpl. pose proof (split_char_length ":" item0) as Hlen.
  destruct (Cli.split_char ":" item0) as [|key [|val [|? ?]]];
    try reflexivity.
  destruct (float_of_str L _); [|reflexivity].
  apply elem_of_cons in Hin as [->|Hin]; [|now apply IH].
  simpl in Hlen. exfalso. apply Hbad. lia.
Qed.

Lemma parse_pairs_snoc (pairs : list string) (acc ws : list (string * value))
  (item key val : string) (q : Q) :
  Cli.parse_pairs L pairs acc = Ok ws ->
  Cli.split_char ":" item = [key; val] ->
  float_of_str L (str_strip L val) = Some q ->
  Cli.parse_pairs L (pairs ++ [item]) acc
  = Ok (alist_set (str_strip L key) (VFloat q) ws).
Proof.
  intros Hrun Hsplit Hfloat. revert acc Hrun.
  induction pairs as [|item0 rest IH]; intros acc; simpl.
  - intros [= <-]. now rewrite Hsplit, Hfloat.
  - destruct (Cli.split_char ":" item0) as [|key0 [|val0 [|? ?]]];
      try discriminate.
    destruct (float_of_str L (str_strip L val0)); [apply IH | discriminate].
Qed.

End ParsePairs.

(** X17.  Parsing the [--weights] option raises nothing but [ValueError].
    When it succeeds, the result is [None] for an absent or empty option,
    and otherwise a dictionary that is not empty and has each key once, so
    that the ranker uses it in place of the configured weights. *)
Theorem parse_weights_outcome (L : Lib) (arg : option string) :
  (forall e, Cli.parse_weights L arg = Raise e -> e = ValueError) /\
  (forall w, Cli.parse_weights L arg = Ok w ->
     (w = VNone /\ (arg = None \/ arg = Some "")) \/
     (exists ws, w = VDict ws /\ ws <> [] /\ NoDup ws.*1 /\
                 forall self, effective_weights self w = w)).
Proof.
  unfold Cli.parse_weights. destruct arg as [text|].
  - destruct (String.eqb_spec text "") as [->|Hne].
    + split; [discriminate|]. intros w [= <-]. left. auto.
    + destruct (Cli.parse_pairs L (Cli.split_char "," text) []) as [ws|e] eqn:Hrun.
      * split; [discriminate|]. intros w [= <-]. right.
        destruct (parse_pairs_dict L _ _ _ Hrun) as [Hdup Hnonempty].
        assert (Hws : ws <> []).
        { apply Hnonempty. right.
          pose proof (split_char_length "," text) as Hlen.
          destruct (Cli.split_char "," text); [discriminate | discriminate]. }
        exists ws. split; [reflexivity|]. split; [exact Hws|].
        split; [apply Hdup, NoDup_nil; reflexivity|].
        intros self. unfold effective_weights. simpl.
        destruct ws; [contradiction | reflexivity].
      * split; [|discriminate]. intros e0 [= <-].
        exact (parse_pairs_raises L _ _ _ Hrun).
  - split; [discriminate|]. intros w [= <-]. left. auto.
Qed.

(** X18.  An option that is not empty and one of whose comma-separated
    pairs does not hold exactly one colon is rejected with [ValueError]:
    a pair without a value, a pair with two colons, a trailing comma. *)
Theorem malformed_pair_rejected (L : Lib) (text item : string)
  (Htext : text <> "")
  (Hitem : item ∈ Cli.split_char "," text)
  (Hcolons : occurrences ":" item <> 1%nat) :
  Cli.parse_weights L (Some text) = Raise ValueError.
Proof.
  unfold Cli.parse_weights.
  destruct (String.eqb_spec text ""); [contradiction|].
  now rewrite (parse_pairs_malformed L _ [] item Hitem Hcolons).
Qed.

Lemma malformed_pair_rejected_witness :
  "relevance:1,recency," <> "" /\
  "" ∈ Cli.split_char "," "relevance:1,recency," /\
  occurrences ":" "" <> 1%nat /\
  Cli.parse_weights Sample3.lib (Some "relevance:1,recency,") = Raise ValueError.
Proof.
  assert (H1 : "relevance:1,recency," <> "") by discriminate.
  assert (H2 : "" ∈ Cli.split_char "," "relevance:1,recency,").
  { simpl. do 2 apply list_elem_of_further. apply list_elem_of_here. }
  assert (H3 : occurrences ":" "" <> 1%nat) by discriminate.
  split; [exact H1|]. split; [exact H2|]. split; [exact H3|].
  exact (malformed_pair_rejected Sample3.lib "relevance:1,recency," "" H1 H2 H3).
Defined.

(** X19.  Appending one more well-formed pair to an option that parses
    gives the same dictionary with that pair's key set to its value: a key
    given before is overridden in place, a new key is added at the end. *)
Theorem later_pair_overrides (L : Lib) (text item key val : string) (q : Q)
  (ws : list (string * value))
  (Hparsed : Cli.parse_weights L (Some text) = Ok (VDict ws))
  (Hitem : Cli.split_char "," item = [item])
  (Hpair : Cli.split_char ":" item = [key; val])
  (Hfloat : float_of_str L (str_strip L val) = Some q) :
  Cli.parse_weights L (Some (String.append text (String "," item)))
  = Ok (VDict (alist_set (str_strip L key) (VFloat q) ws)) /\
  alist_lookup (str_strip L key) (alist_set (str_strip L key) (VFloat q) ws)
  = Some (VFloat q) /\
  forall k, k <> str_strip L key ->
    alist_lookup k (alist_set (str_strip L key) (VFloat q) ws)
    = alist_lookup k ws.
Proof.
  split; [|split; [apply alist_lookup_set_eq |
                   intros k Hk; now apply alist_lookup_set_ne]].
  unfold Cli.parse_weights in *.
  destruct (String.eqb_spec text "") as [->|Hne]; [discriminate|].
  destruct (Cli.parse_pairs L (Cli.split_char "," text) []) as [ws0|] eqn:Hrun;
    [|discriminate].
  injection Hparsed as ->.
  assert (Hnonempty : String.append text (String "," item) <> "").
  { destruct text; discriminate. }
  destruct (String.eqb_spec (String.append text (String "," item)) "");
    [contradiction|].
  rewrite split_char_app, Hitem.
  now rewrite (parse_pairs_snoc L _ _ _ _ _ _ _ Hrun Hpair Hfloat).
Qed.

Lemma later_pair_overrides_witness :
  Cli.parse_weights Sample3.lib (Some "recency:1")
  = Ok (VDict [("recency", VFloat 1)]) /\
  Cli.parse_weights Sample3.lib (Some "recency:1,recency:0.5")
  = Ok (VDict (alist_set "recency" (VFloat (1 # 2)) [("recency", VFloat 1)])).
Proof.
  split; [reflexivity|].
  apply (later_pair_overrides Sample3.lib "recency:1" "recency:0.5"
           "recency" "0.5" (1 # 2) [("recency", VFloat 1)]);
    reflexivity.
Defined.

(** ** [MetadataProcessor] and the processing loop of the pipeline *)

Ltac process_cases H :=
  unfold Metadata.process in H;
  repeat (case_match; try discriminate);
  simplify_eq.

Section MetadataFacts.
Context (E : Env) (L : Lib).

Lemma process_frame (m p : gmap string value) (s : State) (k : string) :
  Metadata.process E L m s = Ok p ->
  k <> "authors" -> k <> "published" -> k <> "updated" ->
  k <> "categories" -> k <> "processed_at" ->
  p !! k = m !! k.
Proof.
  intros H H1 H2 H3 H4 H5. process_cases H;
    now rewrite ?lookup_insert_ne by congruence.
Qed.

Lemma process_keeps_keys (m p : gmap string value) (s : State) (k : string) :
  Metadata.process E L m s = Ok p -> is_Some (m !! k) -> is_Some (p !! k).
Proof.
  intros H Hk. process_cases H;
    repeat (rewrite lookup_insert; case_decide; [eauto|]); exact Hk.
Qed.

Lemma process_stamps (m p : gmap string value) (s : State) :
  Metadata.process E L m s = Ok p ->
  p !! "processed_at"
  = Some (VStr (isoformat L {| aware := false;
                               micros := Qfloor (clock s * 1000000) |})).
Proof. intros H. process_cases H; apply lookup_insert_eq. Qed.

Lemma process_published (m p : gmap string value) (s : State) :
  Metadata.process E L m s = Ok p ->
  p !! "published" = Metadata._process_date E L <$> m !! "published".
Proof.
  intros H. process_cases H;
    repeat match goal with
           | Hl : _ !! _ = _ |- _ =>
               rewrite lookup_insert_ne in Hl by discriminate
           end;
    rewrite ?lookup_insert_ne by discriminate;
    rewrite ?lookup_insert_eq;
    repeat match goal with
           | Hl : ?m !! "published" = _ |- context [?m !! "published"] =>
               rewrite Hl
           end;
    try reflexivity.
Qed.

Lemma process_updated (m p : gmap string value) (s : State) :
  Metadata.process E L m s = Ok p ->
  p !! "updated" = Metadata._process_date E L <$> m !! "updated".
Proof.
  intros H. process_cases H;
    repeat match goal with
           | Hl : _ !! _ = _ |- _ =>
               rewrite lookup_insert_ne in Hl by discriminate
           end;
    rewrite ?lookup_insert_ne by discriminate;
    rewrite ?lookup_insert_eq;
    rewrite ?lookup_insert_ne by discriminate;
    repeat match goal with
           | Hl : ?m !! "updated" = _ |- context [?m !! "updated"] =>
               rewrite Hl
           end;
    try reflexivity.
Qed.

Lemma process_authors_field (m p : gmap string value) (s : State) (v : value) :
  Metadata.process E L m s = Ok p -> m !! "authors" = Some v ->
  exists a, Metadata._process_authors L v = Ok a /\ p !! "authors" = Some a.
Proof.
  intros H Hv. process_cases H;
    eexists; (split; [eassumption|]);
    rewrite ?lookup_insert_ne by discriminate; apply lookup_insert_eq.
Qed.

Lemma validate_input_lookup (m : gmap string value) (k : string) :
  is_Some (m !! k) -> Metadata.validate_input m = true.
Proof.
  intros [v Hv]. unfold Metadata.validate_input. apply Nat.ltb_lt.
  assert (size m <> 0)%nat; [|lia].
  apply map_size_non_empty_iff. intros ->. by rewrite lookup_empty in Hv.
Qed.

Lemma validate_input_nonempty (m : gmap string value) :
  m <> ∅ -> Metadata.validate_input m = true.
Proof.
  intros Hm. unfold Metadata.validate_input. apply Nat.ltb_lt.
  apply map_size_non_empty_iff in Hm. lia.
Qed.

Lemma each_strings (f : value -> result value) (names : list string) :
  (forall n, exists y, f (VStr n) = Ok y) ->
  exists ys, Metadata.each f (VStr <$> names) = Ok ys.
Proof.
  intros Hf. induction names as [|n names [ys IH]]; [by eexists|].
  destruct (Hf n) as [y Hy]. exists (y :: ys).
  rewrite fmap_cons. simpl. by rewrite Hy, IH.
Qed.

Lemma process_authors_strings (names : list string) :
  exists a, Metadata._process_authors L (VList (VStr <$> names)) = Ok a.
Proof.
  unfold Metadata._process_authors. simpl.
  destruct (each_strings (Metadata.processed_author L) names) as [ys ->];
    [intros n; by eexists | by eexists].
Qed.

Lemma process_categories_strings (names : list string) :
  exists c, Metadata._process_categories E L (VList (VStr <$> names)) = Ok c.
Proof.
  unfold Metadata._process_categories. simpl.
  match goal with
  | |- context [Metadata.each ?f _] =>
      destruct (each_strings f names) as [ys ->];
        [intros n; by eexists | by eexists]
  end.
Qed.

Lemma process_total (m : gmap string value) (s : State) :
  m <> ∅ -> strings_or_absent "authors" m ->
  strings_or_absent "categories" m ->
  exists p, Metadata.process E L m s = Ok p.
Proof.
  intros Hm Ha Hc. unfold Metadata.process.
  rewrite (validate_input_nonempty m Hm). simpl.
  repeat (case_match; simplify_eq); try by eexists.
  all: repeat match goal with
           | Hl : _ !! _ = _ |- _ =>
               rewrite lookup_insert_ne in Hl by discriminate
           end.
  all: repeat match goal with
         | Hl : ?x !! ?k = Some _, Hs : strings_or_absent ?k ?x |- _ =>
             destruct (Hs _ Hl) as [? ->]; clear Hl
         | Hr : Metadata._process_authors L (VList (VStr <$> ?n)) = Raise _
           |- _ =>
             destruct (process_authors_strings n) as [? Hok]; congruence
         | Hr : Metadata._process_categories E L (VList (VStr <$> ?n))
                = Raise _ |- _ =>
             destruct (process_categories_strings n) as [? Hok]; congruence
         end.
Qed.

Lemma process_authors_first (v a y : value) (rest : list value) :
  Metadata.py_iter v = Ok (y :: rest) ->
  Metadata._process_authors L v = Ok a ->
  exists d ys, a = VList (VDict d :: ys).
Proof.
  unfold Metadata._process_authors. intros ->. simpl.
  destruct y; simpl; try discriminate.
  destruct (Metadata.each _ rest); [|discriminate].
  intros [= <-]. by eexists _, _.
Qed.

Lemma processed_article_keeps_keys (pm pt : value) (a : gmap string value)
  (s : State) :
  keeps_keys a (Pipeline.processed_article E L pm pt a s).
Proof.
  intros k Hk. unfold Pipeline.processed_article.
  repeat case_match; simplify_eq; try exact Hk;
    try (rewrite lookup_insert; case_decide; [by eexists|]);
    try exact Hk; by eapply process_keeps_keys.
Qed.

End MetadataFacts.

Lemma processing_loop_map (E : Env) (L : Lib) (pm pt : value)
  (articles acc : list (gmap string value)) (s : State) :
  Pipeline.processing_loop E L pm pt articles acc s
  = acc ++ map (fun a => Pipeline.processed_article E L pm pt a s) articles.
Proof.
  revert acc. induction articles as [|a articles IH]; intros acc; simpl.
  - by rewrite app_nil_r.
  - by rewrite IH, <- app_assoc.
Qed.

Lemma sample_process :
  Metadata.process Sample.env Sample3.lib Sample3.paper Sample.state
  = Ok Sample3.processed_paper.
Proof. vm_compute. reflexivity. Qed.

(** X20.  What [MetadataProcessor.process] changes when it returns: every
    key of the input is a key of the result, every field other than
    [authors], [published], [updated], [categories] and [processed_at] has
    the value it had, [processed_at] is set to the time of the call, and the
    two dates are the input's dates through [_process_date], which leaves a
    date that is no string or does not parse as it is. *)
Theorem metadata_process_frame (E : Env) (L : Lib)
  (m p : gmap string value) (s : State)
  (H : Metadata.process E L m s = Ok p) :
  keeps_keys m p /\
  (forall k, k ∉ processed_fields -> p !! k = m !! k) /\
  p !! "processed_at"
  = Some (VStr (isoformat L {| aware := false;
                               micros := Qfloor (clock s * 1000000) |})) /\
  p !! "published" = Metadata._process_date E L <$> m !! "published" /\
  p !! "updated" = Metadata._process_date E L <$> m !! "updated" /\
  (forall d, (forall text, d = VStr text ->
                fromisoformat E (replace_Z text) = None) ->
     Metadata._process_date E L d = d).
Proof.
  split; [intros k; by apply (process_keeps_keys E L m p s)|].
  split.
  { intros k Hk. apply (process_frame E L m p s); [exact H|..];
      intros ->; apply Hk; unfold processed_fields; set_solver. }
  split; [by apply (process_stamps E L m)|].
  split; [by apply (process_published E L m p s)|].
  split; [by apply (process_updated E L m p s)|].
  intros d Hd. destruct d; try reflexivity. simpl.
  by rewrite (Hd _ eq_refl).
Qed.

Lemma metadata_process_frame_witness :
  Metadata.process Sample.env Sample3.lib Sample3.paper Sample.state
  = Ok Sample3.processed_paper /\
  keeps_keys Sample3.paper Sample3.processed_paper /\
  (forall k, k ∉ processed_fields ->
     Sample3.processed_paper !! k = Sample3.paper !! k) /\
  Sample3.processed_paper !! "processed_at"
  = Some (VStr (isoformat Sample3.lib
                  {| aware := false;
                     micros := Qfloor (clock Sample.state * 1000000) |})) /\
  Sample3.processed_paper !! "published"
  = Metadata._process_date Sample.env Sample3.lib
      <$> Sample3.paper !! "published" /\
  Sample3.processed_paper !! "updated"
  = Metadata._process_date Sample.env Sample3.lib
      <$> Sample3.paper !! "updated" /\
  (forall d, (forall text, d = VStr text ->
                fromisoformat Sample.env (replace_Z text) = None) ->
     Metadata._process_date Sample.env Sample3.lib d = d).
Proof.
  split; [vm_compute; reflexivity|].
  apply (metadata_process_frame Sample.env Sample3.lib Sample3.paper
           Sample3.processed_paper Sample.state).
  vm_compute; reflexivity.
Defined.

(** X21.  [process] is not idempotent: when the input has an [authors] field
    that yields at least one item, the result of [process] holds dictionaries
    there, and processing that result again raises [AttributeError] (a
    dictionary has no [split]). *)
Theorem process_twice_raises (E : Env) (L : Lib)
  (m p : gmap string value) (s : State) (v y : value) (rest : list value)
  (H : Metadata.process E L m s = Ok p)
  (Hv : m !! "authors" = Some v)
  (Hy : Metadata.py_iter v = Ok (y :: rest)) :
  forall s', Metadata.process E L p s' = Raise AttributeError.
Proof.
  intros s'.
  destruct (process_authors_field E L m p s v H Hv) as (a & Ha & Hp).
  destruct (process_authors_first L v a y rest Hy Ha) as (d & ys & ->).
  unfold Metadata.process.
  rewrite (validate_input_lookup p "authors") by (rewrite Hp; by eexists).
  simpl. rewrite Hp. reflexivity.
Qed.

Lemma process_twice_raises_witness :
  Metadata.process Sample.env Sample3.lib Sample3.paper Sample.state
  = Ok Sample3.processed_paper /\
  forall s',
    Metadata.process Sample.env Sample3.lib Sample3.processed_paper s'
    = Raise AttributeError.
Proof.
  split; [vm_compute; reflexivity|].
  apply (process_twice_raises Sample.env Sample3.lib Sample3.paper
           Sample3.processed_paper Sample.state
           (VList [VStr "Ada Lovelace"]) (VStr "Ada Lovelace") []);
    vm_compute; reflexivity.
Defined.

(** X22.  The name parts of [_process_authors]: a name of no word has empty
    first, last and middle names; a name of one word has that word as its
    first name and an empty last name; a name of two words or more is its
    first name, then its middle names, then its last name, and
    [middle_names] joins the middle ones with spaces.  An author that is no
    string raises [AttributeError]. *)
Theorem author_name_parts (L : Lib) (name : string) :
  (exists first last mid,
     Metadata.processed_author L (VStr name)
     = Ok (VDict [ ("full_name", VStr name);
                   ("first_name", VStr first);
                   ("last_name", VStr last);
                   ("middle_names", VStr (Metadata.join_space mid)) ]) /\
     match str_split_ws L name with
     | [] => first = "" /\ last = "" /\ mid = []
     | [w] => first = w /\ last = "" /\ mid = []
     | parts => parts = first :: mid ++ [last]
     end) /\
  (forall author, (forall text, author <> VStr text) ->
     Metadata.processed_author L author = Raise AttributeError).
Proof.
  split; [|intros [] Hs; try reflexivity; by destruct (Hs _ eq_refl)].
  unfold Metadata.processed_author.
  destruct (str_split_ws L name) as [|w1 [|w2 ws]] eqn:Hparts.
  - exists "", "", []. by split.
  - exists w1, "", []. by split.
  - exists w1, (List.last (w1 :: w2 :: ws) ""), (removelast (w2 :: ws)).
    split.
    + change (1 <? List.length (w1 :: w2 :: ws))%nat with true.
      destruct ws as [|w3 ws]; reflexivity.
    + f_equal. change (List.last (w1 :: w2 :: ws) "")
        with (List.last (w2 :: ws) "").
      apply app_removelast_last. discriminate.
Qed.

(** X23.  The processing loop of [search_and_rank] never drops an article:
    it appends exactly one dictionary per article, in order, whether the
    processors return or raise, and that dictionary has every key of the
    article; with both processors switched off the articles pass through
    unchanged. *)
Theorem processing_loop_keeps_articles (E : Env) (L : Lib)
  (pm pt : value) (articles : list (gmap string value)) (s : State) :
  List.length (Pipeline.processing_loop E L pm pt articles [] s)
  = List.length articles /\
  (forall i a, articles !! i = Some a ->
     exists a', Pipeline.processing_loop E L pm pt articles [] s !! i
                = Some a' /\ keeps_keys a a') /\
  (truthy pm = false -> truthy pt = false ->
   Pipeline.processing_loop E L pm pt articles [] s = articles).
Proof.
  rewrite processing_loop_map. simpl. split; [apply length_map|]. split.
  - intros i a Ha. eexists. split.
    + change (map ?f articles) with (f <$> articles).
      rewrite list_lookup_fmap, Ha. reflexivity.
    + apply processed_article_keeps_keys.
  - intros Hpm Hpt. unfold Pipeline.processed_article.
    rewrite Hpm, Hpt. apply map_id.
Qed.

(** X24.  When [process] returns: an empty dictionary raises [ValueError];
    a dictionary that is not empty and whose [authors] and [categories] are
    absent or lists of strings is processed without an exception, whatever
    its dates are. *)
Theorem metadata_process_outcome (E : Env) (L : Lib) (s : State) :
  Metadata.process E L ∅ s = Raise ValueError /\
  forall m, m <> ∅ -> strings_or_absent "authors" m ->
            strings_or_absent "categories" m ->
            exists p, Metadata.process E L m s = Ok p.
Proof.
  split; [reflexivity|]. intros m. apply process_total.
Qed.

(** ** Further properties on doubles *)

(** X10.  The recency score has no upper bound.  On doubles, for a decay
    constant [d > 0] and the ages a [timedelta] can hold: the score of a
    document that is not dated in the future lies between 0.0 and 1.0; the
    score of a document dated in the future is at least 1.0; and a document
    dated [710 * d] days ahead or more has the score [inf].  This is so for
    every [np.exp] that is 1.0 at 0, does not decrease, is never negative
    and is [inf] from 710 up. *)
Theorem recency_range (N : Double.Numerics) (decay : value) (d : Q)
  (Hzero : Double.exp_at_zero N) (Hmono : Double.exp_monotone N)
  (Hnonneg : Double.exp_nonnegative N) (Hover : Double.exp_overflows N)
  (Hd : Double.decay_of decay = Some d) :
  (forall a : Z, (0 <= a <= Double.max_days)%Z ->
     exists r, Double.recency N a decay = Ok r /\
               Double.fle Double.zero r = true /\
               Double.fle r Double.one = true) /\
  (forall a : Z, (- Double.max_days <= a < 0)%Z ->
     exists r, Double.recency N a decay = Ok r /\
               Double.fle Double.one r = true) /\
  (forall a : Z, (- Double.max_days <= a)%Z -> (inject_Z a <= - (710 * d))%Q ->
     Double.recency N a decay = Ok Double.PosInf).
Proof.
  pose proof (decay_of_positive decay d Hd) as Hpos.
  assert (Hinv : (0 < / d)%Q) by now apply Qinv_lt_0_compat.
  split; [|split].
  - intros a [H0 Hmax]. eexists.
    rewrite (recency_decay_value N a decay d Hd) by lia.
    split; [reflexivity|]. split.
    + apply Hnonneg, round_not_nan.
    + rewrite <- Hzero. apply Hmono.
      apply round_sign. unfold Qdiv.
      assert (inject_Z (- a) <= 0)%Q by (rewrite <- (Zle_Qle _ 0); lia).
      rewrite <- (Qmult_0_l (/ d)). apply Qmult_le_compat_r; Lqa.lra.
  - intros a [Hmin Hneg]. eexists.
    rewrite (recency_decay_value N a decay d Hd) by lia.
    split; [reflexivity|].
    rewrite <- Hzero. apply Hmono.
    apply round_sign. unfold Qdiv.
    assert (0 <= inject_Z (- a))%Q by (rewrite <- (Zle_Qle 0); lia).
    rewrite <- (Qmult_0_l (/ d)). apply Qmult_le_compat_r; Lqa.lra.
  - intros a Hmin Ha.
    assert (Hneg : (a <= 0)%Z).
    { rewrite Zle_Qle. change (inject_Z 0) with 0%Q. Lqa.lra. }
    rewrite (recency_decay_value N a decay d Hd) by lia.
    f_equal. apply Hover.
    assert (Er : Double.round 710 = Double.Finite 710)
      by (vm_compute; reflexivity).
    rewrite <- Er. apply round_mono.
    apply Qle_shift_div_l; [exact Hpos|]. rewrite inject_Z_opp. Lqa.lra.
Qed.

Lemma recency_range_witness :
  Double.exp_at_zero Sample4.numerics /\
  Double.exp_monotone Sample4.numerics /\
  Double.exp_nonnegative Sample4.numerics /\
  Double.exp_overflows Sample4.numerics /\
  Double.decay_of (VInt 730) = Some (inject_Z 730) /\
  (forall a : Z, (0 <= a <= Double.max_days)%Z ->
     exists r, Double.recency Sample4.numerics a (VInt 730) = Ok r /\
               Double.fle Double.zero r = true /\
               Double.fle r Double.one = true) /\
  (forall a : Z, (- Double.max_days <= a < 0)%Z ->
     exists r, Double.recency Sample4.numerics a (VInt 730) = Ok r /\
               Double.fle Double.one r = true) /\
  (forall a : Z,
     (- Double.max_days <= a)%Z -> (inject_Z a <= - (710 * inject_Z 730))%Q ->
     Double.recency Sample4.numerics a (VInt 730) = Ok Double.PosInf).
Proof.
  split; [exact sample_exp_at_zero|]. split; [exact sample_exp_monotone|].
  split; [exact sample_exp_nonnegative|]. split; [exact sample_exp_overflows|].
  split; [reflexivity|].
  apply (recency_range Sample4.numerics (VInt 730) (inject_Z 730));
    [exact sample_exp_at_zero | exact sample_exp_monotone
    | exact sample_exp_nonnegative | exact sample_exp_overflows
    | reflexivity].
Defined.

(** X25.  On doubles, whenever [rank_articles] returns, the list it returns
    is a permutation of the input documents paired with their totals; and
    when no total is NaN, the list is in descending order of total and
    documents of equal total keep their input order. *)
Theorem rank_articles_sorted_doubles (E : Env) (N : Double.Numerics)
  (self : ArticleRanker) (articles : list loc) (query : option string)
  (weights : value) (s s' : State) (ranked : list (loc * Double.float))
  (Hrank : Double.rank_articles E N self articles query weights s
           = (Ok ranked, s')) :
  exists scored,
    Double.scored_articles E N self articles query
      (effective_weights self weights) s
    = (Ok scored, s') /\
    scored.*1 = articles /\
    ranked ≡ₚ scored /\
    (Forall (fun p => Double.is_nan p.2 = false) scored ->
     StronglySorted (Double.descending snd) ranked /\
     forall t, List.filter (fun p => Double.feq p.2 t) ranked
               = List.filter (fun p => Double.feq p.2 t) scored).
Proof.
  destruct (double_rank_returns E N self _ _ _ _ _ _ Hrank)
    as (scored & Hrun & ->).
  exists scored. split; [exact Hrun|].
  split; [exact (double_scored_fst E N self _ _ _ _ _ _ Hrun)|].
  split; [apply double_sorted_perm|].
  intros Hnan. split; [now apply double_sorted_sorted|].
  intros t. apply double_sorted_stable.
Qed.

Lemma rank_articles_sorted_doubles_witness :
  Double.rank_articles Sample4.env Sample4.numerics Sample.ranker [0; 2]%nat
    None (VDict Sample4.weights) Sample4.state
  = (Ok [(2%nat, Double.one); (0%nat, Double.zero)], Sample4.state) /\
  exists scored,
    Double.scored_articles Sample4.env Sample4.numerics Sample.ranker
      [0; 2]%nat None
      (effective_weights Sample.ranker (VDict Sample4.weights)) Sample4.state
    = (Ok scored, Sample4.state) /\
    scored.*1 = [0; 2]%nat /\
    [(2%nat, Double.one); (0%nat, Double.zero)] ≡ₚ scored /\
    (Forall (fun p => Double.is_nan p.2 = false) scored ->
     StronglySorted (Double.descending snd)
       [(2%nat, Double.one); (0%nat, Double.zero)] /\
     forall t,
       List.filter (fun p => Double.feq p.2 t)
         [(2%nat, Double.one); (0%nat, Double.zero)]
       = List.filter (fun p => Double.feq p.2 t) scored).
Proof.
  split; [vm_compute; reflexivity|].
  apply (rank_articles_sorted_doubles Sample4.env Sample4.numerics
           Sample.ranker [0; 2]%nat None (VDict Sample4.weights)
           Sample4.state Sample4.state).
  vm_compute. reflexivity.
Defined.

(** X26.  The total of a document dated far in the future, under a weight of
    zero for the recency signal, is NaN.  On doubles, with a decay constant
    [d > 0] and an [np.exp] that is [inf] from 710 up: when the date of the
    document parses to a naive timestamp that lies [710 * d] days ahead or
    more, and the weight map gives the recency signal the weight 0, every
    total that [_calculate_score] returns for the document is NaN. *)
Theorem far_future_total_is_nan (E : Env) (N : Double.Numerics)
  (self : ArticleRanker) (l : loc) (query : option string)
  (ws : list (string * value)) (w : value) (s : State)
  (p : string) (dt : datetime) (d : Q)
  (Hover : Double.exp_overflows N)
  (Hdecay : Double.decay_of
              (Config.get (config self) "ranking.recency_decay_days" (VInt 730))
            = Some d)
  (Hp : heap s l !! "published" = Some (VStr p))
  (Hparse : fromisoformat E (replace_Z p) = Some dt)
  (Hnaive : aware dt = false)
  (Hrange : (- Double.max_days <= age_in_days s dt)%Z)
  (Hahead : (inject_Z (age_in_days s dt) <= - (710 * d))%Q)
  (Hin : ("recency", w) ∈ ws) (Hw : zero_weight w) :
  forall t s',
    Double._calculate_score E N self l query (VDict ws) s = (Ok t, s') ->
    t = Double.NaN.
Proof.
  intros t s' Hscore.
  pose proof (decay_of_positive _ d Hdecay) as Hpos.
  assert (Hneg : (age_in_days s dt <= 0)%Z).
  { rewrite Zle_Qle. change (inject_Z 0) with 0%Q. Lqa.lra. }
  assert (Hrec : Double._calculate_recency_score E N self l s
                 = (Ok Double.PosInf, s)).
  { rewrite (double_recency_parsed E N self l s p dt Hp Hparse Hnaive).
    rewrite (recency_decay_value N _ _ d Hdecay) by lia.
    do 2 f_equal. apply Hover.
    assert (Er : Double.round 710 = Double.Finite 710)
      by (vm_compute; reflexivity).
    rewrite <- Er. apply round_mono.
    apply Qle_shift_div_l; [exact Hpos|]. rewrite inject_Z_opp. Lqa.lra. }
  revert Hscore. unfold Double._calculate_score, bind, lift. simpl.
  destruct (Double.scores_of E N self l query s) as [[scores|] s1] eqn:Hscores;
    [|discriminate].
  intros [= Hsum _].
  apply (weighted_sum_inf_zero scores ws w Double.zero t); try assumption.
  exact (double_scores_recency E N self l query s s1 scores _ Hrec Hscores).
Qed.

Lemma far_future_total_is_nan_witness :
  Double._calculate_score Sample4.env Sample4.numerics Sample.ranker 1%nat
    None (VDict Sample4.weights) Sample4.state
  = (Ok Double.NaN, Sample4.state) /\
  forall t s',
    Double._calculate_score Sample4.env Sample4.numerics Sample.ranker 1%nat
      None (VDict Sample4.weights) Sample4.state = (Ok t, s') ->
    t = Double.NaN.
Proof.
  split; [vm_compute; reflexivity|].
  apply (far_future_total_is_nan Sample4.env Sample4.numerics Sample.ranker
           1%nat None Sample4.weights (VFloat 0) Sample4.state
           "9999-12-31" {| aware := false; micros := 253402214400000000 |}
           (inject_Z 730)).
  - exact sample_exp_overflows.
  - reflexivity.
  - reflexivity.
  - reflexivity.
  - reflexivity.
  - vm_compute. discriminate.
  - vm_compute. discriminate.
  - set_solver.
  - right. right. exists 0%Q. split; reflexivity.
Defined.
